(** * Gemini-Remove: the inpainting engine of [src/lib/watermark-remover.ts]

    A shallow embedding of [buildTextureBank], [isInsideSelection],
    [autoDetectWatermark] and the five stages of [inpaintWatermark], with the
    properties of the written specification stated over it.

    Modelling conventions.
    - Pixel coordinates, sizes, margins and pass counts are integers ([Z]).
    - JavaScript numbers that carry fractions (weights, sums, noise, progress
      percentages) are IEEE-754 binary64 values: Rocq's primitive [float].
    - A [Uint8ClampedArray] is a [list Z] of bytes; a read out of range is
      [None] (JavaScript's [undefined], [NaN] in arithmetic), a write out of
      range is dropped, a write in range stores [ToUint8Clamp] of the number.
    - [Math.random()] is an explicit sequence [random : nat -> float]; the
      state records how many draws were consumed.
    - The optional progress callback is a flag; the reported percentages are
      logged in the state in call order.
    - [await]-points only yield to the host and are not modelled (the buffers
      are owned by the call); allocating the typed arrays and the returned
      [ImageData], and calling the progress callback, are taken to succeed. *)

From Stdlib Require Import ZArith Floats Lia.
From stdpp Require Import base list list_numbers sorting.

Local Open Scope Z_scope.

(** ** JavaScript numbers and typed arrays *)

Module JS.

(** An integer as a number (exact below 2^53). *)
Definition of_Z (z : Z) : float :=
  SF2Prim (binary_normalize prec emax z 0 false).

(** [undefined] in arithmetic position is [NaN]. *)
Definition toNumber (v : option Z) : float :=
  match v with
  | Some z => of_Z z
  | None => nan
  end.

(** [Math.sqrt] *)
Definition Math_sqrt (f : float) : float := PrimFloat.sqrt f.

(** [Math.round]: the nearest integer, ties towards +infinity; [NaN] and the
    infinities are returned as they are.  (The sign of a zero result is not
    tracked: every use stores the result in a byte array.) *)
Definition Math_round (f : float) : float :=
  match Prim2SF f with
  | S754_finite s m e =>
      if 0 <=? e then f
      else
        let v := if s then Z.neg m else Z.pos m in
        let k := - e in
        of_Z ((2 * v + 2 ^ k) / 2 ^ (k + 1))
  | _ => f
  end.

(** [Math.floor] of a finite number, as an integer; [None] for [NaN] and
    the infinities (no array index). *)
Definition Math_floor (f : float) : option Z :=
  match Prim2SF f with
  | S754_zero _ => Some 0
  | S754_finite s m e =>
      let v := if s then Z.neg m else Z.pos m in
      Some (if 0 <=? e then v * 2 ^ e else v / 2 ^ (- e))
  | _ => None
  end.

(** [Math.min] and [Math.max] on two numbers ([NaN] is contagious). *)
Definition Math_min (a b : float) : float :=
  if (is_nan a || is_nan b)%bool then nan
  else if (a <? b)%float then a else b.

Definition Math_max (a b : float) : float :=
  if (is_nan a || is_nan b)%bool then nan
  else if (a <? b)%float then b else a.

(** [ToUint8Clamp]: the conversion a [Uint8ClampedArray] applies on a store:
    [NaN] is 0, the value is clamped to [0, 255] and rounded to the nearest
    integer, ties to even. *)
Definition ToUint8Clamp (f : float) : Z :=
  match Prim2SF f with
  | S754_nan => 0
  | S754_zero _ => 0
  | S754_infinity s => if s then 0 else 255
  | S754_finite s m e =>
      if s then 0
      else if 0 <=? e then Z.min 255 (Z.pos m * 2 ^ e)
      else
        let k := - e in
        let q := Z.pos m / 2 ^ k in
        let r2 := 2 * (Z.pos m mod 2 ^ k) in
        Z.min 255
          (if r2 <? 2 ^ k then q
           else if 2 ^ k <? r2 then q + 1
           else if Z.even q then q else q + 1)
  end.

(** [buf[i]] *)
Definition load (buf : list Z) (i : Z) : option Z :=
  if i <? 0 then None else buf !! Z.to_nat i.

(** [buf[i] = v] on a [Uint8ClampedArray] *)
Definition store (buf : list Z) (i : Z) (v : float) : list Z :=
  if i <? 0 then buf else <[Z.to_nat i := ToUint8Clamp v]> buf.

(** [for (let i = lo; i < hi; i++) body] over a state [S]. *)
Definition forZ {S : Type} (lo hi : Z) (body : Z → S → S) (s : S) : S :=
  foldl (λ s i, body i s) s (seqZ lo (hi - lo)).

(** What a call either returns or throws. *)
Inductive Error := TypeError.

Inductive outcome (A : Type) :=
| Returned (a : A)
| Raised (e : Error).
Arguments Returned {A} a.
Arguments Raised {A} e.

#[export] Instance outcome_ret : MRet outcome := λ A a, Returned a.
#[export] Instance outcome_bind : MBind outcome := λ A B k m,
  match m with
  | Returned a => k a
  | Raised e => Raised e
  end.

(** The same loop when the body can throw. *)
Definition forZM {S : Type} (lo hi : Z) (body : Z → S → outcome S) (s : S)
  : outcome S :=
  foldl (λ m i, m ≫= body i) (Returned s) (seqZ lo (hi - lo)).

End JS.

Import JS.

(** ** Data model ([src/types/index.ts]) *)

Module Selection.
Record t := mk { x : Z; y : Z; width : Z; height : Z }.
End Selection.

Module TextureSample.
(** [r], [g], [b] are what [data[idx]] read: a byte, or [undefined]. *)
Record t := mk { r : option Z; g : option Z; b : option Z }.
End TextureSample.

Module ImageData.
Record t := mk { data : list Z; width : Z; height : Z }.
End ImageData.

Module ProcessingOptions.
Record t := mk {
  autoDetect : bool;
  passes : Z;
  margin : Z;
  grainStrength : float;
  textureInjectionProbability : float
}.

(** [Partial<ProcessingOptions>] *)
Record partial := mkPartial {
  autoDetect' : option bool;
  passes' : option Z;
  margin' : option Z;
  grainStrength' : option float;
  textureInjectionProbability' : option float
}.

(** [{ ...base, ...over }] *)
Definition spread (base : t) (over : partial) : t :=
  {| autoDetect := default (autoDetect base) (autoDetect' over);
     passes := default (passes base) (passes' over);
     margin := default (margin base) (margin' over);
     grainStrength := default (grainStrength base) (grainStrength' over);
     textureInjectionProbability :=
       default (textureInjectionProbability base)
               (textureInjectionProbability' over) |}.

Definition empty : partial := mkPartial None None None None None.
End ProcessingOptions.

Definition DEFAULT_OPTIONS : ProcessingOptions.t :=
  {| ProcessingOptions.autoDetect := true;
     ProcessingOptions.passes := 8;
     ProcessingOptions.margin := 50;
     ProcessingOptions.grainStrength := 2%float;
     ProcessingOptions.textureInjectionProbability := 0x1.999999999999ap-3%float |}.

(** [(y * width + x) * 4], the offset of pixel (x, y) in the byte array. *)
Definition pixelIndex (width x y : Z) : Z := (y * width + x) * 4.

(** The [TextureSample] pushed for pixel (x, y). *)
Definition sampleAt (imageData : ImageData.t) (x y : Z) : TextureSample.t :=
  let idx := pixelIndex (ImageData.width imageData) x y in
  {| TextureSample.r := load (ImageData.data imageData) idx;
     TextureSample.g := load (ImageData.data imageData) (idx + 1);
     TextureSample.b := load (ImageData.data imageData) (idx + 2) |}.

(** [isInsideSelection] *)
Definition isInsideSelection (x y : Z) (selection : Selection.t) : bool :=
  (Selection.x selection <=? x)
  && (x <? Selection.x selection + Selection.width selection)
  && (Selection.y selection <=? y)
  && (y <? Selection.y selection + Selection.height selection).

(** [buildTextureBank] *)
Definition buildTextureBank (imageData : ImageData.t) (selection : Selection.t)
    (margin : Z) : list TextureSample.t :=
  let minX := Z.max 0 (Selection.x selection - margin) in
  let maxX := Z.min (ImageData.width imageData)
                (Selection.x selection + Selection.width selection + margin) in
  let minY := Z.max 0 (Selection.y selection - margin) in
  let maxY := Z.min (ImageData.height imageData)
                (Selection.y selection + Selection.height selection + margin) in
  forZ minY maxY (λ y,
    forZ minX maxX (λ x bank,
      if (x <? Selection.x selection)
         || (Selection.x selection + Selection.width selection <=? x)
         || (y <? Selection.y selection)
         || (Selection.y selection + Selection.height selection <=? y)
      then bank ++ [sampleAt imageData x y]
      else bank)) [].

(** [autoDetectWatermark] *)
Definition autoDetectWatermark (width height : Z) : Selection.t :=
  {| Selection.x := Z.max 0 (width - 200);
     Selection.y := Z.max 0 (height - 80);
     Selection.width := Z.min 180 width;
     Selection.height := Z.min 60 height |}.

(** ** The pipeline of [inpaintWatermark] *)

(** The guard [x < 0 || x >= width || y < 0 || y >= height] (its negation is
    the guard of the pre-fill loop). *)
Definition outOfImage (width height x y : Z) : bool :=
  (x <? 0) || (width <=? x) || (y <? 0) || (height <=? y).

(** Clamping of the caller's rectangle, lines 93-98. *)
Definition clampSelection (selection : Selection.t) (width height : Z)
  : Selection.t :=
  {| Selection.x := Z.max 0 (Z.min (Selection.x selection) (width - 1));
     Selection.y := Z.max 0 (Z.min (Selection.y selection) (height - 1));
     Selection.width :=
       Z.min (Selection.width selection) (width - Selection.x selection);
     Selection.height :=
       Z.min (Selection.height selection) (height - Selection.y selection) |}.

(** The degenerate test of line 102. *)
Definition degenerate (sel : Selection.t) : bool :=
  (Selection.width sel <=? 0) || (Selection.height sel <=? 0).

(** Mean colour of the texture bank, lines 117-125. *)
Definition averageColor (textureBank : list TextureSample.t)
  : float * float * float :=
  let '(avgR, avgG, avgB) :=
    foldl (λ '(avgR, avgG, avgB) sample,
             ((avgR + toNumber (TextureSample.r sample))%float,
              (avgG + toNumber (TextureSample.g sample))%float,
              (avgB + toNumber (TextureSample.b sample))%float))
          (0%float, 0%float, 0%float) textureBank in
  let n := of_Z (Z.of_nat (length textureBank)) in
  (Math_round (avgR / n), Math_round (avgG / n), Math_round (avgB / n)).

(** Step 1: the selection is filled with the mean colour, lines 130-140. *)
Definition prefill (sel : Selection.t) (width height : Z)
    (avg : float * float * float) (resultData : list Z) : list Z :=
  let '(avgR, avgG, avgB) := avg in
  forZ (Selection.y sel) (Selection.y sel + Selection.height sel) (λ y,
    forZ (Selection.x sel) (Selection.x sel + Selection.width sel)
      (λ x resultData,
        if (0 <=? x) && (x <? width) && (0 <=? y) && (y <? height) then
          let idx := pixelIndex width x y in
          let resultData := store resultData idx avgR in
          let resultData := store resultData (idx + 1) avgG in
          store resultData (idx + 2) avgB
        else resultData)) resultData.

(** The distance map and its maximum, lines 147-160.  The [Float32Array]
    holds small integers, which it represents exactly. *)
Definition buildDistMap (sel : Selection.t) : list Z * Z :=
  forZ 0 (Selection.height sel) (λ ly,
    forZ 0 (Selection.width sel) (λ lx '(distMap, maxDist),
      let distToLeft := lx in
      let distToRight := Selection.width sel - 1 - lx in
      let distToTop := ly in
      let distToBottom := Selection.height sel - 1 - ly in
      let dist :=
        Z.min (Z.min (Z.min distToLeft distToRight) distToTop) distToBottom in
      (<[Z.to_nat (ly * Selection.width sel + lx) := dist]> distMap,
       Z.max maxDist dist)))
    (replicate (Z.to_nat (Selection.width sel * Selection.height sel)) 0, 0).

(** Which buffer a neighbour is read from. *)
Inductive Source := FromOriginal | FromResult.

(** The tests a neighbour (x + dx, y + dy) passes before it contributes,
    lines 181-196: [None] is [continue]. *)
Definition neighborSource (sel : Selection.t) (distMap : list Z)
    (width height sampleRadius layer x y dx dy : Z) : option Source :=
  let sx := x + dx in
  let sy := y + dy in
  if outOfImage width height sx sy then None
  else
    let d := Math_sqrt (of_Z (dx * dx + dy * dy)) in
    if ((of_Z sampleRadius <? d)%float || (d =? 0)%float)%bool then None
    else
      let isOutside := negb (isInsideSelection sx sy sel) in
      let sampleLx := sx - Selection.x sel in
      let sampleLy := sy - Selection.y sel in
      let sampleDist :=
        if isOutside then Some (-1)
        else load distMap (sampleLy * Selection.width sel + sampleLx) in
      if negb isOutside
         && (match sampleDist with Some sd => layer <=? sd | None => false end)
      then None
      else Some (if isOutside then FromOriginal else FromResult).

(** The running sums [sumR, sumG, sumB, totalWeight]. *)
Definition Sums : Type := float * float * float * float.

Definition addWeighted (acc : Sums) (r g b : option Z) (weight : float) : Sums :=
  let '(sumR, sumG, sumB, totalWeight) := acc in
  ((sumR + toNumber r * weight)%float,
   (sumG + toNumber g * weight)%float,
   (sumB + toNumber b * weight)%float,
   (totalWeight + weight)%float).

(** The neighbour loops of the fill, lines 179-208. *)
Definition gatherNeighbors (sel : Selection.t) (distMap : list Z)
    (width height sampleRadius layer x y : Z)
    (originalData resultData : list Z) : Sums :=
  forZ (- sampleRadius) (sampleRadius + 1) (λ dy,
    forZ (- sampleRadius) (sampleRadius + 1) (λ dx acc,
      match neighborSource sel distMap width height sampleRadius layer x y dx dy
      with
      | None => acc
      | Some src =>
          let d := Math_sqrt (of_Z (dx * dx + dy * dy)) in
          let weight := (1 / (1 + d * 0x1.3333333333333p-2))%float in
          let idx := pixelIndex width (x + dx) (y + dy) in
          let sourceData :=
            match src with
            | FromOriginal => originalData
            | FromResult => resultData
            end in
          addWeighted acc (load sourceData idx) (load sourceData (idx + 1))
                      (load sourceData (idx + 2)) weight
      end)) (0%float, 0%float, 0%float, 0%float).

(** The state the stages thread: the result buffer, the number of
    [Math.random()] draws made so far, the percentages reported so far. *)
Record State := mkState {
  resultData : list Z;
  draws : nat;
  reported : list float
}.

Definition setResult (s : State) (buf : list Z) : State :=
  {| resultData := buf; draws := draws s; reported := reported s |}.

(** [if (onProgress) onProgress(p)] *)
Definition report (hasSink : bool) (p : float) (s : State) : State :=
  if hasSink
  then {| resultData := resultData s; draws := draws s;
          reported := reported s ++ [p] |}
  else s.

(** [textureBank[i]] for a number [i]. *)
Definition bankAt (textureBank : list TextureSample.t) (i : option Z)
  : option TextureSample.t :=
  match i with
  | Some i => if i <? 0 then None else textureBank !! Z.to_nat i
  | None => None
  end.

Section Engine.

(** The values successive calls of [Math.random()] return. *)
Variable random : nat → float.

(** The two random texture samples, lines 211-219; [sample.r] throws when
    [sample] is [undefined]. *)
Definition injectTexture (textureBank : list TextureSample.t)
    (acc : Sums) (drawn : nat) : outcome (Sums * nat) :=
  let numRandomSamples := 2 in
  forZM 0 numRandomSamples (λ _ '(acc, drawn),
    let i := Math_floor (random drawn * of_Z (Z.of_nat (length textureBank))) in
    match bankAt textureBank i with
    | None => Raised TypeError
    | Some sample =>
        let weight := 0x1.999999999999ap-4%float in
        Returned (addWeighted acc (TextureSample.r sample)
                    (TextureSample.g sample) (TextureSample.b sample) weight,
                  S drawn)
    end) (acc, drawn).

(** One pixel of the current layer, lines 169-226. *)
Definition fillPixel (sel : Selection.t) (distMap : list Z)
    (width height margin layer x y : Z) (originalData : list Z)
    (textureBank : list TextureSample.t) (s : State) : outcome State :=
  let sampleRadius := Z.min 10 margin in
  let acc := gatherNeighbors sel distMap width height sampleRadius layer x y
               originalData (resultData s) in
  '(acc, drawn) ← injectTexture textureBank acc (draws s);
  let '(sumR, sumG, sumB, totalWeight) := acc in
  let s := {| resultData := resultData s; draws := drawn;
              reported := reported s |} in
  if (0 <? totalWeight)%float then
    let idx := pixelIndex width x y in
    let buf := store (resultData s) idx (Math_round (sumR / totalWeight)) in
    let buf := store buf (idx + 1) (Math_round (sumG / totalWeight)) in
    let buf := store buf (idx + 2) (Math_round (sumB / totalWeight)) in
    Returned (setResult s buf)
  else Returned s.

(** One layer, lines 164-237. *)
Definition fillLayer (sel : Selection.t) (distMap : list Z) (maxDist : Z)
    (width height margin : Z) (originalData : list Z)
    (textureBank : list TextureSample.t) (hasSink : bool)
    (layer : Z) (s : State) : outcome State :=
  s ← forZM 0 (Selection.height sel) (λ ly,
         forZM 0 (Selection.width sel) (λ lx s,
           match load distMap (ly * Selection.width sel + lx) with
           | None => Returned s
           | Some dist =>
               if negb (dist =? layer) then Returned s
               else
                 let x := Selection.x sel + lx in
                 let y := Selection.y sel + ly in
                 if outOfImage width height x y then Returned s
                 else fillPixel sel distMap width height margin layer x y
                        originalData textureBank s
           end)) s;
  Returned
    (if hasSink && (0 <? maxDist)
     then report true (20 + of_Z layer / of_Z maxDist * 50)%float s
     else s).

(** Step 2, lines 163-238. *)
Definition fillStage (sel : Selection.t) (distMap : list Z) (maxDist : Z)
    (width height margin : Z) (originalData : list Z)
    (textureBank : list TextureSample.t) (hasSink : bool) (s : State)
  : outcome State :=
  forZM 0 (maxDist + 1)
    (fillLayer sel distMap maxDist width height margin originalData
       textureBank hasSink) s.

(** The 5x5 box sums of one pixel, lines 250-266. *)
Definition boxSums (width height x y : Z) (tempData : list Z)
  : float * float * float * Z :=
  let radius := 2 in
  forZ (- radius) (radius + 1) (λ dy,
    forZ (- radius) (radius + 1) (λ dx '(sumR, sumG, sumB, count),
      let sx := x + dx in
      let sy := y + dy in
      if outOfImage width height sx sy then (sumR, sumG, sumB, count)
      else
        let idx := pixelIndex width sx sy in
        ((sumR + toNumber (load tempData idx))%float,
         (sumG + toNumber (load tempData (idx + 1)))%float,
         (sumB + toNumber (load tempData (idx + 2)))%float,
         count + 1))) (0%float, 0%float, 0%float, 0).

(** One smoothing pass over the selection, lines 244-275. *)
Definition smoothPass (sel : Selection.t) (width height : Z)
    (resultData : list Z) : list Z :=
  let tempData := resultData in
  forZ (Selection.y sel) (Selection.y sel + Selection.height sel) (λ y,
    forZ (Selection.x sel) (Selection.x sel + Selection.width sel)
      (λ x resultData,
        if outOfImage width height x y then resultData
        else
          let '(sumR, sumG, sumB, count) := boxSums width height x y tempData in
          if 0 <? count then
            let idx := pixelIndex width x y in
            let resultData :=
              store resultData idx (Math_round (sumR / of_Z count)) in
            let resultData :=
              store resultData (idx + 1) (Math_round (sumG / of_Z count)) in
            store resultData (idx + 2) (Math_round (sumB / of_Z count))
          else resultData)) resultData.

(** Step 3, lines 243-281. *)
Definition smoothStage (sel : Selection.t) (width height passes : Z)
    (hasSink : bool) (s : State) : State :=
  forZ 0 passes (λ pass s,
    let s := setResult s (smoothPass sel width height (resultData s)) in
    report hasSink (75 + of_Z (pass + 1) / of_Z passes * 15)%float s) s.

(** The search for the nearest pixel outside the selection, lines 300-321:
    the distance found so far and the colour of the candidate. *)
Definition nearestOutside (sel : Selection.t) (width height x y : Z)
    (originalData : list Z)
  : float * option Z * option Z * option Z :=
  let featherWidth := 4 in
  let idx := pixelIndex width x y in
  forZ (- featherWidth) (featherWidth + 1) (λ dy,
    forZ (- featherWidth) (featherWidth + 1)
      (λ dx '(minDist, nearestR, nearestG, nearestB),
        let sx := x + dx in
        let sy := y + dy in
        if outOfImage width height sx sy
        then (minDist, nearestR, nearestG, nearestB)
        else if isInsideSelection sx sy sel
        then (minDist, nearestR, nearestG, nearestB)
        else
          let d := Math_sqrt (of_Z (dx * dx + dy * dy)) in
          if (d <? minDist)%float then
            let sIdx := pixelIndex width sx sy in
            (d, load originalData sIdx, load originalData (sIdx + 1),
             load originalData (sIdx + 2))
          else (minDist, nearestR, nearestG, nearestB)))
    (infinity, load originalData idx, load originalData (idx + 1),
     load originalData (idx + 2)).

(** The blend of line 323. *)
Definition blendChannel (current nearest : option Z) (blend : float) : float :=
  Math_round (toNumber current * blend + toNumber nearest * (1 - blend))%float.

(** One pixel of the feathering, lines 291-326. *)
Definition featherPixel (sel : Selection.t) (distMap : list Z)
    (width height x y : Z) (originalData resultData : list Z) : list Z :=
  let featherWidth := 4 in
  let lx := x - Selection.x sel in
  let ly := y - Selection.y sel in
  match load distMap (ly * Selection.width sel + lx) with
  | None => resultData
  | Some distToEdge =>
      if distToEdge <? featherWidth then
        let blend := (of_Z distToEdge / of_Z featherWidth)%float in
        let idx := pixelIndex width x y in
        let '(_, nearestR, nearestG, nearestB) :=
          nearestOutside sel width height x y originalData in
        let resultData :=
          store resultData idx
            (blendChannel (load resultData idx) nearestR blend) in
        let resultData :=
          store resultData (idx + 1)
            (blendChannel (load resultData (idx + 1)) nearestG blend) in
        store resultData (idx + 2)
          (blendChannel (load resultData (idx + 2)) nearestB blend)
      else resultData
  end.

(** Step 4, lines 286-328. *)
Definition featherStage (sel : Selection.t) (distMap : list Z)
    (width height : Z) (originalData resultData : list Z) : list Z :=
  forZ (Selection.y sel) (Selection.y sel + Selection.height sel) (λ y,
    forZ (Selection.x sel) (Selection.x sel + Selection.width sel)
      (λ x resultData,
        if outOfImage width height x y then resultData
        else featherPixel sel distMap width height x y originalData resultData))
    resultData.

(** [Math.max(0, Math.min(255, v + noise))], lines 338-340. *)
Definition grainChannel (current : option Z) (noise : float) : float :=
  Math_max 0 (Math_min 255 (toNumber current + noise)).

(** The noise of line 336 for a draw [u] of [Math.random()]. *)
Definition grainNoise (grainStrength u : float) : float :=
  ((u - 0.5) * grainStrength * 2)%float.

(** One pixel of the grain, lines 335-340. *)
Definition grainPixel (width : Z) (grainStrength : float) (x y : Z)
    (s : State) : State :=
  let idx := pixelIndex width x y in
  let noise := grainNoise grainStrength (random (draws s)) in
  let buf := resultData s in
  let buf := store buf idx (grainChannel (load buf idx) noise) in
  let buf := store buf (idx + 1) (grainChannel (load buf (idx + 1)) noise) in
  let buf := store buf (idx + 2) (grainChannel (load buf (idx + 2)) noise) in
  {| resultData := buf; draws := S (draws s); reported := reported s |}.

(** Step 5, lines 331-342. *)
Definition grainStage (sel : Selection.t) (width height : Z)
    (grainStrength : float) (s : State) : State :=
  forZ (Selection.y sel) (Selection.y sel + Selection.height sel) (λ y,
    forZ (Selection.x sel) (Selection.x sel + Selection.width sel) (λ x s,
      if outOfImage width height x y then s
      else grainPixel width grainStrength x y s)) s.

(** Steps 1 to 4 on a selection that passed both guards: the state the grain
    stage starts from. *)
Definition stagesBeforeGrain (imageData : ImageData.t) (sel : Selection.t)
    (opts : ProcessingOptions.t) (textureBank : list TextureSample.t)
    (hasSink : bool) : outcome State :=
  let width := ImageData.width imageData in
  let height := ImageData.height imageData in
  let originalData := ImageData.data imageData in
  let margin := ProcessingOptions.margin opts in
  let passes := ProcessingOptions.passes opts in
  let s := {| resultData := prefill sel width height
                              (averageColor textureBank) originalData;
              draws := 0%nat; reported := [] |} in
  let s := report hasSink 20 s in
  let '(distMap, maxDist) := buildDistMap sel in
  s ← fillStage sel distMap maxDist width height margin originalData
        textureBank hasSink s;
  let s := report hasSink 75 s in
  let s := smoothStage sel width height passes hasSink s in
  let s := report hasSink 92 s in
  Returned
    (setResult s
       (featherStage sel distMap width height originalData (resultData s))).

(** [inpaintWatermark]: the image returned and the percentages reported. *)
Definition inpaintWatermark (imageData : ImageData.t) (selection : Selection.t)
    (options : ProcessingOptions.partial) (hasSink : bool)
  : outcome (ImageData.t * list float) :=
  let opts := ProcessingOptions.spread DEFAULT_OPTIONS options in
  let width := ImageData.width imageData in
  let height := ImageData.height imageData in
  let sel := clampSelection selection width height in
  if degenerate sel then Returned (imageData, [])
  else
    let textureBank :=
      buildTextureBank imageData sel (ProcessingOptions.margin opts) in
    if (length textureBank =? 0)%nat then Returned (imageData, [])
    else
      s ← stagesBeforeGrain imageData sel opts textureBank hasSink;
      let s := grainStage sel width height
                 (ProcessingOptions.grainStrength opts) s in
      let s := report hasSink 100 s in
      Returned (ImageData.mk (resultData s) width height, reported s).

End Engine.

(** ** Callers of the engine *)

From Stdlib Require Import Ascii.
From stdpp Require Import strings.
Local Open Scope Z_scope.

(** What an asynchronous call settles to: a value, or what it threw (an
    [Error] with its message, or the engine's [TypeError]). *)
Inductive Thrown := ErrorWith (message : string) | TypeErrorThrown.

Inductive Settled (A : Type) :=
| Fulfilled (a : A)
| Rejected (t : Thrown).
Arguments Fulfilled {A} a.
Arguments Rejected {A} t.

Module File.
Record t := mk { name : string; type : string }.
End File.

(** What [loadImageData] resolves to. *)
Module Loaded.
Record t := mk { imageData : ImageData.t; width : Z; height : Z }.
End Loaded.

Section ProcessImage.

Variable random : nat → float.

(** [loadImageData] and [imageDataToUrl] go through the DOM (an [Image]
    element, a canvas and its context): what they settle to is given. *)
Variable loadImageData : File.t → Settled Loaded.t.
Variable imageDataToUrl : ImageData.t → Settled string.

(** [selection || (options.autoDetect !== false
      ? autoDetectWatermark(width, height) : null)] *)
Definition finalSelection (selection : option Selection.t)
    (options : ProcessingOptions.partial) (width height : Z)
  : option Selection.t :=
  match selection with
  | Some sel => Some sel
  | None =>
      match ProcessingOptions.autoDetect' options with
      | Some false => None
      | _ => Some (autoDetectWatermark width height)
      end
  end.

(** [processImage]: the data URL it resolves to and the percentages
    reported on the way. *)
Definition processImage (file : File.t) (selection : option Selection.t)
    (options : ProcessingOptions.partial) (hasSink : bool)
  : Settled (string * list float) :=
  match loadImageData file with
  | Rejected t => Rejected t
  | Fulfilled loaded =>
      match finalSelection selection options (Loaded.width loaded)
              (Loaded.height loaded) with
      | None =>
          Rejected
            (ErrorWith "No selection provided and auto-detect is disabled")
      | Some sel =>
          match inpaintWatermark random (Loaded.imageData loaded) sel options
                  hasSink with
          | Raised TypeError => Rejected TypeErrorThrown
          | Returned (processed, trace) =>
              match imageDataToUrl processed with
              | Rejected t => Rejected t
              | Fulfilled url => Fulfilled (url, trace)
              end
          end
      end
  end.

End ProcessImage.

(** The image card, [src/components/ImageCard.tsx]. *)
Module ImageCard.

(** [handleMouseMove]: the selection passed to [onSelectionChange], for the
    coordinates [getCanvasCoords] returned; [None] when the handler returns
    at its guard. *)
Definition handleMouseMove (isSelecting : bool)
    (selectionStart : option (Z * Z)) (coords : Z * Z)
    (originalWidth originalHeight : Z) : option Selection.t :=
  if negb isSelecting then None
  else
    match selectionStart with
    | None => None
    | Some start =>
        let x := Z.max 0 (Z.min coords.1 originalWidth) in
        let y := Z.max 0 (Z.min coords.2 originalHeight) in
        let startX := Z.max 0 (Z.min start.1 originalWidth) in
        let startY := Z.max 0 (Z.min start.2 originalHeight) in
        Some {| Selection.x := Z.min startX x;
                Selection.y := Z.min startY y;
                Selection.width := Z.abs (x - startX);
                Selection.height := Z.abs (y - startY) |}
    end.

(** [/\.[^/.]+$/] from the dot on: the characters after it, up to the end of
    the name, are neither '/' nor '.'. *)
Fixpoint extensionChars (s : string) : bool :=
  match s with
  | EmptyString => true
  | String c rest =>
      negb (Ascii.eqb c "/"%char) && negb (Ascii.eqb c "."%char)
      && extensionChars rest
  end.

(** The pattern matches at the start of [s]: a dot, then one character or
    more, all of them extension characters. *)
Definition matchesExtension (s : string) : bool :=
  match s with
  | String c (String _ _ as rest) =>
      Ascii.eqb c "."%char && extensionChars rest
  | _ => false
  end.

(** [name.replace(/\.[^/.]+$/, '')]: the leftmost match, which reaches the
    end of the name, is removed. *)
Fixpoint replaceExtension (name : string) : string :=
  match name with
  | EmptyString => EmptyString
  | String c rest =>
      if matchesExtension name then EmptyString
      else String c (replaceExtension rest)
  end.

(** The file name [handleDownload] passes to [downloadImage], line 159;
    [handleDownloadAll] of the page builds it in the same way. *)
Definition downloadFilename (name : string) : string :=
  replaceExtension name +:+ "-cleaned.png".

End ImageCard.

(** The queue of the page, [ProcessedImage] of [src/types/index.ts]. *)
Module ImageStatus.
Inductive t := pending | processing | completed | error.
End ImageStatus.

Module ProcessedImage.
Record t := mk {
  id : string;
  file : File.t;
  originalUrl : string;
  processedUrl : option string;
  status : ImageStatus.t;
  progress : float;
  error : option string;
  selection : option Selection.t;
  originalWidth : Z;
  originalHeight : Z
}.

(** [{ ...img, selection }] *)
Definition withSelection (img : t) (sel : option Selection.t) : t :=
  {| id := id img; file := file img; originalUrl := originalUrl img;
     processedUrl := processedUrl img; status := status img;
     progress := progress img; error := error img; selection := sel;
     originalWidth := originalWidth img;
     originalHeight := originalHeight img |}.

(** [img.status === 'pending'] *)
Definition isPending (img : t) : bool :=
  match status img with ImageStatus.pending => true | _ => false end.

(** [img.selection] as a condition. *)
Definition hasSelection (img : t) : bool :=
  match selection img with Some _ => true | None => false end.
End ProcessedImage.

(** The page: the updaters it passes to [setImages] and the lists it
    filters. *)
Module Page.

(** [handleAutoDetectAll] *)
Definition handleAutoDetectAll (prev : list ProcessedImage.t)
  : list ProcessedImage.t :=
  (λ img,
     if ProcessedImage.isPending img && negb (ProcessedImage.hasSelection img)
     then ProcessedImage.withSelection img
            (Some (autoDetectWatermark (ProcessedImage.originalWidth img)
                     (ProcessedImage.originalHeight img)))
     else img) <$> prev.

(** [handleSelectionChange] *)
Definition handleSelectionChange (id : string) (selection : option Selection.t)
    (prev : list ProcessedImage.t) : list ProcessedImage.t :=
  (λ img,
     if String.eqb (ProcessedImage.id img) id
     then ProcessedImage.withSelection img selection
     else img) <$> prev.

(** The images [handleProcessAll] processes. *)
Definition pendingImages (images : list ProcessedImage.t)
  : list ProcessedImage.t :=
  List.filter
    (λ img, ProcessedImage.isPending img && ProcessedImage.hasSelection img)
    images.

End Page.

(** The counters of [BulkActions]. *)
Module BulkActions.
Definition pendingWithSelection (images : list ProcessedImage.t) : nat :=
  length (List.filter
            (λ img, ProcessedImage.isPending img
                    && ProcessedImage.hasSelection img) images).

Definition pendingWithoutSelection (images : list ProcessedImage.t) : nat :=
  length (List.filter
            (λ img, ProcessedImage.isPending img
                    && negb (ProcessedImage.hasSelection img)) images).
End BulkActions.

(** The counters of [ProcessingQueue]. *)
Module ProcessingQueue.
Definition countStatus (st : ImageStatus.t) (images : list ProcessedImage.t)
  : nat :=
  length (List.filter
            (λ img, match ProcessedImage.status img, st with
                    | ImageStatus.pending, ImageStatus.pending
                    | ImageStatus.processing, ImageStatus.processing
                    | ImageStatus.completed, ImageStatus.completed
                    | ImageStatus.error, ImageStatus.error => true
                    | _, _ => false
                    end) images).

Definition pendingCount := countStatus ImageStatus.pending.
Definition processingCount := countStatus ImageStatus.processing.
Definition completedCount := countStatus ImageStatus.completed.
Definition errorCount := countStatus ImageStatus.error.
End ProcessingQueue.

(** The API route, [src/app/api/remove-watermark/route.ts]. *)
Module Route.

Inductive Body := ErrorBody (error : string) | UrlBody (url : string).

(** [NextResponse.json(body, { status })]; the status defaults to 200. *)
Record Response := mkResponse { status : Z; body : Body }.

(** [!process.env.NAME]: the variable is unset or empty. *)
Definition unset (variable : option string) : bool :=
  match variable with
  | Some value => String.eqb value ""
  | None => true
  end.

(** [processWithReplicate]: the check of the token, lines 61-65, then the
    requests to the service, lines 67-111, given by what they settle to;
    [None] when the polling loop of lines 99-105 never ends. *)
Definition processWithReplicate (REPLICATE_API_TOKEN : option string)
    (requests : File.t → File.t → option (Settled string))
    (image mask : File.t) : option (Settled string) :=
  if unset REPLICATE_API_TOKEN
  then Some (Rejected (ErrorWith "REPLICATE_API_TOKEN not configured"))
  else requests image mask.

(** [processWithClipDrop]: the check of the key, lines 119-123, then the
    request to the service, lines 125-144, given by what it settles to. *)
Definition processWithClipDrop (CLIPDROP_API_KEY : option string)
    (request : File.t → File.t → Settled string)
    (image mask : File.t) : option (Settled string) :=
  if unset CLIPDROP_API_KEY
  then Some (Rejected (ErrorWith "CLIPDROP_API_KEY not configured"))
  else Some (request image mask).

(** The three variables of [process.env] the route reads. *)
Record Env := mkEnv {
  INPAINTING_PROVIDER : option string;
  REPLICATE_API_TOKEN : option string;
  CLIPDROP_API_KEY : option string
}.

(** [POST]: [formData] is what [request.formData()] settles to, with the
    fields "image" and "mask" ([None] when the field is missing or empty);
    the result is the response sent, [None] when none ever is. *)
Definition POST (env : Env)
    (formData : Settled (option File.t * option File.t))
    (replicateRequests : File.t → File.t → option (Settled string))
    (clipDropRequest : File.t → File.t → Settled string)
  : option Response :=
  let caught := {| status := 500; body := ErrorBody "Processing failed" |} in
  let respond (result : option (Settled string)) :=
    match result with
    | Some (Fulfilled resultUrl) =>
        Some {| status := 200; body := UrlBody resultUrl |}
    | Some (Rejected _) => Some caught
    | None => None
    end in
  match formData with
  | Rejected _ => Some caught
  | Fulfilled (imageFile, maskFile) =>
      match imageFile, maskFile with
      | Some image, Some mask =>
          let provider :=
            if unset (INPAINTING_PROVIDER env) then "local"
            else default "local" (INPAINTING_PROVIDER env) in
          if String.eqb provider "replicate" then
            respond (processWithReplicate (REPLICATE_API_TOKEN env)
                       replicateRequests image mask)
          else if String.eqb provider "clipdrop" then
            respond (processWithClipDrop (CLIPDROP_API_KEY env)
                       clipDropRequest image mask)
          else
            Some {| status := 501;
                    body := ErrorBody
                      "No AI provider configured. Using client-side processing." |}
      | _, _ =>
          Some {| status := 400;
                  body := ErrorBody "Image and mask are required" |}
      end
  end.

End Route.

(** ** Vocabulary of the specification *)

(** The pixels of the box [x0, x1) x [y0, y1) in row-major order: what two
    nested loops, rows outside and columns inside, visit. *)
Definition rowMajor (y0 y1 x0 x1 : Z) : list (Z * Z) :=
  y ← seqZ y0 (y1 - y0); x ← seqZ x0 (x1 - x0); [(x, y)].

(** (x, y) comes before (x', y') in row-major order. *)
Definition rowMajorLt (p q : Z * Z) : Prop :=
  p.2 < q.2 ∨ (p.2 = q.2 ∧ p.1 < q.1).

(** The selection's bounding box expanded by [margin] on all sides and
    clipped to the image, scanned in row-major order. *)
Definition scanBox (imageData : ImageData.t) (selection : Selection.t)
    (margin : Z) : list (Z * Z) :=
  rowMajor
    (Z.max 0 (Selection.y selection - margin))
    (Z.min (ImageData.height imageData)
       (Selection.y selection + Selection.height selection + margin))
    (Z.max 0 (Selection.x selection - margin))
    (Z.min (ImageData.width imageData)
       (Selection.x selection + Selection.width selection + margin)).

(** The scanned pixels that lie outside the selection. *)
Definition ringPixels (imageData : ImageData.t) (selection : Selection.t)
    (margin : Z) : list (Z * Z) :=
  filter (λ p, isInsideSelection p.1 p.2 selection = false)
         (scanBox imageData selection margin).

(** Byte offset [i] is an R, G or B channel of a pixel that lies in the image
    and inside [sel]. *)
Definition channelOfSelection (width height : Z) (sel : Selection.t) (i : nat)
  : Prop :=
  ∃ x y c,
    outOfImage width height x y = false
    ∧ isInsideSelection x y sel = true
    ∧ 0 ≤ c < 3
    ∧ i = Z.to_nat (pixelIndex width x y + c).

(** Two buffers agree on every byte that is not such a channel. *)
Definition sameOutside (width height : Z) (sel : Selection.t)
    (before after : list Z) : Prop :=
  ∀ i : nat, ¬ channelOfSelection width height sel i → after !! i = before !! i.


(** The invariant the specification states for the selection the pipeline
    works on. *)
Definition withinImage (sel : Selection.t) (imageWidth imageHeight : Z)
  : Prop :=
  0 ≤ Selection.x sel ∧ 0 ≤ Selection.y sel
  ∧ Selection.x sel + Selection.width sel ≤ imageWidth
  ∧ Selection.y sel + Selection.height sel ≤ imageHeight
  ∧ 0 < Selection.width sel ∧ 0 < Selection.height sel.

(** A 4x4 image and a rectangle that starts two columns left of it. *)
Definition edgeImage : ImageData.t :=
  {| ImageData.data := replicate 64 128;
     ImageData.width := 4;
     ImageData.height := 4 |}.

Definition edgeSelection : Selection.t :=
  {| Selection.x := -2; Selection.y := 0;
     Selection.width := 5; Selection.height := 2 |}.

(** A 3x3 image, the one-pixel selection at its centre and a source of
    draws, on which the statements below are exercised. *)
Definition demoImage : ImageData.t :=
  {| ImageData.data :=
       [ 10;  20;  30; 255;    40;  50;  60; 254;    70;  80;  90; 253;
        100; 110; 120; 252;   200;   0; 200; 251;   130; 140; 150; 250;
        160; 170; 180; 249;   190; 200; 210; 248;   220; 230; 240; 247];
     ImageData.width := 3;
     ImageData.height := 3 |}.

Definition demoSelection : Selection.t :=
  {| Selection.x := 1; Selection.y := 1;
     Selection.width := 1; Selection.height := 1 |}.

Definition demoRandom (k : nat) : float :=
  if Nat.even k then 0.25%float else 0.75%float.

Definition demoOutput : ImageData.t * list float :=
  Eval vm_compute in
    match inpaintWatermark demoRandom demoImage demoSelection
            ProcessingOptions.empty true with
    | Returned r => r
    | Raised _ => (demoImage, [])
    end.

(** The byte the grain stage stores for a channel holding [v] when the draw
    of [Math.random()] is [u]. *)
Definition grained (grainStrength u : float) (v : Z) : Z :=
  ToUint8Clamp (grainChannel (Some v) (grainNoise grainStrength u)).

(** The grain of one pixel as the specification words it, with an
    independent draw for each of the three channels. *)
Definition grainPixel_independent (random : nat → float) (width : Z)
    (grainStrength : float) (x y : Z) (s : State) : State :=
  let idx := pixelIndex width x y in
  let noiseR := grainNoise grainStrength (random (draws s)) in
  let noiseG := grainNoise grainStrength (random (S (draws s))) in
  let noiseB := grainNoise grainStrength (random (S (S (draws s)))) in
  let buf := resultData s in
  let buf := store buf idx (grainChannel (load buf idx) noiseR) in
  let buf := store buf (idx + 1) (grainChannel (load buf (idx + 1)) noiseG) in
  let buf := store buf (idx + 2) (grainChannel (load buf (idx + 2)) noiseB) in
  {| resultData := buf; draws := S (S (S (draws s))); reported := reported s |}.

(** A single grey pixel about to receive its grain. *)
Definition greyPixel : State :=
  {| resultData := [128; 128; 128; 255]; draws := 0%nat; reported := [] |}.

(** A 3x3 selection inside a 5x5 image: its centre is the only pixel of
    layer 1. *)
Definition gridImage : ImageData.t :=
  {| ImageData.data := replicate 100 128;
     ImageData.width := 5;
     ImageData.height := 5 |}.

Definition gridSelection : Selection.t :=
  {| Selection.x := 1; Selection.y := 1;
     Selection.width := 3; Selection.height := 3 |}.

(** A byte buffer of [n] bytes: what a [Uint8ClampedArray] of that length
    holds. *)
Definition validBuffer (n : nat) (buf : list Z) : Prop :=
  length buf = n ∧ Forall (λ v, 0 ≤ v ≤ 255) buf.

(** The offset [p] from pixel (x, y) leads to a pixel of the image that is
    outside the selection: a pixel the feathering search accepts. *)
Definition exteriorAt (sel : Selection.t) (width height x y : Z) (p : Z * Z)
  : Prop :=
  outOfImage width height (x + p.1) (y + p.2) = false
  ∧ isInsideSelection (x + p.1) (y + p.2) sel = false.

(** The three colour bytes of pixel (x, y) as read from a buffer. *)
Definition colourAt (buf : list Z) (width x y : Z)
  : option Z * option Z * option Z :=
  (load buf (pixelIndex width x y), load buf (pixelIndex width x y + 1),
   load buf (pixelIndex width x y + 2)).

(** dx * dx + dy * dy *)
Definition sqDist (p : Z * Z) : Z := p.1 * p.1 + p.2 * p.2.

(** A 181x1 strip: one pixel wider than the auto-detected rectangle. *)
Definition wideImage : ImageData.t :=
  {| ImageData.data := replicate 724 100;
     ImageData.width := 181;
     ImageData.height := 1 |}.



(** What the neighbour at offset [p] of pixel (x, y) adds to the running sums
    of the fill at layer [layer], as the specification words it: nothing
    when it is not in the image, beyond the sample radius, the pixel itself,
    or inside the selection at a distance to the nearest edge of [layer] or
    more; otherwise its colour, weighted by 1 / (1 + d * 0.3), read from
    the result buffer when it is inside the selection and from the original
    when it is outside. *)
Definition contribution (sel : Selection.t) (width height sampleRadius layer
    x y : Z) (originalData resultData : list Z) (acc : Sums) (p : Z * Z)
  : Sums :=
  let sx := x + p.1 in
  let sy := y + p.2 in
  let d := Math_sqrt (of_Z (p.1 * p.1 + p.2 * p.2)) in
  let inImage := (0 <=? sx) && (sx <? width) && (0 <=? sy) && (sy <? height) in
  let lx := sx - Selection.x sel in
  let ly := sy - Selection.y sel in
  let inside :=
    (0 <=? lx) && (lx <? Selection.width sel)
    && (0 <=? ly) && (ly <? Selection.height sel) in
  let edgeDistance :=
    Z.min (Z.min (Z.min lx (Selection.width sel - 1 - lx)) ly)
      (Selection.height sel - 1 - ly) in
  if negb inImage || (of_Z sampleRadius <? d)%float || (d =? 0)%float
     || (inside && (layer <=? edgeDistance))
  then acc
  else
    let weight := (1 / (1 + d * 0x1.3333333333333p-2))%float in
    let source := if inside then resultData else originalData in
    let idx := (sy * width + sx) * 4 in
    let '(sumR, sumG, sumB, totalWeight) := acc in
    ((sumR + toNumber (load source idx) * weight)%float,
     (sumG + toNumber (load source (idx + 1)) * weight)%float,
     (sumB + toNumber (load source (idx + 2)) * weight)%float,
     (totalWeight + weight)%float).

(** The distance of a pixel of the selection to the nearest edge. *)
Definition edgeDistance (sel : Selection.t) (x y : Z) : Z :=
  Z.min (Z.min (Z.min (x - Selection.x sel)
                  (Selection.width sel - 1 - (x - Selection.x sel)))
           (y - Selection.y sel))
    (Selection.height sel - 1 - (y - Selection.y sel)).

(** A 10x3 image whose selection covers the nine columns on the left: the
    9x9 window around pixel (4, 1), one pixel away from the upper and lower
    edges of the selection, holds no pixel outside the selection. *)
Definition bandImage : ImageData.t :=
  {| ImageData.data := replicate 120 200;
     ImageData.width := 10;
     ImageData.height := 3 |}.

Definition bandSelection : Selection.t :=
  {| Selection.x := 0; Selection.y := 0;
     Selection.width := 9; Selection.height := 3 |}.

(** A 5x5 image whose pixels all differ, for the 3x3 selection
    [gridSelection] at its centre (layers 0 and 1). *)
Definition rampImage : ImageData.t :=
  {| ImageData.data :=
       [0;   1;   2; 255;     6;   7;   8; 255;    24;  25;  26; 255;
         54;  55;  56; 255;    96;  97;  98; 255;
         34;  35;  36; 255;    40;  41;  42; 255;    58;  59;  60; 255;
         88;  89;  90; 255;   130; 131; 132; 255;
         68;  69;  70; 255;    74;  75;  76; 255;    92;  93;  94; 255;
        122; 123; 124; 255;   164; 165; 166; 255;
        102; 103; 104; 255;   108; 109; 110; 255;   126; 127; 128; 255;
        156; 157; 158; 255;   198; 199; 200; 255;
        136; 137; 138; 255;   142; 143; 144; 255;   160; 161; 162; 255;
        190; 191; 192; 255;   232; 233; 234; 255];
     ImageData.width := 5;
     ImageData.height := 5 |}.

(** The state of the fill of [rampImage] before layer 0, after layer 0 and
    after layer 1. *)
Definition rampStart : State :=
  Eval vm_compute in
    {| resultData :=
         prefill gridSelection 5 5
           (averageColor (buildTextureBank rampImage gridSelection 50))
           (ImageData.data rampImage);
       draws := 0;
       reported := [] |}.

Definition rampLayer (layer : Z) (s : State) : outcome State :=
  fillLayer demoRandom gridSelection (buildDistMap gridSelection).1 1 5 5 50
    (ImageData.data rampImage) (buildTextureBank rampImage gridSelection 50)
    false layer s.

Definition rampLayer0 : State :=
  Eval vm_compute in
    match rampLayer 0 rampStart with
    | Returned s => s
    | Raised _ => rampStart
    end.

Definition rampLayer1 : State :=
  Eval vm_compute in
    match rampLayer 1 rampLayer0 with
    | Returned s => s
    | Raised _ => rampLayer0
    end.

(** ** Properties *)

(** *** The number model on examples *)

Example Math_round_examples :
  Math_round <$> [0.5; 1.5; 2.25; 2.5; -1.5; -2.5; 7]%float
  = [1; 2; 2; 3; -1; -2; 7]%float.
Proof. vm_compute. reflexivity. Qed.

Example Math_floor_examples :
  Math_floor <$> [0; 0.75; 2.5; -0.25; 300; nan]%float
  = [Some 0; Some 0; Some 2; Some (-1); Some 300; None].
Proof. vm_compute. reflexivity. Qed.

Example ToUint8Clamp_examples :
  ToUint8Clamp <$> [0.5; 1.5; 2.5; 126.75; 254.5; 300; -3; nan]%float
  = [0; 2; 2; 127; 254; 255; 0; 0].
Proof. vm_compute. reflexivity. Qed.

Example distMap_example :
  buildDistMap {| Selection.x := 1; Selection.y := 1;
                  Selection.width := 5; Selection.height := 4 |}
  = ([0; 0; 0; 0; 0;
      0; 1; 1; 1; 0;
      0; 1; 1; 1; 0;
      0; 0; 0; 0; 0], 1).
Proof. vm_compute. reflexivity. Qed.

(** *** Loops *)

Lemma forZ_invariant {S : Type} (P : S → Prop) lo hi (body : Z → S → S) s :
  P s →
  (∀ i s, lo ≤ i < hi → P s → P (body i s)) →
  P (forZ lo hi body s).
Proof.
  intros Hs Hbody. unfold forZ.
  assert (Hin : ∀ i, i ∈ seqZ lo (hi - lo) → lo ≤ i < hi).
  { intros i Hi. apply elem_of_seqZ in Hi. lia. }
  revert s Hs. induction (seqZ lo (hi - lo)) as [|i l IH]; intros s Hs; simpl.
  - exact Hs.
  - apply IH.
    + intros j Hj. apply Hin. by right.
    + apply Hbody; [apply Hin; by left | exact Hs].
Qed.

Lemma foldl_raised {S : Type} (body : Z → S → outcome S) e l :
  foldl (λ m i, m ≫= body i) (Raised e) l = Raised e.
Proof. induction l as [|i l IH]; simpl; [done | exact IH]. Qed.

Lemma forZM_invariant {S : Type} (P : S → Prop) lo hi
    (body : Z → S → outcome S) s s' :
  P s →
  (∀ i s s', lo ≤ i < hi → P s → body i s = Returned s' → P s') →
  forZM lo hi body s = Returned s' → P s'.
Proof.
  intros Hs Hbody. unfold forZM.
  assert (Hin : ∀ i, i ∈ seqZ lo (hi - lo) → lo ≤ i < hi).
  { intros i Hi. apply elem_of_seqZ in Hi. lia. }
  revert s Hs. induction (seqZ lo (hi - lo)) as [|i l IH]; intros s Hs; simpl.
  - intros [= <-]. exact Hs.
  - change (Returned s ≫= body i) with (body i s).
    destruct (body i s) as [s1|e] eqn:Hb.
    + apply IH.
      * intros j Hj. apply Hin. by right.
      * eapply Hbody; [apply Hin; by left | exact Hs | exact Hb].
    + rewrite foldl_raised. discriminate.
Qed.


Lemma forZ_rowMajor {S : Type} y0 y1 x0 x1 (body : Z → Z → S → S) s :
  forZ y0 y1 (λ y, forZ x0 x1 (λ x, body x y)) s
  = foldl (λ s p, body p.1 p.2 s) s (rowMajor y0 y1 x0 x1).
Proof.
  unfold forZ, rowMajor. revert s.
  induction (seqZ y0 (y1 - y0)) as [|y ys IH]; intros s; [done|].
  rewrite bind_cons, foldl_app. simpl. rewrite IH. f_equal.
  generalize (seqZ x0 (x1 - x0)). clear. intros xs. revert s.
  induction xs as [|x xs IH]; intros s; [done|].
  rewrite bind_cons, foldl_app. simpl. apply IH.
Qed.

Lemma elem_of_rowMajor y0 y1 x0 x1 x y :
  (x, y) ∈ rowMajor y0 y1 x0 x1 ↔ y0 ≤ y < y1 ∧ x0 ≤ x < x1.
Proof.
  unfold rowMajor. rewrite list_elem_of_bind. split.
  - intros (y' & Hx & Hy). apply list_elem_of_bind in Hx as (x' & Hp & Hx).
    apply list_elem_of_singleton in Hp as [= -> ->].
    apply elem_of_seqZ in Hx, Hy. lia.
  - intros [Hy Hx]. exists y. split; [|apply elem_of_seqZ; lia].
    apply list_elem_of_bind. exists x. split; [by apply list_elem_of_singleton|].
    apply elem_of_seqZ. lia.
Qed.

Lemma seqZ_sorted m n : StronglySorted Z.lt (seqZ m n).
Proof.
  remember (Z.to_nat n) as k eqn:Hk. revert m n Hk.
  induction k as [|k IH]; intros m n Hk.
  - rewrite seqZ_nil by lia. constructor.
  - rewrite seqZ_cons by lia. constructor.
    + apply IH. lia.
    + apply Forall_forall. intros j Hj. apply elem_of_seqZ in Hj. lia.
Qed.

Lemma rowMajor_sorted y0 y1 x0 x1 :
  StronglySorted rowMajorLt (rowMajor y0 y1 x0 x1).
Proof.
  unfold rowMajor.
  pose proof (seqZ_sorted y0 (y1 - y0)) as Hys.
  pose proof (seqZ_sorted x0 (x1 - x0)) as Hxs.
  induction Hys as [|y ys Hys IH Hy]; [constructor|].
  rewrite bind_cons. apply StronglySorted_app_2.
  - intros [a b] [c d] Hab Hcd.
    apply list_elem_of_bind in Hab as (x & Hp & _).
    apply list_elem_of_singleton in Hp as [= -> ->].
    apply list_elem_of_bind in Hcd as (y' & Hcd & Hy').
    apply list_elem_of_bind in Hcd as (x' & Hp & _).
    apply list_elem_of_singleton in Hp as [= -> ->].
    left. simpl. rewrite Forall_forall in Hy. by apply Hy.
  - clear -Hxs. induction Hxs as [|x xs Hxs IH Hx]; [constructor|].
    rewrite bind_cons. simpl. constructor; [exact IH|].
    apply Forall_forall. intros [a b] Hab.
    apply list_elem_of_bind in Hab as (x' & Hp & Hx').
    apply list_elem_of_singleton in Hp as [= -> ->].
    right. simpl. split; [done|]. rewrite Forall_forall in Hx. by apply Hx.
  - exact IH.
Qed.

Lemma rowMajor_NoDup y0 y1 x0 x1 : NoDup (rowMajor y0 y1 x0 x1).
Proof.
  pose proof (rowMajor_sorted y0 y1 x0 x1) as Hs.
  induction Hs as [|p l Hs IH Hp]; constructor; [|exact IH].
  intros Hin. rewrite Forall_forall in Hp. specialize (Hp p Hin).
  unfold rowMajorLt in Hp. lia.
Qed.

Lemma outOfImage_false width height x y :
  outOfImage width height x y = false ↔ 0 ≤ x < width ∧ 0 ≤ y < height.
Proof. unfold outOfImage. rewrite !orb_false_iff. lia. Qed.

Lemma inImage_true width height x y :
  (0 <=? x) && (x <? width) && (0 <=? y) && (y <? height) = true
  ↔ 0 ≤ x < width ∧ 0 ≤ y < height.
Proof. rewrite !andb_true_iff. lia. Qed.

Lemma isInsideSelection_true x y sel :
  isInsideSelection x y sel = true
  ↔ Selection.x sel ≤ x < Selection.x sel + Selection.width sel
    ∧ Selection.y sel ≤ y < Selection.y sel + Selection.height sel.
Proof. unfold isInsideSelection. rewrite !andb_true_iff. lia. Qed.

Lemma isInsideSelection_false x y sel :
  isInsideSelection x y sel = false
  ↔ ¬ (Selection.x sel ≤ x < Selection.x sel + Selection.width sel
       ∧ Selection.y sel ≤ y < Selection.y sel + Selection.height sel).
Proof.
  rewrite <- isInsideSelection_true. destruct (isInsideSelection x y sel); naive_solver.
Qed.

Lemma rowMajorLt_asym p q : rowMajorLt p q → rowMajorLt q p → False.
Proof. unfold rowMajorLt. lia. Qed.

Lemma rowMajorLt_irrefl p : ¬ rowMajorLt p p.
Proof. unfold rowMajorLt. lia. Qed.

Lemma StronglySorted_filter {A : Type} (R : relation A) (P : A → Prop)
    `{!∀ a, Decision (P a)} (l : list A) :
  StronglySorted R l → StronglySorted R (filter P l).
Proof.
  induction 1 as [|a l Hsorted IH Hall]; [constructor|].
  rewrite filter_cons. destruct (decide (P a)); [|done].
  constructor; [done|].
  apply Forall_forall. intros b Hb. apply list_elem_of_filter in Hb as [_ Hb].
  by eapply Forall_forall in Hall.
Qed.

(** A list in strict row-major order is determined by its elements. *)
Lemma sorted_by_membership (l l' : list (Z * Z)) :
  StronglySorted rowMajorLt l → StronglySorted rowMajorLt l' →
  (∀ p, p ∈ l ↔ p ∈ l') → l = l'.
Proof.
  intros Hl. revert l'. induction Hl as [|a l Hl IH Ha]; intros l' Hl' Hmem.
  - destruct l' as [|b l']; [done|].
    exfalso. apply (elem_of_nil b), Hmem. by left.
  - destruct Hl' as [|b l' Hl' Hb].
    { exfalso. apply (elem_of_nil a), Hmem. by left. }
    rewrite Forall_forall in Ha, Hb.
    assert (a = b) as <-.
    { assert (a ∈ b :: l') as Hab by (apply Hmem; by left).
      assert (b ∈ a :: l) as Hba by (apply Hmem; by left).
      apply elem_of_cons in Hab as [-> | Hab]; [done|].
      apply elem_of_cons in Hba as [-> | Hba]; [done|].
      exfalso. apply (rowMajorLt_asym a b); [by apply Ha | by apply Hb]. }
    f_equal. apply IH; [done|]. intros p. split; intros Hp.
    + assert (p ∈ a :: l') as Hp' by (apply Hmem; by right).
      apply elem_of_cons in Hp' as [-> | Hp']; [|done].
      exfalso. apply (rowMajorLt_irrefl a). by apply Ha.
    + assert (p ∈ a :: l) as Hp' by (apply Hmem; by right).
      apply elem_of_cons in Hp' as [-> | Hp']; [|done].
      exfalso. apply (rowMajorLt_irrefl a). by apply Hb.
Qed.



(** *** The texture bank *)

Lemma foldl_push_filter {A B : Type} (keep : A → bool) (f : A → B) l acc :
  foldl (λ bank p, if keep p then bank ++ [f p] else bank) acc l
  = acc ++ (f <$> filter (λ p, keep p = true) l).
Proof.
  revert acc. induction l as [|p l IH]; intros acc; simpl.
  - by rewrite app_nil_r.
  - rewrite IH. destruct (keep p) eqn:Hk.
    + rewrite filter_cons_True by done. simpl. by rewrite <- app_assoc.
    + rewrite filter_cons_False by congruence. done.
Qed.

Lemma outside_test x y selection :
  (x <? Selection.x selection)
  || (Selection.x selection + Selection.width selection <=? x)
  || (y <? Selection.y selection)
  || (Selection.y selection + Selection.height selection <=? y)
  = negb (isInsideSelection x y selection).
Proof.
  unfold isInsideSelection.
  destruct (Z.ltb_spec x (Selection.x selection)),
    (Z.leb_spec (Selection.x selection + Selection.width selection) x),
    (Z.ltb_spec y (Selection.y selection)),
    (Z.leb_spec (Selection.y selection + Selection.height selection) y),
    (Z.leb_spec (Selection.x selection) x),
    (Z.ltb_spec x (Selection.x selection + Selection.width selection)),
    (Z.leb_spec (Selection.y selection) y),
    (Z.ltb_spec y (Selection.y selection + Selection.height selection));
    simpl; try reflexivity; lia.
Qed.

Lemma buildTextureBank_ring imageData selection margin :
  buildTextureBank imageData selection margin
  = (λ p, sampleAt imageData p.1 p.2) <$> ringPixels imageData selection margin.
Proof.
  unfold buildTextureBank, ringPixels, scanBox. cbv zeta.
  rewrite (forZ_rowMajor _ _ _ _ (λ x y bank,
    if (x <? Selection.x selection)
       || (Selection.x selection + Selection.width selection <=? x)
       || (y <? Selection.y selection)
       || (Selection.y selection + Selection.height selection <=? y)
    then bank ++ [sampleAt imageData x y] else bank)).
  rewrite (foldl_push_filter
    (λ p, (p.1 <? Selection.x selection)
       || (Selection.x selection + Selection.width selection <=? p.1)
       || (p.2 <? Selection.y selection)
       || (Selection.y selection + Selection.height selection <=? p.2))
    (λ p, sampleAt imageData p.1 p.2)).
  simpl. f_equal. apply list_filter_iff. intros [x y]. simpl.
  rewrite outside_test. destruct (isInsideSelection x y selection); naive_solver.
Qed.

(** C6. [buildTextureBank] returns one sample per pixel of a list of pixels
    that is in the row-major order of the scan and holds exactly the pixels
    of the scanned box (the selection's box expanded by [margin] on all
    sides, clipped to the image) that lie outside the selection; the sample
    of a pixel is its (r, g, b) in the image buffer.  No sample comes from a
    pixel inside the selection. *)
Theorem buildTextureBank_collects_ring imageData selection margin :
  ∃ pixels : list (Z * Z),
    buildTextureBank imageData selection margin
    = (λ p,
         let idx := (p.2 * ImageData.width imageData + p.1) * 4 in
         {| TextureSample.r := load (ImageData.data imageData) idx;
            TextureSample.g := load (ImageData.data imageData) (idx + 1);
            TextureSample.b := load (ImageData.data imageData) (idx + 2) |})
        <$> pixels
    ∧ StronglySorted rowMajorLt pixels
    ∧ ∀ x y,
        (x, y) ∈ pixels ↔
          (Z.max 0 (Selection.x selection - margin) ≤ x
             < Z.min (ImageData.width imageData)
                 (Selection.x selection + Selection.width selection + margin)
           ∧ Z.max 0 (Selection.y selection - margin) ≤ y
             < Z.min (ImageData.height imageData)
                 (Selection.y selection + Selection.height selection + margin))
          ∧ ¬ (Selection.x selection ≤ x
                 < Selection.x selection + Selection.width selection
               ∧ Selection.y selection ≤ y
                 < Selection.y selection + Selection.height selection).
Proof.
  exists (ringPixels imageData selection margin).
  split; [apply buildTextureBank_ring|]. split.
  - unfold ringPixels. apply StronglySorted_filter, rowMajor_sorted.
  - intros x y. unfold ringPixels, scanBox.
    rewrite list_elem_of_filter, elem_of_rowMajor. cbn [fst snd].
    rewrite isInsideSelection_false. lia.
Qed.

Lemma buildTextureBank_collects_ring_witness :
  buildTextureBank demoImage demoSelection 1
  = [ {| TextureSample.r := Some 10; TextureSample.g := Some 20;
         TextureSample.b := Some 30 |};
      {| TextureSample.r := Some 40; TextureSample.g := Some 50;
         TextureSample.b := Some 60 |};
      {| TextureSample.r := Some 70; TextureSample.g := Some 80;
         TextureSample.b := Some 90 |};
      {| TextureSample.r := Some 100; TextureSample.g := Some 110;
         TextureSample.b := Some 120 |};
      {| TextureSample.r := Some 130; TextureSample.g := Some 140;
         TextureSample.b := Some 150 |};
      {| TextureSample.r := Some 160; TextureSample.g := Some 170;
         TextureSample.b := Some 180 |};
      {| TextureSample.r := Some 190; TextureSample.g := Some 200;
         TextureSample.b := Some 210 |};
      {| TextureSample.r := Some 220; TextureSample.g := Some 230;
         TextureSample.b := Some 240 |} ].
Proof.
  destruct (buildTextureBank_collects_ring demoImage demoSelection 1)
    as (pixels & -> & Hsorted & Hmem).
  assert (pixels
          = [(0, 0); (1, 0); (2, 0); (0, 1); (2, 1); (0, 2); (1, 2); (2, 2)])
    as ->; [|reflexivity].
  apply sorted_by_membership; [exact Hsorted | |].
  - repeat (constructor; [|repeat (constructor; [unfold rowMajorLt; simpl; lia|]);
                           constructor]).
    constructor.
  - intros [x y]. rewrite Hmem. simpl. rewrite !elem_of_cons, elem_of_nil.
    split.
    + intros (Hbox & Hout).
      assert (x = 0 ∨ x = 1 ∨ x = 2) as Hx by lia.
      assert (y = 0 ∨ y = 1 ∨ y = 2) as Hy by lia.
      destruct Hx as [-> | [-> | ->]], Hy as [-> | [-> | ->]];
        try (exfalso; apply Hout; lia); tauto.
    + intros Hp.
      repeat (destruct Hp as [[= -> ->] | Hp]; [lia|]). done.
Defined.

(** *** Auto-detection *)

(** C9. [autoDetectWatermark w h] is the rectangle
    {x: max(0, w-200), y: max(0, h-80), width: min(180, w),
    height: min(60, h)}; for a 400x300 image it is
    {x: 200, y: 220, width: 180, height: 60}. *)
Theorem autoDetectWatermark_rectangle :
  (∀ w h,
     autoDetectWatermark w h
     = {| Selection.x := Z.max 0 (w - 200);
          Selection.y := Z.max 0 (h - 80);
          Selection.width := Z.min 180 w;
          Selection.height := Z.min 60 h |})
  ∧ autoDetectWatermark 400 300
    = {| Selection.x := 200; Selection.y := 220;
         Selection.width := 180; Selection.height := 60 |}.
Proof. split; [intros w h|]; reflexivity. Qed.

(** *** What the stages leave alone *)

Lemma pixelIndex_nonneg width x y :
  0 ≤ x < width → 0 ≤ y → 0 ≤ pixelIndex width x y.
Proof. unfold pixelIndex. nia. Qed.

(** Distinct channels of pixels in the image have distinct offsets. *)
Lemma pixelIndex_inj width x y c x' y' c' :
  0 ≤ x < width → 0 ≤ x' < width → 0 ≤ y → 0 ≤ y' →
  0 ≤ c < 4 → 0 ≤ c' < 4 →
  pixelIndex width x y + c = pixelIndex width x' y' + c' →
  x = x' ∧ y = y' ∧ c = c'.
Proof.
  unfold pixelIndex. intros Hx Hx' Hy Hy' Hc Hc' Heq.
  assert (c = c') as -> by lia.
  assert (y * width + x = y' * width + x') as Hlin by lia.
  assert (y = y') as -> by nia.
  lia.
Qed.

Lemma sameOutside_refl width height sel buf :
  sameOutside width height sel buf buf.
Proof. by intros i _. Qed.

Lemma sameOutside_trans width height sel a b c :
  sameOutside width height sel a b →
  sameOutside width height sel b c →
  sameOutside width height sel a c.
Proof. intros Hab Hbc i Hi. rewrite Hbc, Hab; done. Qed.

Lemma store_sameOutside width height sel buf0 buf x y c v :
  outOfImage width height x y = false →
  isInsideSelection x y sel = true →
  0 ≤ c < 3 →
  sameOutside width height sel buf0 buf →
  sameOutside width height sel buf0 (store buf (pixelIndex width x y + c) v).
Proof.
  intros Him Hin Hc Hbuf i Hi. unfold store.
  destruct (pixelIndex width x y + c <? 0); [by apply Hbuf|].
  rewrite list_lookup_insert_ne; [by apply Hbuf|].
  intros <-. apply Hi. by exists x, y, c.
Qed.

Lemma storeRGB_sameOutside width height sel buf0 buf x y r g b :
  outOfImage width height x y = false →
  isInsideSelection x y sel = true →
  sameOutside width height sel buf0 buf →
  sameOutside width height sel buf0
    (store (store (store buf (pixelIndex width x y) r)
                  (pixelIndex width x y + 1) g)
           (pixelIndex width x y + 2) b).
Proof.
  intros Him Hin Hbuf.
  apply store_sameOutside; [done | done | lia |].
  apply store_sameOutside; [done | done | lia |].
  replace (pixelIndex width x y) with (pixelIndex width x y + 0) at 1 by lia.
  apply store_sameOutside; [done | done | lia | done].
Qed.

(** The two loops over the selection visit pixels inside it. *)
Lemma selection_loops_inside sel x y :
  Selection.y sel ≤ y < Selection.y sel + Selection.height sel →
  Selection.x sel ≤ x < Selection.x sel + Selection.width sel →
  isInsideSelection x y sel = true.
Proof. intros. apply isInsideSelection_true. lia. Qed.

Lemma prefill_sameOutside sel width height avg buf :
  sameOutside width height sel buf (prefill sel width height avg buf).
Proof.
  unfold prefill. destruct avg as [[avgR avgG] avgB].
  apply (forZ_invariant (sameOutside width height sel buf));
    [apply sameOutside_refl|].
  intros y b Hy Hb.
  apply (forZ_invariant (sameOutside width height sel buf)); [exact Hb|].
  intros x b' Hx Hb'.
  destruct ((0 <=? x) && (x <? width) && (0 <=? y) && (y <? height)) eqn:Him;
    [|exact Hb'].
  apply storeRGB_sameOutside; [| by apply selection_loops_inside | exact Hb'].
  apply outOfImage_false. by apply inImage_true.
Qed.

Lemma smoothPass_sameOutside sel width height buf :
  sameOutside width height sel buf (smoothPass sel width height buf).
Proof.
  unfold smoothPass.
  apply (forZ_invariant (sameOutside width height sel buf));
    [apply sameOutside_refl|].
  intros y b Hy Hb.
  apply (forZ_invariant (sameOutside width height sel buf)); [exact Hb|].
  intros x b' Hx Hb'.
  destruct (outOfImage width height x y) eqn:Him; [exact Hb'|].
  destruct (boxSums width height x y buf) as [[[sumR sumG] sumB] count].
  destruct (0 <? count); [|exact Hb'].
  apply storeRGB_sameOutside; [done | by apply selection_loops_inside | exact Hb'].
Qed.

Lemma report_resultData hasSink p s :
  resultData (report hasSink p s) = resultData s.
Proof. unfold report. by destruct hasSink. Qed.

Lemma smoothStage_sameOutside sel width height passes hasSink s :
  sameOutside width height sel (resultData s)
    (resultData (smoothStage sel width height passes hasSink s)).
Proof.
  unfold smoothStage.
  apply (forZ_invariant
           (λ s', sameOutside width height sel (resultData s) (resultData s')));
    [apply sameOutside_refl|].
  intros pass s' _ Hs'. rewrite report_resultData. simpl.
  eapply sameOutside_trans; [exact Hs' | apply smoothPass_sameOutside].
Qed.

Lemma featherPixel_sameOutside sel distMap width height x y orig buf :
  outOfImage width height x y = false →
  isInsideSelection x y sel = true →
  sameOutside width height sel buf
    (featherPixel sel distMap width height x y orig buf).
Proof.
  intros Him Hin. unfold featherPixel.
  destruct (load distMap _) as [distToEdge|]; [|apply sameOutside_refl].
  destruct (distToEdge <? 4); [|apply sameOutside_refl].
  destruct (nearestOutside sel width height x y orig) as [[[? nR] nG] nB].
  apply storeRGB_sameOutside; [done | done | apply sameOutside_refl].
Qed.

Lemma featherStage_sameOutside sel distMap width height orig buf :
  sameOutside width height sel buf
    (featherStage sel distMap width height orig buf).
Proof.
  unfold featherStage.
  apply (forZ_invariant (sameOutside width height sel buf));
    [apply sameOutside_refl|].
  intros y b Hy Hb.
  apply (forZ_invariant (sameOutside width height sel buf)); [exact Hb|].
  intros x b' Hx Hb'.
  destruct (outOfImage width height x y) eqn:Him; [exact Hb'|].
  eapply sameOutside_trans; [exact Hb'|].
  apply featherPixel_sameOutside; [done | by apply selection_loops_inside].
Qed.

Lemma grainStage_sameOutside random sel width height grainStrength s :
  sameOutside width height sel (resultData s)
    (resultData (grainStage random sel width height grainStrength s)).
Proof.
  unfold grainStage.
  apply (forZ_invariant
           (λ s', sameOutside width height sel (resultData s) (resultData s')));
    [apply sameOutside_refl|].
  intros y s1 Hy Hs1.
  apply (forZ_invariant
           (λ s', sameOutside width height sel (resultData s) (resultData s')));
    [exact Hs1|].
  intros x s2 Hx Hs2.
  destruct (outOfImage width height x y) eqn:Him; [exact Hs2|].
  unfold grainPixel. simpl.
  apply storeRGB_sameOutside; [done | by apply selection_loops_inside | exact Hs2].
Qed.

Lemma fillPixel_sameOutside random sel distMap width height margin layer x y
    orig bank s s' :
  outOfImage width height x y = false →
  isInsideSelection x y sel = true →
  fillPixel random sel distMap width height margin layer x y orig bank s
    = Returned s' →
  sameOutside width height sel (resultData s) (resultData s').
Proof.
  intros Him Hin. unfold fillPixel.
  destruct (injectTexture random bank _ (draws s)) as [[acc drawn]|e];
    [|discriminate].
  change (Returned (acc, drawn) ≫= ?k) with (k (acc, drawn)). cbv beta iota.
  destruct acc as [[[sumR sumG] sumB] totalWeight].
  destruct (0 <? totalWeight)%float; intros [= <-]; simpl.
  - apply storeRGB_sameOutside; [done | done | apply sameOutside_refl].
  - apply sameOutside_refl.
Qed.

Lemma fillLayer_sameOutside random sel distMap maxDist width height margin
    orig bank hasSink layer s s' :
  fillLayer random sel distMap maxDist width height margin orig bank hasSink
    layer s = Returned s' →
  sameOutside width height sel (resultData s) (resultData s').
Proof.
  unfold fillLayer.
  destruct (forZM 0 (Selection.height sel) _ s) as [s1|e] eqn:Hloop;
    [|discriminate].
  change (Returned s1 ≫= ?k) with (k s1). cbv beta.
  intros [= <-].
  assert (sameOutside width height sel (resultData s) (resultData s1)) as Hs1.
  { revert Hloop.
    apply (forZM_invariant
             (λ s', sameOutside width height sel (resultData s) (resultData s')));
      [apply sameOutside_refl|].
    intros ly sa sb Hly Hsa.
    apply (forZM_invariant
             (λ s', sameOutside width height sel (resultData s) (resultData s')));
      [exact Hsa|].
    intros lx sc sd Hlx Hsc.
    destruct (load distMap _) as [dist|]; [|by intros [= <-]].
    destruct (negb (dist =? layer)); [by intros [= <-]|].
    destruct (outOfImage width height _ _) eqn:Him; [by intros [= <-]|].
    intros Hpix. eapply sameOutside_trans; [exact Hsc|].
    eapply fillPixel_sameOutside; [exact Him | | exact Hpix].
    apply isInsideSelection_true. lia. }
  destruct (hasSink && (0 <? maxDist)); exact Hs1.
Qed.

Lemma fillStage_sameOutside random sel distMap maxDist width height margin
    orig bank hasSink s s' :
  fillStage random sel distMap maxDist width height margin orig bank hasSink s
    = Returned s' →
  sameOutside width height sel (resultData s) (resultData s').
Proof.
  unfold fillStage.
  apply (forZM_invariant
           (λ s', sameOutside width height sel (resultData s) (resultData s')));
    [apply sameOutside_refl|].
  intros layer sa sb _ Hsa Hlayer.
  eapply sameOutside_trans; [exact Hsa|].
  eapply fillLayer_sameOutside. exact Hlayer.
Qed.

Lemma stagesBeforeGrain_sameOutside random imageData sel opts bank hasSink s :
  stagesBeforeGrain random imageData sel opts bank hasSink = Returned s →
  sameOutside (ImageData.width imageData) (ImageData.height imageData) sel
    (ImageData.data imageData) (resultData s).
Proof.
  unfold stagesBeforeGrain. cbv zeta.
  destruct (buildDistMap sel) as [distMap maxDist].
  destruct (fillStage _ _ _ _ _ _ _ _ _ _ _) as [s1|e] eqn:Hfill;
    [|discriminate].
  change (Returned s1 ≫= ?k) with (k s1). cbv beta.
  intros [= <-]. simpl.
  apply fillStage_sameOutside in Hfill.
  rewrite report_resultData in Hfill. simpl in Hfill.
  eapply sameOutside_trans; [apply prefill_sameOutside|].
  eapply sameOutside_trans; [exact Hfill|].
  eapply sameOutside_trans; [|apply featherStage_sameOutside].
  rewrite report_resultData.
  eapply sameOutside_trans; [|apply smoothStage_sameOutside].
  rewrite report_resultData. apply sameOutside_refl.
Qed.

Lemma inpaintWatermark_sameOutside random imageData selection options hasSink
    out trace :
  inpaintWatermark random imageData selection options hasSink
    = Returned (out, trace) →
  sameOutside (ImageData.width imageData) (ImageData.height imageData)
    (clampSelection selection (ImageData.width imageData)
       (ImageData.height imageData))
    (ImageData.data imageData) (ImageData.data out).
Proof.
  unfold inpaintWatermark. cbv zeta.
  destruct (degenerate _); [intros [= <- _]; apply sameOutside_refl|].
  destruct (length _ =? 0)%nat; [intros [= <- _]; apply sameOutside_refl|].
  destruct (stagesBeforeGrain _ _ _ _ _ _) as [s|e] eqn:Hstages;
    [|discriminate].
  change (Returned s ≫= ?k) with (k s). cbv beta.
  intros [= <- _]. simpl. rewrite report_resultData.
  eapply sameOutside_trans; [|apply grainStage_sameOutside].
  eapply stagesBeforeGrain_sameOutside. exact Hstages.
Qed.

Lemma load_lookup buf i : 0 ≤ i → load buf i = buf !! Z.to_nat i.
Proof. intros Hi. unfold load. destruct (Z.ltb_spec i 0); [lia | done]. Qed.

(** For a rectangle whose corner is not negative, clamping only shrinks. *)
Lemma clampSelection_shrinks selection width height x y :
  0 ≤ Selection.x selection → 0 ≤ Selection.y selection →
  isInsideSelection x y (clampSelection selection width height) = true →
  isInsideSelection x y selection = true.
Proof.
  intros Hx Hy. rewrite !isInsideSelection_true. unfold clampSelection. simpl.
  lia.
Qed.

(** In the buffer [inpaintWatermark] returns, every pixel of the image that
    lies outside the clamped selection keeps its R, G and B bytes; when the
    caller's rectangle has a non-negative corner the same holds for every
    pixel outside the caller's rectangle. *)
Lemma inpaintWatermark_outside_rgb_unchanged random imageData selection
    options hasSink out trace px py c :
  inpaintWatermark random imageData selection options hasSink
    = Returned (out, trace) →
  0 ≤ px < ImageData.width imageData →
  0 ≤ py < ImageData.height imageData →
  isInsideSelection px py
    (clampSelection selection (ImageData.width imageData)
       (ImageData.height imageData)) = false
  ∨ (0 ≤ Selection.x selection ∧ 0 ≤ Selection.y selection
     ∧ isInsideSelection px py selection = false) →
  0 ≤ c < 3 →
  load (ImageData.data out) (pixelIndex (ImageData.width imageData) px py + c)
  = load (ImageData.data imageData)
      (pixelIndex (ImageData.width imageData) px py + c).
Proof.
  intros Hrun Hpx Hpy Hout Hc.
  pose proof (pixelIndex_nonneg _ px py Hpx ltac:(lia)) as Hidx.
  rewrite !load_lookup by lia.
  apply (inpaintWatermark_sameOutside _ _ _ _ _ _ _ Hrun).
  intros (x & y & c' & Him & Hin & Hc' & Heq).
  apply outOfImage_false in Him as [Hx Hy].
  apply Z2Nat.inj in Heq;
    [|lia | pose proof (pixelIndex_nonneg _ x y Hx ltac:(lia)); lia].
  apply pixelIndex_inj in Heq as (-> & -> & _); [|lia..].
  destruct Hout as [Hout | (Hsx & Hsy & Hout)]; [congruence|].
  apply clampSelection_shrinks in Hin; [congruence | done | done].
Qed.

Lemma inpaintWatermark_outside_rgb_unchanged_witness :
  inpaintWatermark demoRandom demoImage demoSelection ProcessingOptions.empty
    true = Returned demoOutput
  ∧ load (ImageData.data demoOutput.1) (pixelIndex 3 0 2 + 1)
    = load (ImageData.data demoImage) (pixelIndex 3 0 2 + 1).
Proof.
  split; [vm_compute; reflexivity|].
  apply (inpaintWatermark_outside_rgb_unchanged demoRandom demoImage
           demoSelection ProcessingOptions.empty true demoOutput.1
           demoOutput.2 0 2 1).
  - vm_compute; reflexivity.
  - simpl; lia.
  - simpl; lia.
  - left. reflexivity.
  - lia.
Defined.

(** C2. The buffer [inpaintWatermark] returns has the alpha byte of the input
    at every pixel of the image. *)
Theorem inpaintWatermark_alpha_unchanged random imageData selection options
    hasSink out trace px py :
  inpaintWatermark random imageData selection options hasSink
    = Returned (out, trace) →
  0 ≤ px < ImageData.width imageData →
  0 ≤ py < ImageData.height imageData →
  load (ImageData.data out) (pixelIndex (ImageData.width imageData) px py + 3)
  = load (ImageData.data imageData)
      (pixelIndex (ImageData.width imageData) px py + 3).
Proof.
  intros Hrun Hpx Hpy.
  pose proof (pixelIndex_nonneg _ px py Hpx ltac:(lia)) as Hidx.
  rewrite !load_lookup by lia.
  apply (inpaintWatermark_sameOutside _ _ _ _ _ _ _ Hrun).
  intros (x & y & c' & Him & Hin & Hc' & Heq).
  apply outOfImage_false in Him as [Hx Hy].
  apply Z2Nat.inj in Heq;
    [|lia | pose proof (pixelIndex_nonneg _ x y Hx ltac:(lia)); lia].
  apply pixelIndex_inj in Heq as (_ & _ & Heq); lia.
Qed.

Lemma inpaintWatermark_alpha_unchanged_witness :
  inpaintWatermark demoRandom demoImage demoSelection ProcessingOptions.empty
    true = Returned demoOutput
  ∧ load (ImageData.data demoOutput.1) (pixelIndex 3 1 1 + 3)
    = load (ImageData.data demoImage) (pixelIndex 3 1 1 + 3).
Proof.
  split; [vm_compute; reflexivity|].
  apply (inpaintWatermark_alpha_unchanged demoRandom demoImage demoSelection
           ProcessingOptions.empty true demoOutput.1 demoOutput.2 1 1).
  - vm_compute; reflexivity.
  - simpl; lia.
  - simpl; lia.
Defined.

(** *** The clamped selection *)

(** When the caller's corner is not negative, the selection the pipeline
    proceeds with lies in the image. *)
Lemma clampSelection_withinImage selection width height :
  0 ≤ Selection.x selection → 0 ≤ Selection.y selection →
  degenerate (clampSelection selection width height) = false →
  withinImage (clampSelection selection width height) width height.
Proof.
  intros Hx Hy. unfold degenerate, withinImage, clampSelection. simpl.
  rewrite orb_false_iff. lia.
Qed.

(** C4 (the code departs from it). For the rectangle {x: -2, y: 0, width: 5,
    height: 2} on a 4x4 image the clamped selection is {x: 0, y: 0, width: 5,
    height: 2}: it is not degenerate, the texture bank has 8 samples, so the
    pipeline proceeds, and x + width = 5 exceeds the image width 4.  The run
    rewrites pixel (3, 0), which lies outside the caller's rectangle. *)
Theorem clampSelection_negative_corner_exceeds_image :
  let sel := clampSelection edgeSelection (ImageData.width edgeImage)
               (ImageData.height edgeImage) in
  sel = {| Selection.x := 0; Selection.y := 0;
           Selection.width := 5; Selection.height := 2 |}
  ∧ degenerate sel = false
  ∧ length (buildTextureBank edgeImage sel
              (ProcessingOptions.margin DEFAULT_OPTIONS)) = 8%nat
  ∧ ¬ withinImage sel (ImageData.width edgeImage) (ImageData.height edgeImage)
  ∧ (∃ out trace,
       inpaintWatermark demoRandom edgeImage edgeSelection
         ProcessingOptions.empty false = Returned (out, trace)
       ∧ isInsideSelection 3 0 edgeSelection = false
       ∧ load (ImageData.data edgeImage) (pixelIndex 4 3 0) = Some 128
       ∧ load (ImageData.data out) (pixelIndex 4 3 0) = Some 129).
Proof.
  cbv zeta. split; [reflexivity|]. split; [reflexivity|].
  split; [vm_compute; reflexivity|].
  split.
  - unfold withinImage. vm_compute. intros (_ & _ & H & _). by apply H.
  - eexists _, _. split; [vm_compute; reflexivity|].
    split; [reflexivity|]. split; reflexivity.
Qed.

(** C1 (the code departs from it). For the rectangle {x: -2, y: 0, width: 5,
    height: 2} on a 4x4 image of bytes 128 the run returns, and pixel (3, 0),
    which lies in the image and strictly outside the caller's rectangle
    (its columns are -2 to 2), comes back with R, G, B = 129 instead of the
    128 of the input: the clamped selection {x: 0, y: 0, width: 5,
    height: 2} reaches over it. *)
Theorem inpaintWatermark_rewrites_outside_caller_rectangle :
  ∃ out trace,
    inpaintWatermark demoRandom edgeImage edgeSelection
      ProcessingOptions.empty false = Returned (out, trace)
    ∧ 0 ≤ 3 < ImageData.width edgeImage
    ∧ 0 ≤ 0 < ImageData.height edgeImage
    ∧ ¬ (Selection.x edgeSelection ≤ 3
           < Selection.x edgeSelection + Selection.width edgeSelection)
    ∧ isInsideSelection 3 0 edgeSelection = false
    ∧ (load (ImageData.data edgeImage) ((0 * 4 + 3) * 4),
       load (ImageData.data edgeImage) ((0 * 4 + 3) * 4 + 1),
       load (ImageData.data edgeImage) ((0 * 4 + 3) * 4 + 2))
      = (Some 128, Some 128, Some 128)
    ∧ (load (ImageData.data out) ((0 * 4 + 3) * 4),
       load (ImageData.data out) ((0 * 4 + 3) * 4 + 1),
       load (ImageData.data out) ((0 * 4 + 3) * 4 + 2))
      = (Some 129, Some 129, Some 129).
Proof.
  eexists _, _. split; [vm_compute; reflexivity|].
  split; [simpl; lia|]. split; [simpl; lia|]. split; [simpl; lia|].
  split; [reflexivity|]. split; reflexivity.
Qed.

(** *** Failure policy *)






(** A selection that covers the whole image leaves no pixel for the bank. *)
Lemma buildTextureBank_full_image imageData margin :
  buildTextureBank imageData
    {| Selection.x := 0; Selection.y := 0;
       Selection.width := ImageData.width imageData;
       Selection.height := ImageData.height imageData |} margin = [].
Proof.
  rewrite buildTextureBank_ring. unfold ringPixels.
  match goal with |- _ <$> ?l = [] => assert (l = []) as ->; [|done] end.
  apply elem_of_nil_inv. intros [x y] Hp.
  apply list_elem_of_filter in Hp as [Hout Hbox]. simpl in Hout.
  unfold scanBox in Hbox. apply elem_of_rowMajor in Hbox. simpl in Hbox.
  apply isInsideSelection_false in Hout. simpl in Hout. lia.
Qed.

(** *** Rounding of [Math.random() * length] *)



















(** *** Progress reports *)

Lemma forZ_appends {S A : Type} (log : S → list A) (g : Z → list A) lo hi
    (body : Z → S → S) s :
  (∀ i s, log (body i s) = log s ++ g i) →
  log (forZ lo hi body s) = log s ++ (seqZ lo (hi - lo) ≫= g).
Proof.
  intros Hbody. unfold forZ. revert s.
  induction (seqZ lo (hi - lo)) as [|i l IH]; intros s.
  - simpl. by rewrite app_nil_r.
  - rewrite bind_cons. cbn [foldl]. rewrite IH, Hbody.
    by rewrite <- app_assoc.
Qed.

Lemma forZM_appends {S A : Type} (log : S → list A) (g : Z → list A) lo hi
    (body : Z → S → outcome S) s s' :
  (∀ i s s', body i s = Returned s' → log s' = log s ++ g i) →
  forZM lo hi body s = Returned s' →
  log s' = log s ++ (seqZ lo (hi - lo) ≫= g).
Proof.
  intros Hbody. unfold forZM. revert s.
  induction (seqZ lo (hi - lo)) as [|i l IH]; intros s.
  - simpl. intros [= <-]. by rewrite app_nil_r.
  - rewrite bind_cons. cbn [foldl].
    change (Returned s ≫= body i) with (body i s).
    destruct (body i s) as [s1|e] eqn:Hb.
    + intros Hrest. rewrite (IH _ Hrest), (Hbody _ _ _ Hb).
      by rewrite <- app_assoc.
    + rewrite foldl_raised. discriminate.
Qed.

Lemma bind_singleton_fmap {A B : Type} (f : A → B) (l : list A) :
  l ≫= (λ a, [f a]) = f <$> l.
Proof. induction l as [|a l IH]; [done|]. rewrite bind_cons, IH. done. Qed.

Lemma bind_nil_const {A B : Type} (l : list A) :
  l ≫= (λ _, @nil B) = [].
Proof. induction l as [|a l IH]; [done|]. by rewrite bind_cons, IH. Qed.

Lemma fillPixel_reported random sel distMap width height margin layer x y orig
    bank s s' :
  fillPixel random sel distMap width height margin layer x y orig bank s
    = Returned s' →
  reported s' = reported s.
Proof.
  unfold fillPixel.
  destruct (injectTexture random bank _ (draws s)) as [[acc drawn]|e];
    [|discriminate].
  change (Returned (acc, drawn) ≫= ?k) with (k (acc, drawn)). cbv beta iota.
  destruct acc as [[[sumR sumG] sumB] totalWeight].
  destruct (0 <? totalWeight)%float; by intros [= <-].
Qed.

(** The report a layer of the fill makes. *)
Lemma fillLayer_reported random sel distMap maxDist width height margin orig
    bank hasSink layer s s' :
  fillLayer random sel distMap maxDist width height margin orig bank hasSink
    layer s = Returned s' →
  reported s'
  = reported s
    ++ (if hasSink && (0 <? maxDist)
        then [(20 + of_Z layer / of_Z maxDist * 50)%float] else []).
Proof.
  unfold fillLayer.
  destruct (forZM 0 (Selection.height sel) _ s) as [s1|e] eqn:Hloop;
    [|discriminate].
  change (Returned s1 ≫= ?k) with (k s1). cbv beta.
  intros [= <-].
  assert (reported s1 = reported s) as Hs1.
  { revert Hloop.
    apply (forZM_invariant (λ s', reported s' = reported s)); [done|].
    intros ly sa sb Hly Hsa.
    apply (forZM_invariant (λ s', reported s' = reported s)); [exact Hsa|].
    intros lx sc sd Hlx Hsc.
    destruct (load distMap _) as [dist|]; [|by intros [= <-]].
    destruct (negb (dist =? layer)); [by intros [= <-]|].
    destruct (outOfImage width height _ _); [by intros [= <-]|].
    intros Hpix. apply fillPixel_reported in Hpix. congruence. }
  destruct (hasSink && (0 <? maxDist)); simpl.
  - by rewrite Hs1.
  - by rewrite Hs1, app_nil_r.
Qed.

Lemma fillStage_reported random sel distMap maxDist width height margin orig
    bank hasSink s s' :
  fillStage random sel distMap maxDist width height margin orig bank hasSink s
    = Returned s' →
  reported s'
  = reported s
    ++ (if hasSink && (0 <? maxDist)
        then (λ layer, (20 + of_Z layer / of_Z maxDist * 50)%float)
               <$> seqZ 0 (maxDist + 1)
        else []).
Proof.
  unfold fillStage. intros Hrun.
  rewrite (forZM_appends reported
             (λ layer, if hasSink && (0 <? maxDist)
                       then [(20 + of_Z layer / of_Z maxDist * 50)%float]
                       else []) _ _ _ _ _
             (λ layer sa sb, fillLayer_reported random sel distMap maxDist
                               width height margin orig bank hasSink layer
                               sa sb) Hrun).
  f_equal. rewrite Z.sub_0_r.
  destruct (hasSink && (0 <? maxDist)).
  - apply bind_singleton_fmap.
  - apply bind_nil_const.
Qed.

Lemma smoothStage_reported sel width height passes hasSink s :
  reported (smoothStage sel width height passes hasSink s)
  = reported s
    ++ (if hasSink
        then (λ pass, (75 + of_Z (pass + 1) / of_Z passes * 15)%float)
               <$> seqZ 0 passes
        else []).
Proof.
  unfold smoothStage.
  rewrite (forZ_appends reported
             (λ pass, if hasSink
                      then [(75 + of_Z (pass + 1) / of_Z passes * 15)%float]
                      else [])).
  - f_equal. rewrite Z.sub_0_r. destruct hasSink.
    + apply bind_singleton_fmap.
    + apply bind_nil_const.
  - intros pass s1. unfold report. destruct hasSink; simpl; [done|].
    by rewrite app_nil_r.
Qed.

Lemma grainStage_reported random sel width height grainStrength s :
  reported (grainStage random sel width height grainStrength s) = reported s.
Proof.
  unfold grainStage.
  apply (forZ_invariant (λ s', reported s' = reported s)); [done|].
  intros y s1 _ Hs1.
  apply (forZ_invariant (λ s', reported s' = reported s)); [exact Hs1|].
  intros x s2 _ Hs2.
  destruct (outOfImage width height x y); [exact Hs2|]. exact Hs2.
Qed.

(** The percentages a run that passes both guards reports to a sink. *)
Lemma inpaintWatermark_trace random imageData selection options out trace :
  let opts := ProcessingOptions.spread DEFAULT_OPTIONS options in
  let sel := clampSelection selection (ImageData.width imageData)
               (ImageData.height imageData) in
  let maxDist := (buildDistMap sel).2 in
  let passes := ProcessingOptions.passes opts in
  degenerate sel = false →
  buildTextureBank imageData sel (ProcessingOptions.margin opts) ≠ [] →
  inpaintWatermark random imageData selection options true
    = Returned (out, trace) →
  trace
  = [20%float]
    ++ (if 0 <? maxDist
        then (λ layer, (20 + of_Z layer / of_Z maxDist * 50)%float)
               <$> seqZ 0 (maxDist + 1)
        else [])
    ++ [75%float]
    ++ ((λ pass, (75 + of_Z (pass + 1) / of_Z passes * 15)%float)
          <$> seqZ 0 passes)
    ++ [92%float; 100%float].
Proof.
  cbv zeta. intros Hdeg Hbank. unfold inpaintWatermark. cbv zeta.
  rewrite Hdeg.
  destruct (buildTextureBank _ _ _) as [|sample bank] eqn:Hb; [done|].
  simpl length. cbn [Nat.eqb]. rewrite <- Hb. clear Hb Hbank.
  destruct (stagesBeforeGrain _ _ _ _ _ _) as [s|e] eqn:Hstages;
    [|discriminate].
  change (Returned s ≫= ?k) with (k s). cbv beta.
  intros [= _ <-]. simpl. rewrite grainStage_reported.
  revert Hstages. unfold stagesBeforeGrain. cbv zeta.
  destruct (buildDistMap _) as [distMap maxDist]. simpl.
  destruct (fillStage _ _ _ _ _ _ _ _ _ _ _) as [s1|e] eqn:Hfill;
    [|discriminate].
  change (Returned s1 ≫= ?k) with (k s1). cbv beta.
  intros [= <-]. simpl.
  rewrite smoothStage_reported. simpl.
  apply fillStage_reported in Hfill. simpl in Hfill. rewrite Hfill.
  rewrite <- !app_assoc. reflexivity.
Qed.

(** C8 (as the code has it). With a progress sink and a distance-field
    maximum of 0, the fill stage reports nothing: the guard [maxDist > 0]
    skips the report, so nothing is divided by zero and no 70 is reported;
    the reports are 20, then 75, then those of the smoothing passes, 92
    and 100. *)
Theorem fillStage_silent_when_maxDist_zero random imageData selection options
    out trace :
  let opts := ProcessingOptions.spread DEFAULT_OPTIONS options in
  let sel := clampSelection selection (ImageData.width imageData)
               (ImageData.height imageData) in
  let passes := ProcessingOptions.passes opts in
  degenerate sel = false →
  buildTextureBank imageData sel (ProcessingOptions.margin opts) ≠ [] →
  (buildDistMap sel).2 = 0 →
  inpaintWatermark random imageData selection options true
    = Returned (out, trace) →
  trace
  = [20%float; 75%float]
    ++ ((λ pass, (75 + of_Z (pass + 1) / of_Z passes * 15)%float)
          <$> seqZ 0 passes)
    ++ [92%float; 100%float].
Proof.
  cbv zeta. intros Hdeg Hbank Hmax Hrun.
  rewrite (inpaintWatermark_trace _ _ _ _ _ _ Hdeg Hbank Hrun).
  rewrite Hmax. reflexivity.
Qed.

Lemma fillStage_silent_when_maxDist_zero_witness :
  inpaintWatermark demoRandom demoImage demoSelection ProcessingOptions.empty
    true = Returned demoOutput
  ∧ demoOutput.2
    = [20%float; 75%float]
      ++ ((λ pass, (75 + of_Z (pass + 1) / of_Z 8 * 15)%float) <$> seqZ 0 8)
      ++ [92%float; 100%float].
Proof.
  split; [vm_compute; reflexivity|].
  apply (fillStage_silent_when_maxDist_zero demoRandom demoImage demoSelection
           ProcessingOptions.empty demoOutput.1 demoOutput.2).
  - reflexivity.
  - vm_compute. discriminate.
  - reflexivity.
  - vm_compute; reflexivity.
Defined.

(** With a positive maximum the fill does report: 20 for layer 0 and 70 for
    layer 1 of a 3x3 selection. *)
Example fill_reports_when_maxDist_positive :
  ∃ out,
    inpaintWatermark demoRandom gridImage gridSelection
      {| ProcessingOptions.autoDetect' := None;
         ProcessingOptions.passes' := Some 0;
         ProcessingOptions.margin' := None;
         ProcessingOptions.grainStrength' := None;
         ProcessingOptions.textureInjectionProbability' := None |} true
    = Returned (out, [20; 20; 70; 75; 92; 100]%float).
Proof. eexists. vm_compute. reflexivity. Qed.

(** C8 as stated fails: on the 3x3 image with the one-pixel selection the
    distance-field maximum is 0, a sink is provided, and no report equals
    70. *)
Lemma fillStage_reports_70_counterexample :
  (buildDistMap
     (clampSelection demoSelection (ImageData.width demoImage)
        (ImageData.height demoImage))).2 = 0
  ∧ inpaintWatermark demoRandom demoImage demoSelection
      ProcessingOptions.empty true = Returned demoOutput
  ∧ demoOutput.2
    = [20; 75; 76.875; 78.75; 80.625; 82.5; 84.375; 86.25; 88.125; 90; 92;
       100]%float
  ∧ forallb (λ p, negb (p =? 70)%float) demoOutput.2 = true.
Proof.
  split; [reflexivity|]. split; [vm_compute; reflexivity|].
  split; [reflexivity|]. vm_compute; reflexivity.
Qed.

(** *** Reads after writes *)

Lemma load_store_eq buf i v :
  load (store buf i v) i = (λ _, ToUint8Clamp v) <$> load buf i.
Proof.
  unfold load, store. destruct (i <? 0); [done|].
  destruct (decide (Z.to_nat i < length buf)%nat) as [Hlt|Hge].
  - rewrite list_lookup_insert_eq by done.
    destruct (lookup_lt_is_Some_2 buf _ Hlt) as [w ->]. done.
  - rewrite list_insert_ge by lia. rewrite lookup_ge_None_2 by lia. done.
Qed.

Lemma load_store_ne buf i j v :
  i ≠ j → load (store buf i v) j = load buf j.
Proof.
  intros Hne. unfold load, store.
  destruct (Z.ltb_spec j 0); [done|]. destruct (Z.ltb_spec i 0); [done|].
  apply list_lookup_insert_ne. lia.
Qed.

(** The three read-modify-write assignments of the feathering and of the
    grain: each channel is rewritten from its own previous value. *)
Lemma rewriteRGB_channel buf idx (fR fG fB : option Z → float) c :
  0 ≤ c < 3 →
  let buf1 := store buf idx (fR (load buf idx)) in
  let buf2 := store buf1 (idx + 1) (fG (load buf1 (idx + 1))) in
  let buf3 := store buf2 (idx + 2) (fB (load buf2 (idx + 2))) in
  load buf3 (idx + c)
  = (λ _, ToUint8Clamp
            ((if c =? 0 then fR else if c =? 1 then fG else fB)
               (load buf (idx + c))))
      <$> load buf (idx + c).
Proof.
  intros Hc. cbv zeta.
  assert (c = 0 ∨ c = 1 ∨ c = 2) as [-> | [-> | ->]] by lia; simpl.
  - rewrite Z.add_0_r.
    rewrite load_store_ne by lia. rewrite load_store_ne by lia.
    apply load_store_eq.
  - rewrite load_store_ne by lia. rewrite load_store_eq.
    rewrite !load_store_ne by lia. done.
  - rewrite load_store_eq. rewrite !load_store_ne by lia. done.
Qed.

Lemma rewriteRGB_other buf idx (vR vG vB : float) j :
  j ≠ idx → j ≠ idx + 1 → j ≠ idx + 2 →
  load (store (store (store buf idx vR) (idx + 1) vG) (idx + 2) vB) j
  = load buf j.
Proof. intros. rewrite !load_store_ne by lia. done. Qed.

(** *** Feathering without an exterior pixel in reach *)

Lemma nearestOutside_default sel width height x y orig :
  (∀ dx dy, -4 ≤ dx ≤ 4 → -4 ≤ dy ≤ 4 →
     outOfImage width height (x + dx) (y + dy) = false →
     isInsideSelection (x + dx) (y + dy) sel = true) →
  nearestOutside sel width height x y orig
  = (infinity, load orig (pixelIndex width x y),
     load orig (pixelIndex width x y + 1),
     load orig (pixelIndex width x y + 2)).
Proof.
  intros Hwin. unfold nearestOutside. cbv zeta.
  apply (forZ_invariant (λ acc, acc = (_, _, _, _))); [done|].
  intros dy acc Hdy ->.
  apply (forZ_invariant (λ acc, acc = (_, _, _, _))); [done|].
  intros dx acc Hdx ->.
  destruct (outOfImage width height (x + dx) (y + dy)) eqn:Him; [done|].
  rewrite Hwin by (done || lia). done.
Qed.

(** A loop that rewrites, pixel by pixel, each channel of the listed pixels
    from its own previous value: bytes that are no channel of a listed pixel
    are kept, and every listed pixel of the image ends with the rewriting of
    its initial value. *)
Lemma pixel_rewrite_fold (width height : Z)
    (step : Z → Z → list Z → list Z)
    (F : Z → Z → Z → option Z → option Z) l buf :
  NoDup l →
  (∀ x y b j, (∀ c, 0 ≤ c < 3 → j ≠ pixelIndex width x y + c) →
              load (step x y b) j = load b j) →
  (∀ x y b c, 0 ≤ c < 3 →
              load (step x y b) (pixelIndex width x y + c)
              = F x y c (load b (pixelIndex width x y + c))) →
  let run :=
    foldl (λ b (p : Z * Z),
             if outOfImage width height p.1 p.2 then b else step p.1 p.2 b)
          buf l in
  (∀ j,
     (∀ p c, p ∈ l → outOfImage width height p.1 p.2 = false → 0 ≤ c < 3 →
             j ≠ pixelIndex width p.1 p.2 + c) →
     load run j = load buf j)
  ∧ (∀ p c, p ∈ l → outOfImage width height p.1 p.2 = false → 0 ≤ c < 3 →
       load run (pixelIndex width p.1 p.2 + c)
       = F p.1 p.2 c (load buf (pixelIndex width p.1 p.2 + c))).
Proof.
  intros Hnd Hother Hown. revert buf.
  induction Hnd as [|p l Hp Hnd IH]; intros buf; cbn [foldl]; cbv zeta.
  - split; [done|]. intros p c Hp. by apply elem_of_nil in Hp.
  - set (b1 := if outOfImage width height p.1 p.2 then buf
               else step p.1 p.2 buf).
    destruct (IH b1) as (IH1 & IH2).
    assert (Hb1 : ∀ j,
              (outOfImage width height p.1 p.2 = false →
               ∀ c, 0 ≤ c < 3 → j ≠ pixelIndex width p.1 p.2 + c) →
              load b1 j = load buf j).
    { intros j Hj. unfold b1.
      destruct (outOfImage width height p.1 p.2); [done|].
      apply Hother. by apply Hj. }
    assert (Hdistinct : ∀ q c c',
              q ≠ p →
              outOfImage width height p.1 p.2 = false →
              outOfImage width height q.1 q.2 = false →
              0 ≤ c < 3 → 0 ≤ c' < 3 →
              pixelIndex width q.1 q.2 + c ≠ pixelIndex width p.1 p.2 + c').
    { intros [qx qy] c c' Hne Hpim Hqim Hc Hc' Heq.
      apply outOfImage_false in Hpim, Hqim. simpl in *.
      apply pixelIndex_inj in Heq as (Hx & Hy & _); [|lia..].
      apply Hne. destruct p; simpl in *; congruence. }
    split.
    + intros j Hj. rewrite IH1.
      * apply Hb1. intros Him c Hc. apply (Hj p c); [by left|done..].
      * intros q c Hq Him Hc. apply Hj; [by right|done..].
    + intros q c Hq Him Hc. apply elem_of_cons in Hq as [-> | Hq].
      * rewrite IH1.
        { unfold b1. rewrite Him. by apply Hown. }
        intros q c' Hq Hqim Hc'. apply not_eq_sym.
        apply Hdistinct; [|done..]. intros ->. done.
      * rewrite (IH2 q c Hq Him Hc). f_equal.
        apply Hb1. intros Hpim c' Hc'.
        apply Hdistinct; [|done..]. intros ->. done.
Qed.

(** What the feathering of a pixel does to each of its channels. *)
Lemma featherPixel_channel sel distMap width height x y orig buf c :
  0 ≤ c < 3 →
  load (featherPixel sel distMap width height x y orig buf)
    (pixelIndex width x y + c)
  = match load distMap
            ((y - Selection.y sel) * Selection.width sel
             + (x - Selection.x sel)) with
    | Some distToEdge =>
        if distToEdge <? 4 then
          let '(_, nearestR, nearestG, nearestB) :=
            nearestOutside sel width height x y orig in
          (λ v, ToUint8Clamp
                  (blendChannel (Some v)
                     (if c =? 0 then nearestR
                      else if c =? 1 then nearestG else nearestB)
                     (of_Z distToEdge / of_Z 4)))
            <$> load buf (pixelIndex width x y + c)
        else load buf (pixelIndex width x y + c)
    | None => load buf (pixelIndex width x y + c)
    end.
Proof.
  intros Hc. unfold featherPixel. cbv zeta.
  destruct (load distMap _) as [distToEdge|]; [|done].
  destruct (distToEdge <? 4); [|done].
  destruct (nearestOutside sel width height x y orig) as [[[? nR] nG] nB].
  rewrite (rewriteRGB_channel buf (pixelIndex width x y)
             (λ v, blendChannel v nR (of_Z distToEdge / of_Z 4))
             (λ v, blendChannel v nG (of_Z distToEdge / of_Z 4))
             (λ v, blendChannel v nB (of_Z distToEdge / of_Z 4)) c Hc).
  destruct (load buf (pixelIndex width x y + c)) as [v|]; [|done].
  simpl. by repeat destruct (c =? _).
Qed.

Lemma featherPixel_other sel distMap width height x y orig buf j :
  (∀ c, 0 ≤ c < 3 → j ≠ pixelIndex width x y + c) →
  load (featherPixel sel distMap width height x y orig buf) j = load buf j.
Proof.
  intros Hj. unfold featherPixel. cbv zeta.
  destruct (load distMap _) as [distToEdge|]; [|done].
  destruct (distToEdge <? 4); [|done].
  destruct (nearestOutside sel width height x y orig) as [[[? nR] nG] nB].
  apply rewriteRGB_other.
  - specialize (Hj 0). lia.
  - apply Hj. lia.
  - apply Hj. lia.
Qed.

(** After the whole feathering stage a pixel holds the feathering of the
    value it had before the stage. *)
Lemma featherStage_channel sel distMap width height orig buf x y c :
  outOfImage width height x y = false →
  isInsideSelection x y sel = true →
  0 ≤ c < 3 →
  load (featherStage sel distMap width height orig buf)
    (pixelIndex width x y + c)
  = load (featherPixel sel distMap width height x y orig buf)
      (pixelIndex width x y + c).
Proof.
  intros Him Hin Hc. unfold featherStage.
  rewrite (forZ_rowMajor _ _ _ _
             (λ x y b, if outOfImage width height x y then b
                       else featherPixel sel distMap width height x y orig b)).
  destruct (pixel_rewrite_fold width height
              (λ x y b, featherPixel sel distMap width height x y orig b)
              (λ x y c v,
                 match load distMap
                         ((y - Selection.y sel) * Selection.width sel
                          + (x - Selection.x sel)) with
                 | Some distToEdge =>
                     if distToEdge <? 4 then
                       let '(_, nearestR, nearestG, nearestB) :=
                         nearestOutside sel width height x y orig in
                       (λ v, ToUint8Clamp
                               (blendChannel (Some v)
                                  (if c =? 0 then nearestR
                                   else if c =? 1 then nearestG else nearestB)
                                  (of_Z distToEdge / of_Z 4))) <$> v
                     else v
                 | None => v
                 end)
              (rowMajor (Selection.y sel)
                 (Selection.y sel + Selection.height sel) (Selection.x sel)
                 (Selection.x sel + Selection.width sel)) buf
              (rowMajor_NoDup _ _ _ _)) as (_ & Hpix).
  - intros x' y' b j Hj. by apply featherPixel_other.
  - intros x' y' b c' Hc'. by apply featherPixel_channel.
  - cbv zeta in Hpix.
    assert ((x, y) ∈ rowMajor (Selection.y sel)
                       (Selection.y sel + Selection.height sel)
                       (Selection.x sel)
                       (Selection.x sel + Selection.width sel)) as Hel.
    { apply elem_of_rowMajor. apply isInsideSelection_true in Hin. lia. }
    etrans; [exact (Hpix (x, y) c Hel Him Hc)|].
    simpl. symmetry. by apply featherPixel_channel.
Qed.

(** C10. For a pixel of the image with distance-field value below the
    feather width 4 whose 9x9 window holds no pixel of the image outside the
    selection, the search returns the pixel's own original colour, and the
    feathering writes, in each of R, G and B, the byte of
    [Math.round(current * blend + original * (1 - blend))] with
    blend = distance / 4, the blend of the current (synthesized) value with
    the pixel's own original value; this is also what the pixel holds after
    the whole feathering stage. *)
Theorem featherPixel_blends_with_own_original sel distMap width height x y
    orig buf distToEdge c :
  outOfImage width height x y = false →
  load distMap
    ((y - Selection.y sel) * Selection.width sel + (x - Selection.x sel))
    = Some distToEdge →
  distToEdge < 4 →
  (∀ dx dy, -4 ≤ dx ≤ 4 → -4 ≤ dy ≤ 4 →
     outOfImage width height (x + dx) (y + dy) = false →
     isInsideSelection (x + dx) (y + dy) sel = true) →
  0 ≤ c < 3 →
  let idx := (y * width + x) * 4 in
  let blend := (of_Z distToEdge / of_Z 4)%float in
  let blended := λ v : Z,
    ToUint8Clamp
      (Math_round
         (of_Z v * blend + toNumber (load orig (idx + c)) * (1 - blend))) in
  nearestOutside sel width height x y orig
  = (infinity, load orig idx, load orig (idx + 1), load orig (idx + 2))
  ∧ load (featherPixel sel distMap width height x y orig buf) (idx + c)
    = blended <$> load buf (idx + c)
  ∧ load (featherStage sel distMap width height orig buf) (idx + c)
    = blended <$> load buf (idx + c).
Proof.
  intros Him Hdist Hlt Hwin Hc. cbv zeta.
  change ((y * width + x) * 4) with (pixelIndex width x y).
  pose proof (nearestOutside_default sel width height x y orig Hwin) as Hnear.
  split; [exact Hnear|].
  assert (isInsideSelection x y sel = true) as Hin.
  { specialize (Hwin 0 0). rewrite !Z.add_0_r in Hwin. apply Hwin; [lia..|done]. }
  rewrite (featherStage_channel _ _ _ _ _ _ _ _ _ Him Hin Hc).
  match goal with
  | |- ?A ∧ ?A => cut A; [intros Hboth; exact (conj Hboth Hboth)|]
  end.
  rewrite (featherPixel_channel _ _ _ _ _ _ _ _ _ Hc), Hdist.
  destruct (Z.ltb_spec distToEdge 4); [|lia].
  rewrite Hnear.
  destruct (load buf (pixelIndex width x y + c)) as [v|]; [|done].
  cbn [fmap option_fmap option_map]. f_equal. unfold blendChannel.
  assert (c = 0 ∨ c = 1 ∨ c = 2) as [-> | [-> | ->]] by lia; simpl;
    rewrite ?Z.add_0_r; reflexivity.
Qed.

Lemma featherPixel_blends_with_own_original_witness :
  load
    (featherStage bandSelection (buildDistMap bandSelection).1 10 3
       (ImageData.data bandImage) (replicate 120 90))
    ((1 * 10 + 4) * 4 + 0)
  = Some 173.
Proof.
  refine (eq_trans
            (proj2 (proj2 (featherPixel_blends_with_own_original bandSelection
                             (buildDistMap bandSelection).1 10 3 4 1
                             (ImageData.data bandImage) (replicate 120 90) 1 0
                             _ _ _ _ _))) _).
  - reflexivity.
  - reflexivity.
  - lia.
  - intros dx dy Hdx Hdy Him.
    apply outOfImage_false in Him. apply isInsideSelection_true. simpl. lia.
  - lia.
  - vm_compute. reflexivity.
Defined.

(** *** Grain *)

Lemma ToUint8Clamp_range f : 0 ≤ ToUint8Clamp f ≤ 255.
Proof.
  unfold ToUint8Clamp. destruct (Prim2SF f) as [s| [|] | |s m e]; try lia.
  destruct s; [lia|].
  destruct (Z.leb_spec 0 e) as [He|He].
  - pose proof (Z.pow_nonneg 2 e ltac:(lia)). nia.
  - cbv zeta.
    pose proof (Z.pow_pos_nonneg 2 (- e) ltac:(lia) ltac:(lia)) as Hpow.
    pose proof (Z.div_pos (Z.pos m) (2 ^ (- e)) ltac:(lia) Hpow) as Hq.
    repeat match goal with |- context [if ?b then _ else _] => destruct b end;
      lia.
Qed.

Lemma grainPixel_channel random width grainStrength x y s c :
  0 ≤ c < 3 →
  load (resultData (grainPixel random width grainStrength x y s))
    (pixelIndex width x y + c)
  = grained grainStrength (random (draws s))
      <$> load (resultData s) (pixelIndex width x y + c).
Proof.
  intros Hc. unfold grainPixel. cbv zeta. simpl resultData.
  rewrite (rewriteRGB_channel (resultData s) (pixelIndex width x y)
             (λ v, grainChannel v (grainNoise grainStrength (random (draws s))))
             (λ v, grainChannel v (grainNoise grainStrength (random (draws s))))
             (λ v, grainChannel v (grainNoise grainStrength (random (draws s))))
             c Hc).
  destruct (load (resultData s) (pixelIndex width x y + c)) as [v|]; [|done].
  simpl. unfold grained. by repeat destruct (c =? _).
Qed.

Lemma grainPixel_other random width grainStrength x y s j :
  (∀ c, 0 ≤ c < 3 → j ≠ pixelIndex width x y + c) →
  load (resultData (grainPixel random width grainStrength x y s)) j
  = load (resultData s) j.
Proof.
  intros Hj. unfold grainPixel. cbv zeta. simpl resultData.
  apply rewriteRGB_other.
  - specialize (Hj 0). lia.
  - apply Hj. lia.
  - apply Hj. lia.
Qed.

(** The grain loop over a list of distinct pixels: bytes that are no channel
    of a listed pixel are kept, every listed pixel of the image gets the
    noise of one draw in all three channels. *)
Lemma grain_fold random width height grainStrength l s :
  NoDup l →
  let step := λ (s : State) (p : Z * Z),
    if outOfImage width height p.1 p.2 then s
    else grainPixel random width grainStrength p.1 p.2 s in
  let s' := foldl step s l in
  (∀ j,
     (∀ p c, p ∈ l → outOfImage width height p.1 p.2 = false → 0 ≤ c < 3 →
             j ≠ pixelIndex width p.1 p.2 + c) →
     load (resultData s') j = load (resultData s) j)
  ∧ (∀ p, p ∈ l → outOfImage width height p.1 p.2 = false →
       ∃ k, (draws s ≤ k < draws s')%nat
            ∧ ∀ c, 0 ≤ c < 3 →
                load (resultData s') (pixelIndex width p.1 p.2 + c)
                = grained grainStrength (random k)
                    <$> load (resultData s) (pixelIndex width p.1 p.2 + c))
  ∧ (draws s ≤ draws s')%nat.
Proof.
  intros Hnd step. revert s.
  induction Hnd as [|p l Hp Hnd IH]; intros s; cbn [foldl]; cbv zeta.
  - split; [done|]. split; [|done]. intros p Hp. by apply elem_of_nil in Hp.
  - destruct (IH (step s p)) as (IH1 & IH2 & IH3).
    assert (Hstep_draws : (draws s ≤ draws (step s p))%nat).
    { unfold step. destruct (outOfImage width height p.1 p.2); simpl; lia. }
    assert (Hstep_other : ∀ j,
              (outOfImage width height p.1 p.2 = false →
               ∀ c, 0 ≤ c < 3 → j ≠ pixelIndex width p.1 p.2 + c) →
              load (resultData (step s p)) j = load (resultData s) j).
    { intros j Hj. unfold step.
      destruct (outOfImage width height p.1 p.2); [done|].
      apply grainPixel_other. by apply Hj. }
    assert (Hdistinct : ∀ q c c',
              q ≠ p →
              outOfImage width height p.1 p.2 = false →
              outOfImage width height q.1 q.2 = false →
              0 ≤ c < 3 → 0 ≤ c' < 3 →
              pixelIndex width q.1 q.2 + c ≠ pixelIndex width p.1 p.2 + c').
    { intros [qx qy] c c' Hne Hpim Hqim Hc Hc' Heq.
      apply outOfImage_false in Hpim, Hqim. simpl in *.
      apply pixelIndex_inj in Heq as (Hx & Hy & _); [|lia..].
      apply Hne. destruct p; simpl in *; congruence. }
    split; [|split].
    + intros j Hj. rewrite IH1.
      * apply Hstep_other. intros Him c Hc. apply (Hj p c); [by left|done..].
      * intros q c Hq Him Hc. apply Hj; [by right|done..].
    + intros q Hq Him. apply elem_of_cons in Hq as [-> | Hq].
      * exists (draws s). split.
        { unfold step in IH3 |- *. rewrite Him in IH3 |- *.
          simpl in IH3. fold step in IH3 |- *. lia. }
        intros c Hc. rewrite IH1.
        { unfold step. rewrite Him. by apply grainPixel_channel. }
        intros q c' Hq Hqim Hc'. apply not_eq_sym.
        apply Hdistinct; [|done..]. intros ->. done.
      * destruct (IH2 q Hq Him) as (k & Hk & Hch).
        exists k. split; [lia|].
        intros c Hc. rewrite (Hch c Hc). f_equal.
        apply Hstep_other. intros Hpim c' Hc'.
        apply Hdistinct; [|done..]. intros ->. done.
    + lia.
Qed.

(** The grain loop over a list of distinct pixels: the pixels of the image
    consume the draws in the order of the list, one each. *)
Lemma grain_fold_indexed random width height grainStrength l :
  NoDup l →
  ∀ s,
  let step := λ (s : State) (p : Z * Z),
    if outOfImage width height p.1 p.2 then s
    else grainPixel random width grainStrength p.1 p.2 s in
  let s' := foldl step s l in
  let pixels := filter (λ p, outOfImage width height p.1 p.2 = false) l in
  draws s' = (draws s + length pixels)%nat
  ∧ ∀ (i : nat) p, pixels !! i = Some p →
      ∀ c, 0 ≤ c < 3 →
        load (resultData s') (pixelIndex width p.1 p.2 + c)
        = grained grainStrength (random (draws s + i)%nat)
            <$> load (resultData s) (pixelIndex width p.1 p.2 + c).
Proof.
  intros Hnd. induction Hnd as [|p l Hp Hnd IH]; intros s; cbn [foldl];
    cbv zeta.
  - split; [simpl; lia|]. intros i p Hp. done.
  - destruct (IH (if outOfImage width height p.1 p.2 then s
                  else grainPixel random width grainStrength p.1 p.2 s))
      as [IHd IHp].
    destruct (grain_fold random width height grainStrength l
                (if outOfImage width height p.1 p.2 then s
                 else grainPixel random width grainStrength p.1 p.2 s) Hnd)
      as (Hframe & _ & _).
    cbv zeta in IHd, IHp, Hframe.
    rewrite filter_cons.
    destruct (outOfImage width height p.1 p.2) eqn:Him.
    + rewrite decide_False by done. split; [exact IHd | exact IHp].
    + rewrite decide_True by done. split.
      * rewrite IHd. simpl. lia.
      * intros [|i] q Hq c Hc.
        -- injection Hq as <-. rewrite Nat.add_0_r, Hframe.
           ++ by apply grainPixel_channel.
           ++ intros q c' Hq Hqim Hc' Heq.
              apply outOfImage_false in Him, Hqim.
              apply pixelIndex_inj in Heq as (Hx & Hy & _); [|lia..].
              apply Hp. destruct p, q; simpl in *; congruence.
        -- cbn [lookup list_lookup] in Hq.
           rewrite (IHp i q Hq c Hc). cbn [draws grainPixel].
           replace (S (draws s) + i)%nat with (draws s + S i)%nat by lia.
           f_equal. apply grainPixel_other. intros c' Hc' Heq.
           apply list_elem_of_lookup_2 in Hq.
           apply list_elem_of_filter in Hq as [Hqim Hq].
           apply outOfImage_false in Him, Hqim.
           apply pixelIndex_inj in Heq as (Hx & Hy & _); [|lia..].
           apply Hp. destruct p, q; simpl in *. congruence.
Qed.

(** C7 (as the code has it). The grain stage runs last: the bytes returned
    are those of the state after feathering with grain added.  The pixels of
    the image inside the selection, taken in row-major order, consume the
    draws of [Math.random()] one each and in that order: the pixel at
    position i gets the draw number (draws made before the stage) + i, and
    the noise (u - 0.5) * grainStrength * 2 of that one draw is added to all
    three of R, G and B (the same value for the three channels, not an
    independent one for each); every resulting byte lies in [0, 255]. *)
Theorem grainStage_one_draw_per_pixel random imageData selection options
    hasSink out trace :
  let opts := ProcessingOptions.spread DEFAULT_OPTIONS options in
  let width := ImageData.width imageData in
  let height := ImageData.height imageData in
  let sel := clampSelection selection width height in
  let textureBank :=
    buildTextureBank imageData sel (ProcessingOptions.margin opts) in
  let grainStrength := ProcessingOptions.grainStrength opts in
  degenerate sel = false →
  textureBank ≠ [] →
  inpaintWatermark random imageData selection options hasSink
    = Returned (out, trace) →
  ∃ s pixels,
    stagesBeforeGrain random imageData sel opts textureBank hasSink
      = Returned s
    ∧ StronglySorted rowMajorLt pixels
    ∧ (∀ x y,
         (x, y) ∈ pixels ↔
           (0 ≤ x < width ∧ 0 ≤ y < height)
           ∧ Selection.x sel ≤ x < Selection.x sel + Selection.width sel
           ∧ Selection.y sel ≤ y < Selection.y sel + Selection.height sel)
    ∧ draws (grainStage random sel width height grainStrength s)
      = (draws s + length pixels)%nat
    ∧ ∀ (i : nat) x y,
        pixels !! i = Some (x, y) →
        let u := random (draws s + i)%nat in
        let noise := ((u - 0.5) * grainStrength * 2)%float in
        ∀ c, 0 ≤ c < 3 →
          load (ImageData.data out) ((y * width + x) * 4 + c)
          = (λ v, ToUint8Clamp
                    (Math_max 0 (Math_min 255 (of_Z v + noise))))
              <$> load (resultData s) ((y * width + x) * 4 + c)
          ∧ ∀ v, load (ImageData.data out) ((y * width + x) * 4 + c)
                 = Some v →
                 0 ≤ v ≤ 255.
Proof.
  cbv zeta. intros Hdeg Hbank Hrun.
  unfold inpaintWatermark in Hrun. cbv zeta in Hrun. rewrite Hdeg in Hrun.
  destruct (buildTextureBank _ _ _) as [|sample bank] eqn:Hb; [done|].
  simpl length in Hrun. cbn [Nat.eqb] in Hrun.
  destruct (stagesBeforeGrain _ _ _ _ _ _) as [s|e] eqn:Hstages;
    [|discriminate].
  change (Returned s ≫= ?k) with (k s) in Hrun. cbv beta in Hrun.
  apply (f_equal (λ r, match r with
                       | Returned (o, _) => ImageData.data o
                       | Raised _ => []
                       end)) in Hrun.
  cbn [ImageData.data] in Hrun. rewrite report_resultData in Hrun.
  set (sel := clampSelection selection (ImageData.width imageData)
                (ImageData.height imageData)) in *.
  set (box := rowMajor (Selection.y sel)
                (Selection.y sel + Selection.height sel) (Selection.x sel)
                (Selection.x sel + Selection.width sel)).
  exists s,
    (filter (λ p, outOfImage (ImageData.width imageData)
                    (ImageData.height imageData) p.1 p.2 = false) box).
  split; [done|].
  split; [apply StronglySorted_filter, rowMajor_sorted|].
  split.
  { intros x y. rewrite list_elem_of_filter. unfold box.
    rewrite elem_of_rowMajor. cbn [fst snd]. rewrite outOfImage_false. lia. }
  destruct (grain_fold_indexed random (ImageData.width imageData)
              (ImageData.height imageData)
              (ProcessingOptions.grainStrength
                 (ProcessingOptions.spread DEFAULT_OPTIONS options))
              box (rowMajor_NoDup _ _ _ _) s) as [Hdraws Hpix].
  cbv zeta in Hdraws, Hpix.
  assert (Hstage : grainStage random sel (ImageData.width imageData)
                     (ImageData.height imageData)
                     (ProcessingOptions.grainStrength
                        (ProcessingOptions.spread DEFAULT_OPTIONS options)) s
                   = foldl (λ s p,
                        if outOfImage (ImageData.width imageData)
                             (ImageData.height imageData) p.1 p.2 then s
                        else grainPixel random (ImageData.width imageData)
                               (ProcessingOptions.grainStrength
                                  (ProcessingOptions.spread DEFAULT_OPTIONS
                                     options)) p.1 p.2 s) s box).
  { unfold grainStage.
    by rewrite (forZ_rowMajor _ _ _ _
                  (λ x y s,
                     if outOfImage (ImageData.width imageData)
                          (ImageData.height imageData) x y then s
                     else grainPixel random (ImageData.width imageData)
                            (ProcessingOptions.grainStrength
                               (ProcessingOptions.spread DEFAULT_OPTIONS
                                  options)) x y s)). }
  rewrite Hstage in Hrun |- *.
  split; [exact Hdraws|].
  intros i x y Hi c Hc. rewrite <- Hrun.
  specialize (Hpix i (x, y) Hi c Hc). cbn [fst snd] in Hpix.
  unfold pixelIndex in Hpix. rewrite Hpix.
  split; [reflexivity|].
  intros v. destruct (load (resultData s) _) as [w|]; [|done].
  intros [= <-]. apply ToUint8Clamp_range.
Qed.

Lemma grainStage_one_draw_per_pixel_witness :
  ∃ s pixels,
    stagesBeforeGrain demoRandom demoImage demoSelection DEFAULT_OPTIONS
      (buildTextureBank demoImage demoSelection 50) true = Returned s
    ∧ StronglySorted rowMajorLt pixels
    ∧ (∀ x y,
         (x, y) ∈ pixels ↔
           (0 ≤ x < 3 ∧ 0 ≤ y < 3) ∧ 1 ≤ x < 1 + 1 ∧ 1 ≤ y < 1 + 1)
    ∧ draws (grainStage demoRandom demoSelection 3 3 2 s)
      = (draws s + length pixels)%nat
    ∧ ∀ (i : nat) x y,
        pixels !! i = Some (x, y) →
        let u := demoRandom (draws s + i)%nat in
        let noise := ((u - 0.5) * 2 * 2)%float in
        ∀ c, 0 ≤ c < 3 →
          load (ImageData.data demoOutput.1) ((y * 3 + x) * 4 + c)
          = (λ v, ToUint8Clamp
                    (Math_max 0 (Math_min 255 (of_Z v + noise))))
              <$> load (resultData s) ((y * 3 + x) * 4 + c)
          ∧ ∀ v, load (ImageData.data demoOutput.1) ((y * 3 + x) * 4 + c)
                 = Some v →
                 0 ≤ v ≤ 255.
Proof.
  apply (grainStage_one_draw_per_pixel demoRandom demoImage demoSelection
           ProcessingOptions.empty true demoOutput.1 demoOutput.2).
  - reflexivity.
  - vm_compute. discriminate.
  - vm_compute; reflexivity.
Defined.

(** C7 as stated fails: in the run on the 3x3 image the state the grain
    stage starts from holds (40, 50, 60) at the selected pixel, two draws
    were made, and the next draws are 0.25, 0.75, 0.25.  The code uses the
    one draw 0.25 for all three channels and returns (39, 49, 59), where an
    independent draw per channel stores (39, 51, 59) and consumes three
    draws. *)
Lemma grain_independent_channels_counterexample :
  ∃ s,
    stagesBeforeGrain demoRandom demoImage demoSelection DEFAULT_OPTIONS
      (buildTextureBank demoImage demoSelection 50) true = Returned s
    ∧ draws s = 2%nat
    ∧ (load (resultData s) 16, load (resultData s) 17, load (resultData s) 18)
      = (Some 40, Some 50, Some 60)
    ∧ inpaintWatermark demoRandom demoImage demoSelection
        ProcessingOptions.empty true = Returned demoOutput
    ∧ (load (ImageData.data demoOutput.1) 16,
       load (ImageData.data demoOutput.1) 17,
       load (ImageData.data demoOutput.1) 18)
      = (Some 39, Some 49, Some 59)
    ∧ (demoRandom 2, demoRandom 3, demoRandom 4)
      = (0.25%float, 0.75%float, 0.25%float)
    ∧ (let s' := grainPixel_independent demoRandom 3 2 1 1 s in
       (load (resultData s') 16, load (resultData s') 17,
        load (resultData s') 18) = (Some 39, Some 51, Some 59)
       ∧ draws s' = 5%nat)
    ∧ draws (grainStage demoRandom demoSelection 3 3 2 s) = 3%nat.
Proof.
  eexists. split; [vm_compute; reflexivity|].
  repeat split; vm_compute; reflexivity.
Qed.

(** *** The distance field *)

Lemma foldl_pointwise {A B : Type} (f g : A → B → A) a l :
  (∀ a b, f a b = g a b) → foldl f a l = foldl g a l.
Proof.
  intros Hfg. revert a. induction l as [|b l IH]; intros a; [done|].
  simpl. by rewrite Hfg, IH.
Qed.

Lemma distMap_fold (w h : Z) (l : list (Z * Z)) (d0 : list Z) (m0 : Z) :
  let dist := λ p : Z * Z,
    Z.min (Z.min (Z.min p.1 (w - 1 - p.1)) p.2) (h - 1 - p.2) in
  let step := λ (acc : list Z * Z) (p : Z * Z),
    (<[Z.to_nat (p.2 * w + p.1) := dist p]> acc.1, Z.max acc.2 (dist p)) in
  length d0 = Z.to_nat (w * h) →
  (∀ p, p ∈ l → 0 ≤ p.1 < w ∧ 0 ≤ p.2 < h) →
  length (foldl step (d0, m0) l).1 = length d0
  ∧ ∀ p, p ∈ l →
      (foldl step (d0, m0) l).1 !! Z.to_nat (p.2 * w + p.1) = Some (dist p).
Proof.
  intros dist step Hlen. induction l as [|p l IH] using rev_ind; intros Hl.
  - split; [done|]. intros p Hp. by apply elem_of_nil in Hp.
  - destruct IH as [IHlen IH].
    { intros q Hq. apply Hl. apply elem_of_app. by left. }
    rewrite foldl_app. cbn [foldl]. unfold step at 1 3. cbn [fst snd].
    split; [by rewrite length_insert|].
    intros q Hq.
    destruct (decide (q = p)) as [->|Hne].
    + apply list_lookup_insert_eq. rewrite IHlen, Hlen.
      destruct (Hl p) as [Hx Hy]; [apply elem_of_app; right; by left|].
      apply Z2Nat.inj_lt; nia.
    + apply elem_of_app in Hq as [Hq|Hq];
        [|apply list_elem_of_singleton in Hq; done].
      rewrite list_lookup_insert_ne; [by apply IH|].
      destruct (Hl p) as [Hx Hy]; [apply elem_of_app; right; by left|].
      destruct (Hl q) as [Hx' Hy']; [apply elem_of_app; by left|].
      intros Heq. apply Z2Nat.inj in Heq; [|nia..].
      apply Hne. destruct p as [px py], q as [qx qy]. simpl in *.
      assert (py = qy) by nia. f_equal; lia.
Qed.

(** Each cell of the distance map holds the distance of its pixel to the
    nearest of the four edges of the selection. *)
Lemma buildDistMap_lookup sel lx ly :
  0 ≤ lx < Selection.width sel →
  0 ≤ ly < Selection.height sel →
  load (buildDistMap sel).1 (ly * Selection.width sel + lx)
  = Some (Z.min (Z.min (Z.min lx (Selection.width sel - 1 - lx)) ly)
            (Selection.height sel - 1 - ly)).
Proof.
  intros Hlx Hly. rewrite load_lookup by nia. unfold buildDistMap.
  rewrite (forZ_rowMajor _ _ _ _
             (λ lx ly (acc : list Z * Z),
                let '(distMap, maxDist) := acc in
                (<[Z.to_nat (ly * Selection.width sel + lx) :=
                     Z.min (Z.min (Z.min lx (Selection.width sel - 1 - lx)) ly)
                       (Selection.height sel - 1 - ly)]> distMap,
                 Z.max maxDist
                   (Z.min (Z.min (Z.min lx (Selection.width sel - 1 - lx)) ly)
                      (Selection.height sel - 1 - ly))))).
  pose proof (distMap_fold (Selection.width sel) (Selection.height sel)
                (rowMajor 0 (Selection.height sel) 0 (Selection.width sel))
                (replicate
                   (Z.to_nat (Selection.width sel * Selection.height sel)) 0)
                0) as Hfold.
  cbv zeta in Hfold. destruct Hfold as [_ Hfold].
  - apply length_replicate.
  - intros [px py] Hp. apply elem_of_rowMajor in Hp. simpl. lia.
  - specialize (Hfold (lx, ly)). simpl in Hfold.
    erewrite foldl_pointwise; [apply Hfold; apply elem_of_rowMajor; lia|].
    intros [distMap maxDist] [px py]. reflexivity.
Qed.

(** *** Causal order of the fill *)

Lemma fillPixel_other random sel distMap width height margin layer x y orig
    bank s s' j :
  fillPixel random sel distMap width height margin layer x y orig bank s
    = Returned s' →
  (∀ c, 0 ≤ c < 3 → j ≠ pixelIndex width x y + c) →
  load (resultData s') j = load (resultData s) j.
Proof.
  unfold fillPixel.
  destruct (injectTexture random bank _ (draws s)) as [[acc drawn]|e];
    [|discriminate].
  change (Returned (acc, drawn) ≫= ?k) with (k (acc, drawn)). cbv beta iota.
  destruct acc as [[[sumR sumG] sumB] totalWeight].
  destruct (0 <? totalWeight)%float; intros [= <-] Hj; [|done].
  simpl. apply rewriteRGB_other.
  - specialize (Hj 0). lia.
  - apply Hj. lia.
  - apply Hj. lia.
Qed.

(** A layer of the fill writes only pixels whose distance-field value is the
    layer. *)
Lemma fillLayer_keeps_other_layers random sel distMap maxDist width height
    margin orig bank hasSink layer s s' qx qy c :
  fillLayer random sel distMap maxDist width height margin orig bank hasSink
    layer s = Returned s' →
  outOfImage width height qx qy = false →
  load distMap
    ((qy - Selection.y sel) * Selection.width sel + (qx - Selection.x sel))
    ≠ Some layer →
  0 ≤ c < 3 →
  load (resultData s') (pixelIndex width qx qy + c)
  = load (resultData s) (pixelIndex width qx qy + c).
Proof.
  intros Hrun Hq Hdist Hc. unfold fillLayer in Hrun.
  destruct (forZM 0 (Selection.height sel) _ s) as [s1|e] eqn:Hloop;
    [|discriminate].
  change (Returned s1 ≫= ?k) with (k s1) in Hrun. cbv beta in Hrun.
  assert (resultData s' = resultData s1) as ->.
  { injection Hrun as <-. destruct (hasSink && (0 <? maxDist)); done. }
  clear Hrun. revert Hloop.
  apply (forZM_invariant
           (λ s', load (resultData s') (pixelIndex width qx qy + c)
                  = load (resultData s) (pixelIndex width qx qy + c)));
    [done|].
  intros ly sa sb Hly Hsa.
  apply (forZM_invariant
           (λ s', load (resultData s') (pixelIndex width qx qy + c)
                  = load (resultData s) (pixelIndex width qx qy + c)));
    [exact Hsa|].
  intros lx sc sd Hlx Hsc.
  destruct (load distMap (ly * Selection.width sel + lx)) as [dist|] eqn:Hd;
    [|by intros [= <-]].
  destruct (Z.eqb_spec dist layer) as [->|Hne]; simpl negb; cbv iota;
    [|by intros [= <-]].
  destruct (outOfImage width height (Selection.x sel + lx)
              (Selection.y sel + ly)) eqn:Him; [by intros [= <-]|].
  intros Hpix. rewrite <- Hsc.
  apply (fillPixel_other _ _ _ _ _ _ _ _ _ _ _ _ _ _ Hpix).
  intros c' Hc' Heq.
  apply outOfImage_false in Him, Hq.
  apply pixelIndex_inj in Heq as (Hx & Hy & _); [|lia..].
  apply Hdist. rewrite <- Hd. f_equal. lia.
Qed.

Lemma forZM_split {S : Type} lo mid hi (body : Z → S → outcome S) s :
  lo ≤ mid ≤ hi →
  forZM lo hi body s = forZM lo mid body s ≫= forZM mid hi body.
Proof.
  intros Hmid. unfold forZM.
  replace (hi - lo) with ((mid - lo) + (hi - mid)) by lia.
  rewrite seqZ_app by lia. rewrite foldl_app.
  replace (lo + (mid - lo)) with mid by lia.
  destruct (foldl _ (Returned s) (seqZ lo (mid - lo))) as [s1|e]; [done|].
  apply foldl_raised.
Qed.

(** The fill stage is the layers below [layer] followed by the layers from
    [layer] on. *)
Lemma fillStage_split random sel distMap maxDist width height margin orig bank
    hasSink layer s :
  0 ≤ layer ≤ maxDist + 1 →
  fillStage random sel distMap maxDist width height margin orig bank hasSink s
  = forZM 0 layer
      (fillLayer random sel distMap maxDist width height margin orig bank
         hasSink) s
    ≫= forZM layer (maxDist + 1)
          (fillLayer random sel distMap maxDist width height margin orig bank
             hasSink).
Proof. intros Hlayer. unfold fillStage. by apply forZM_split. Qed.

(** From the start of layer [layer] to the end of the fill, no pixel with a
    distance-field value below [layer] is written. *)
Lemma fill_tail_keeps_lower_layers random sel distMap maxDist width height
    margin orig bank hasSink layer s s' qx qy c sd :
  forZM layer (maxDist + 1)
    (fillLayer random sel distMap maxDist width height margin orig bank
       hasSink) s = Returned s' →
  outOfImage width height qx qy = false →
  load distMap
    ((qy - Selection.y sel) * Selection.width sel + (qx - Selection.x sel))
    = Some sd →
  sd < layer →
  0 ≤ c < 3 →
  load (resultData s') (pixelIndex width qx qy + c)
  = load (resultData s) (pixelIndex width qx qy + c).
Proof.
  intros Hrun Hq Hsd Hlt Hc. revert Hrun.
  apply (forZM_invariant
           (λ s', load (resultData s') (pixelIndex width qx qy + c)
                  = load (resultData s) (pixelIndex width qx qy + c)));
    [done|].
  intros layer' sa sb Hlayer' Hsa Hstep. rewrite <- Hsa.
  apply (fillLayer_keeps_other_layers _ _ _ _ _ _ _ _ _ _ _ _ _ _ _ _ Hstep);
    [done | | done].
  rewrite Hsd. intros [= ->]. lia.
Qed.

(** ** Further properties of the code *)

(** *** The distance field and the number of layers *)

Lemma buildDistMap_as_fold sel :
  buildDistMap sel
  = foldl (λ (acc : list Z * Z) (p : Z * Z),
             (<[Z.to_nat (p.2 * Selection.width sel + p.1) :=
                  Z.min (Z.min (Z.min p.1 (Selection.width sel - 1 - p.1)) p.2)
                    (Selection.height sel - 1 - p.2)]> acc.1,
              Z.max acc.2
                (Z.min (Z.min (Z.min p.1 (Selection.width sel - 1 - p.1)) p.2)
                   (Selection.height sel - 1 - p.2))))
      (replicate (Z.to_nat (Selection.width sel * Selection.height sel)) 0, 0)
      (rowMajor 0 (Selection.height sel) 0 (Selection.width sel)).
Proof.
  unfold buildDistMap.
  rewrite (forZ_rowMajor _ _ _ _
             (λ lx ly (acc : list Z * Z),
                let '(distMap, maxDist) := acc in
                (<[Z.to_nat (ly * Selection.width sel + lx) :=
                     Z.min (Z.min (Z.min lx (Selection.width sel - 1 - lx)) ly)
                       (Selection.height sel - 1 - ly)]> distMap,
                 Z.max maxDist
                   (Z.min (Z.min (Z.min lx (Selection.width sel - 1 - lx)) ly)
                      (Selection.height sel - 1 - ly))))).
  apply foldl_pointwise. intros [distMap maxDist] [px py]. reflexivity.
Qed.

Lemma foldl_max_snd {A : Type} (f : list Z * Z → A → list Z) (g : A → Z)
    (l : list A) d0 m0 :
  (foldl (λ acc p, (f acc p, Z.max acc.2 (g p))) (d0, m0) l).2
  = foldl (λ m p, Z.max m (g p)) m0 l.
Proof.
  revert d0 m0. induction l as [|p l IH]; intros d0 m0; [done|].
  simpl. apply IH.
Qed.

Lemma foldl_max_bounds {A : Type} (g : A → Z) (l : list A) m0 :
  m0 ≤ foldl (λ m p, Z.max m (g p)) m0 l
  ∧ (∀ p, p ∈ l → g p ≤ foldl (λ m p, Z.max m (g p)) m0 l)
  ∧ (∀ B, m0 ≤ B → (∀ p, p ∈ l → g p ≤ B) →
          foldl (λ m p, Z.max m (g p)) m0 l ≤ B).
Proof.
  revert m0. induction l as [|q l IH]; intros m0; simpl.
  - split; [lia|]. split; [intros p Hp; by apply elem_of_nil in Hp|].
    intros B HB _. exact HB.
  - destruct (IH (Z.max m0 (g q))) as (IH1 & IH2 & IH3).
    split; [lia|]. split.
    + intros p Hp. apply elem_of_cons in Hp as [-> | Hp]; [lia|].
      by apply IH2.
    + intros B HB Hl. apply IH3.
      * specialize (Hl q ltac:(by left)). lia.
      * intros p Hp. apply Hl. by right.
Qed.

(** X1. Every cell of the distance map holds the distance of its pixel to the
    nearest of the four edges of the selection, min(lx, width-1-lx, ly,
    height-1-ly), and the map has width * height cells. *)
Theorem distMap_is_edge_distance sel lx ly :
  0 ≤ lx < Selection.width sel →
  0 ≤ ly < Selection.height sel →
  load (buildDistMap sel).1 (ly * Selection.width sel + lx)
  = Some (Z.min (Z.min lx (Selection.width sel - 1 - lx))
            (Z.min ly (Selection.height sel - 1 - ly)))
  ∧ length (buildDistMap sel).1
    = Z.to_nat (Selection.width sel * Selection.height sel).
Proof.
  intros Hlx Hly. split.
  - rewrite (buildDistMap_lookup sel lx ly Hlx Hly). f_equal. lia.
  - rewrite buildDistMap_as_fold.
    pose proof (distMap_fold (Selection.width sel) (Selection.height sel)
                  (rowMajor 0 (Selection.height sel) 0 (Selection.width sel))
                  (replicate
                     (Z.to_nat (Selection.width sel * Selection.height sel)) 0)
                  0) as Hfold.
    cbv zeta in Hfold. destruct Hfold as [Hlen _].
    + apply length_replicate.
    + intros [px py] Hp. apply elem_of_rowMajor in Hp. simpl. lia.
    + rewrite Hlen. apply length_replicate.
Qed.

Lemma distMap_is_edge_distance_witness :
  load (buildDistMap gridSelection).1 (1 * 3 + 1) = Some 1
  ∧ length (buildDistMap gridSelection).1 = 9%nat.
Proof.
  exact (distMap_is_edge_distance gridSelection 1 1
           ltac:(simpl; lia) ltac:(simpl; lia)).
Defined.

(** X2. For a selection with positive width and height the maximum of the
    distance field, the number of the last layer of the fill, is
    (min(width, height) - 1) / 2 rounded down; it is 0 exactly when the
    selection is at most 2 pixels wide or high. *)
Theorem maxDist_closed_form sel :
  0 < Selection.width sel →
  0 < Selection.height sel →
  (buildDistMap sel).2
  = (Z.min (Selection.width sel) (Selection.height sel) - 1) / 2
  ∧ ((buildDistMap sel).2 = 0
     ↔ Selection.width sel ≤ 2 ∨ Selection.height sel ≤ 2).
Proof.
  intros Hw Hh.
  assert ((buildDistMap sel).2
          = (Z.min (Selection.width sel) (Selection.height sel) - 1) / 2)
    as Hmax.
  { rewrite buildDistMap_as_fold.
    set (g := λ p : Z * Z,
           Z.min (Z.min (Z.min p.1 (Selection.width sel - 1 - p.1)) p.2)
             (Selection.height sel - 1 - p.2)).
    rewrite (foldl_max_snd
               (λ acc p,
                  <[Z.to_nat (p.2 * Selection.width sel + p.1) := g p]> acc.1)
               g).
    destruct (foldl_max_bounds g
                (rowMajor 0 (Selection.height sel) 0 (Selection.width sel)) 0)
      as (_ & Hge & Hle).
    unfold g in Hge, Hle |- *.
    apply Z.le_antisymm.
    - apply Hle; [apply Z.div_pos; lia|].
      intros [px py] Hp. apply elem_of_rowMajor in Hp. simpl.
      apply Z.div_le_lower_bound; lia.
    - etrans; [|apply (Hge ((Selection.width sel - 1) / 2,
                            (Selection.height sel - 1) / 2))].
      + simpl.
        pose proof (Z.div_mod (Selection.width sel - 1) 2 ltac:(lia)).
        pose proof (Z.mod_pos_bound (Selection.width sel - 1) 2 ltac:(lia)).
        pose proof (Z.div_mod (Selection.height sel - 1) 2 ltac:(lia)).
        pose proof (Z.mod_pos_bound (Selection.height sel - 1) 2 ltac:(lia)).
        pose proof (Z.div_mod
                      (Z.min (Selection.width sel) (Selection.height sel) - 1)
                      2 ltac:(lia)).
        pose proof (Z.mod_pos_bound
                      (Z.min (Selection.width sel) (Selection.height sel) - 1)
                      2 ltac:(lia)).
        lia.
      + apply elem_of_rowMajor.
        pose proof (Z.div_pos (Selection.width sel - 1) 2 ltac:(lia)
                      ltac:(lia)).
        pose proof (Z.div_pos (Selection.height sel - 1) 2 ltac:(lia)
                      ltac:(lia)).
        pose proof (Z.div_le_upper_bound (Selection.width sel - 1) 2
                      (Selection.width sel - 1) ltac:(lia) ltac:(lia)).
        pose proof (Z.div_le_upper_bound (Selection.height sel - 1) 2
                      (Selection.height sel - 1) ltac:(lia) ltac:(lia)).
        lia. }
  split; [exact Hmax|]. rewrite Hmax.
  pose proof (Z.div_mod
                (Z.min (Selection.width sel) (Selection.height sel) - 1)
                2 ltac:(lia)).
  pose proof (Z.mod_pos_bound
                (Z.min (Selection.width sel) (Selection.height sel) - 1)
                2 ltac:(lia)).
  lia.
Qed.

Lemma maxDist_closed_form_witness :
  (buildDistMap gridSelection).2 = 1
  ∧ ((buildDistMap gridSelection).2 = 0 ↔ 3 ≤ 2 ∨ 3 ≤ 2).
Proof.
  exact (maxDist_closed_form gridSelection ltac:(simpl; lia)
           ltac:(simpl; lia)).
Defined.

(** *** Clamping, auto-detection and the texture bank *)

Lemma selection_eta (sel : Selection.t) x y w h :
  Selection.x sel = x → Selection.y sel = y →
  Selection.width sel = w → Selection.height sel = h →
  sel = {| Selection.x := x; Selection.y := y;
           Selection.width := w; Selection.height := h |}.
Proof. destruct sel. simpl. by intros -> -> -> ->. Qed.

Lemma clampSelection_fixpoint sel width height :
  withinImage sel width height → clampSelection sel width height = sel.
Proof.
  intros (Hx & Hy & Hxw & Hyh & Hw & Hh).
  symmetry. apply selection_eta; simpl; lia.
Qed.

Lemma withinImage_not_degenerate sel width height :
  withinImage sel width height → degenerate sel = false.
Proof.
  intros (_ & _ & _ & _ & Hw & Hh). unfold degenerate.
  apply orb_false_iff. lia.
Qed.

Lemma autoDetectWatermark_withinImage width height :
  1 ≤ width → 1 ≤ height →
  withinImage (autoDetectWatermark width height) width height.
Proof. intros Hw Hh. unfold withinImage, autoDetectWatermark. simpl. lia. Qed.

(** X3. A selection that already satisfies the invariant (inside the image,
    positive width and height) is left as it is by the clamping step and is
    not degenerate. *)
Theorem clampSelection_keeps_valid_selection sel width height :
  withinImage sel width height →
  clampSelection sel width height = sel ∧ degenerate sel = false.
Proof.
  intros Hsel. split.
  - by apply clampSelection_fixpoint.
  - by apply (withinImage_not_degenerate sel width height).
Qed.

Lemma clampSelection_keeps_valid_selection_witness :
  clampSelection gridSelection 5 5 = gridSelection
  ∧ degenerate gridSelection = false.
Proof.
  apply (clampSelection_keeps_valid_selection gridSelection 5 5).
  unfold withinImage. simpl. lia.
Defined.

(** X4. On every image of at least 1x1 pixels the auto-detected rectangle
    lies inside the image with positive width and height, so the clamping
    step of [inpaintWatermark] leaves it unchanged. *)
Theorem autoDetectWatermark_needs_no_clamping width height :
  1 ≤ width → 1 ≤ height →
  withinImage (autoDetectWatermark width height) width height
  ∧ clampSelection (autoDetectWatermark width height) width height
    = autoDetectWatermark width height.
Proof.
  intros Hw Hh.
  pose proof (autoDetectWatermark_withinImage width height Hw Hh) as Hin.
  split; [exact Hin | by apply clampSelection_fixpoint].
Qed.

Lemma autoDetectWatermark_needs_no_clamping_witness :
  withinImage (autoDetectWatermark 400 300) 400 300
  ∧ clampSelection (autoDetectWatermark 400 300) 400 300
    = autoDetectWatermark 400 300.
Proof.
  apply (autoDetectWatermark_needs_no_clamping 400 300); lia.
Defined.

Lemma buildTextureBank_nonempty imageData selection margin x y :
  (x, y) ∈ scanBox imageData selection margin →
  isInsideSelection x y selection = false →
  buildTextureBank imageData selection margin ≠ [].
Proof.
  intros Hbox Hout. rewrite buildTextureBank_ring.
  assert ((x, y) ∈ ringPixels imageData selection margin) as Hring.
  { unfold ringPixels. apply list_elem_of_filter. by split. }
  destruct (ringPixels imageData selection margin) as [|p l];
    [by apply elem_of_nil in Hring | done].
Qed.

Lemma buildTextureBank_no_margin imageData selection margin :
  margin ≤ 0 → buildTextureBank imageData selection margin = [].
Proof.
  intros Hm. rewrite buildTextureBank_ring. unfold ringPixels.
  match goal with |- _ <$> ?l = [] => assert (l = []) as ->; [|done] end.
  apply elem_of_nil_inv. intros [x y] Hp.
  apply list_elem_of_filter in Hp as [Hout Hbox]. simpl in Hout.
  unfold scanBox in Hbox. apply elem_of_rowMajor in Hbox.
  apply isInsideSelection_false in Hout. lia.
Qed.

(** The two early returns of [inpaintWatermark]. *)
Lemma inpaintWatermark_skips random imageData selection options hasSink :
  degenerate
    (clampSelection selection (ImageData.width imageData)
       (ImageData.height imageData)) = true
  ∨ buildTextureBank imageData
      (clampSelection selection (ImageData.width imageData)
         (ImageData.height imageData))
      (ProcessingOptions.margin
         (ProcessingOptions.spread DEFAULT_OPTIONS options)) = [] →
  inpaintWatermark random imageData selection options hasSink
  = Returned (imageData, []).
Proof.
  intros Hcase. unfold inpaintWatermark. cbv zeta.
  destruct (degenerate _); [done|].
  destruct Hcase as [Hcase | Hcase]; [done|]. by rewrite Hcase.
Qed.

(** X5. With a margin of 0 or less the scanned box lies inside the selection,
    the texture bank is empty, and [inpaintWatermark] returns the input image
    unchanged without reporting progress, whatever the selection. *)
Theorem inpaintWatermark_without_margin_is_noop random imageData selection
    options hasSink :
  ProcessingOptions.margin (ProcessingOptions.spread DEFAULT_OPTIONS options)
    ≤ 0 →
  (∀ sel, buildTextureBank imageData sel
            (ProcessingOptions.margin
               (ProcessingOptions.spread DEFAULT_OPTIONS options)) = [])
  ∧ inpaintWatermark random imageData selection options hasSink
    = Returned (imageData, []).
Proof.
  intros Hm. split.
  - intros sel. by apply buildTextureBank_no_margin.
  - apply inpaintWatermark_skips. right. by apply buildTextureBank_no_margin.
Qed.

Lemma inpaintWatermark_without_margin_is_noop_witness :
  (∀ sel, buildTextureBank demoImage sel 0 = [])
  ∧ inpaintWatermark demoRandom demoImage demoSelection
      {| ProcessingOptions.autoDetect' := None;
         ProcessingOptions.passes' := None;
         ProcessingOptions.margin' := Some 0;
         ProcessingOptions.grainStrength' := None;
         ProcessingOptions.textureInjectionProbability' := None |} true
    = Returned (demoImage, []).
Proof.
  apply (inpaintWatermark_without_margin_is_noop demoRandom demoImage
           demoSelection
           {| ProcessingOptions.autoDetect' := None;
              ProcessingOptions.passes' := None;
              ProcessingOptions.margin' := Some 0;
              ProcessingOptions.grainStrength' := None;
              ProcessingOptions.textureInjectionProbability' := None |} true).
  simpl. lia.
Defined.

Lemma buildTextureBank_empty_iff_full imageData sel margin :
  withinImage sel (ImageData.width imageData) (ImageData.height imageData) →
  1 ≤ margin →
  buildTextureBank imageData sel margin = []
  ↔ sel = {| Selection.x := 0; Selection.y := 0;
             Selection.width := ImageData.width imageData;
             Selection.height := ImageData.height imageData |}.
Proof.
  intros (Hx & Hy & Hxw & Hyh & Hw & Hh) Hm. split.
  - intros Hempty.
    assert (∀ x y, (x, y) ∈ scanBox imageData sel margin →
                   isInsideSelection x y sel = true) as Hall.
    { intros x y Hbox.
      destruct (isInsideSelection x y sel) eqn:Hin; [done|].
      by destruct (buildTextureBank_nonempty imageData sel margin x y). }
    assert (∀ x y,
              Z.max 0 (Selection.x sel - margin) ≤ x
                < Z.min (ImageData.width imageData)
                    (Selection.x sel + Selection.width sel + margin) →
              Z.max 0 (Selection.y sel - margin) ≤ y
                < Z.min (ImageData.height imageData)
                    (Selection.y sel + Selection.height sel + margin) →
              Selection.x sel ≤ x < Selection.x sel + Selection.width sel
              ∧ Selection.y sel ≤ y
                  < Selection.y sel + Selection.height sel) as Hbox.
    { intros x y Hxr Hyr. apply isInsideSelection_true, Hall.
      unfold scanBox. apply elem_of_rowMajor. lia. }
    apply selection_eta.
    + destruct (Z.eq_dec (Selection.x sel) 0) as [|Hne]; [done|].
      specialize (Hbox (Selection.x sel - 1) (Selection.y sel)). lia.
    + destruct (Z.eq_dec (Selection.y sel) 0) as [|Hne]; [done|].
      specialize (Hbox (Selection.x sel) (Selection.y sel - 1)). lia.
    + destruct (Z.eq_dec (Selection.x sel + Selection.width sel)
                  (ImageData.width imageData)) as [Heq|Hne].
      * destruct (Z.eq_dec (Selection.x sel) 0) as [|Hne]; [lia|].
        specialize (Hbox (Selection.x sel - 1) (Selection.y sel)). lia.
      * specialize (Hbox (Selection.x sel + Selection.width sel)
                      (Selection.y sel)). lia.
    + destruct (Z.eq_dec (Selection.y sel + Selection.height sel)
                  (ImageData.height imageData)) as [Heq|Hne].
      * destruct (Z.eq_dec (Selection.y sel) 0) as [|Hne]; [lia|].
        specialize (Hbox (Selection.x sel) (Selection.y sel - 1)). lia.
      * specialize (Hbox (Selection.x sel)
                      (Selection.y sel + Selection.height sel)). lia.
  - intros ->. apply buildTextureBank_full_image.
Qed.

(** X6. For a selection inside the image and a margin of at least 1, the
    texture bank is empty exactly when the selection covers the whole image:
    any uncovered row or column next to the selection supplies a sample. *)
Theorem textureBank_empty_only_for_full_image imageData sel margin :
  withinImage sel (ImageData.width imageData) (ImageData.height imageData) →
  1 ≤ margin →
  buildTextureBank imageData sel margin = []
  ↔ sel = {| Selection.x := 0; Selection.y := 0;
             Selection.width := ImageData.width imageData;
             Selection.height := ImageData.height imageData |}.
Proof. apply buildTextureBank_empty_iff_full. Qed.

Lemma textureBank_empty_only_for_full_image_witness :
  buildTextureBank demoImage demoSelection 1 = []
  ↔ demoSelection = {| Selection.x := 0; Selection.y := 0;
                       Selection.width := 3; Selection.height := 3 |}.
Proof.
  apply (textureBank_empty_only_for_full_image demoImage demoSelection 1).
  - unfold withinImage. simpl. lia.
  - lia.
Defined.

(** *** The shape of the returned buffer *)

Section StoreClosed.

(** Any property of buffers that a single store keeps is kept by every
    stage. *)
Variable P : list Z → Prop.
Hypothesis P_store : ∀ buf i v, P buf → P (store buf i v).

Lemma storeRGB_closed buf idx r g b :
  P buf → P (store (store (store buf idx r) (idx + 1) g) (idx + 2) b).
Proof using P_store. intros Hbuf. by do 3 apply P_store. Qed.

Lemma prefill_closed sel width height avg buf :
  P buf → P (prefill sel width height avg buf).
Proof using P_store.
  intros Hbuf. unfold prefill. destruct avg as [[avgR avgG] avgB].
  apply (forZ_invariant P); [exact Hbuf|]. intros y b _ Hb.
  apply (forZ_invariant P); [exact Hb|]. intros x b' _ Hb'.
  destruct (_ && _); [|exact Hb']. by apply storeRGB_closed.
Qed.

Lemma fillPixel_closed random sel distMap width height margin layer x y orig
    bank s s' :
  fillPixel random sel distMap width height margin layer x y orig bank s
    = Returned s' →
  P (resultData s) → P (resultData s').
Proof using P_store.
  unfold fillPixel.
  destruct (injectTexture random bank _ (draws s)) as [[acc drawn]|e];
    [|discriminate].
  change (Returned (acc, drawn) ≫= ?k) with (k (acc, drawn)). cbv beta iota.
  destruct acc as [[[sumR sumG] sumB] totalWeight].
  destruct (0 <? totalWeight)%float; intros [= <-] Hs; simpl; [|exact Hs].
  by apply storeRGB_closed.
Qed.

Lemma fillStage_closed random sel distMap maxDist width height margin orig
    bank hasSink s s' :
  fillStage random sel distMap maxDist width height margin orig bank hasSink s
    = Returned s' →
  P (resultData s) → P (resultData s').
Proof using P_store.
  intros Hrun Hs. revert Hrun. unfold fillStage.
  apply (forZM_invariant (λ s', P (resultData s'))); [exact Hs|].
  intros layer sa sb _ Hsa. unfold fillLayer.
  destruct (forZM 0 (Selection.height sel) _ sa) as [s1|e] eqn:Hloop;
    [|discriminate].
  change (Returned s1 ≫= ?k) with (k s1). cbv beta. intros [= <-].
  assert (P (resultData s1)) as Hs1.
  { revert Hloop.
    apply (forZM_invariant (λ s', P (resultData s'))); [exact Hsa|].
    intros ly sc sd _ Hsc.
    apply (forZM_invariant (λ s', P (resultData s'))); [exact Hsc|].
    intros lx se sf _ Hse.
    destruct (load distMap _) as [dist|]; [|by intros [= <-]].
    destruct (negb (dist =? layer)); [by intros [= <-]|].
    destruct (outOfImage width height (Selection.x sel + lx)
                (Selection.y sel + ly)); [by intros [= <-]|].
    intros Hpix. by apply (fillPixel_closed _ _ _ _ _ _ _ _ _ _ _ _ _ Hpix). }
  destruct (hasSink && (0 <? maxDist)); exact Hs1.
Qed.

Lemma smoothStage_closed sel width height passes hasSink s :
  P (resultData s) →
  P (resultData (smoothStage sel width height passes hasSink s)).
Proof using P_store.
  intros Hs. unfold smoothStage.
  apply (forZ_invariant (λ s', P (resultData s'))); [exact Hs|].
  intros pass s1 _ Hs1. rewrite report_resultData. simpl. unfold smoothPass.
  apply (forZ_invariant P); [exact Hs1|]. intros y b _ Hb.
  apply (forZ_invariant P); [exact Hb|]. intros x b' _ Hb'.
  destruct (outOfImage width height x y); [exact Hb'|].
  destruct (boxSums width height x y (resultData s1))
    as [[[sumR sumG] sumB] count].
  destruct (0 <? count); [|exact Hb']. by apply storeRGB_closed.
Qed.

Lemma featherStage_closed sel distMap width height orig buf :
  P buf → P (featherStage sel distMap width height orig buf).
Proof using P_store.
  intros Hbuf. unfold featherStage.
  apply (forZ_invariant P); [exact Hbuf|]. intros y b _ Hb.
  apply (forZ_invariant P); [exact Hb|]. intros x b' _ Hb'.
  destruct (outOfImage width height x y); [exact Hb'|].
  unfold featherPixel. cbv zeta.
  destruct (load distMap _) as [distToEdge|]; [|exact Hb'].
  destruct (distToEdge <? 4); [|exact Hb'].
  destruct (nearestOutside sel width height x y orig) as [[[? nR] nG] nB].
  by apply storeRGB_closed.
Qed.

Lemma grainStage_closed random sel width height grainStrength s :
  P (resultData s) →
  P (resultData (grainStage random sel width height grainStrength s)).
Proof using P_store.
  intros Hs. unfold grainStage.
  apply (forZ_invariant (λ s', P (resultData s'))); [exact Hs|].
  intros y s1 _ Hs1.
  apply (forZ_invariant (λ s', P (resultData s'))); [exact Hs1|].
  intros x s2 _ Hs2.
  destruct (outOfImage width height x y); [exact Hs2|].
  unfold grainPixel. simpl. by apply storeRGB_closed.
Qed.

Lemma inpaintWatermark_closed random imageData selection options hasSink out
    trace :
  inpaintWatermark random imageData selection options hasSink
    = Returned (out, trace) →
  P (ImageData.data imageData) → P (ImageData.data out).
Proof using P_store.
  unfold inpaintWatermark. cbv zeta.
  destruct (degenerate _); [by intros [= <- _]|].
  destruct (length _ =? 0)%nat; [by intros [= <- _]|].
  destruct (stagesBeforeGrain _ _ _ _ _ _) as [s|e] eqn:Hstages;
    [|discriminate].
  change (Returned s ≫= ?k) with (k s). cbv beta.
  intros Hrun Hin.
  apply (f_equal (λ r, match r with
                       | Returned (o, _) => ImageData.data o
                       | Raised _ => []
                       end)) in Hrun.
  cbn [ImageData.data] in Hrun. rewrite report_resultData in Hrun.
  rewrite <- Hrun. apply grainStage_closed.
  revert Hstages. unfold stagesBeforeGrain. cbv zeta.
  destruct (buildDistMap _) as [distMap maxDist].
  destruct (fillStage _ _ _ _ _ _ _ _ _ _ _) as [s1|e] eqn:Hfill;
    [|discriminate].
  change (Returned s1 ≫= ?k) with (k s1). cbv beta.
  intros [= <-]. simpl.
  apply featherStage_closed. rewrite report_resultData.
  apply smoothStage_closed. rewrite report_resultData.
  apply (fillStage_closed _ _ _ _ _ _ _ _ _ _ _ _ Hfill).
  rewrite report_resultData. simpl. by apply prefill_closed.
Qed.

End StoreClosed.

Lemma store_length buf i v : length (store buf i v) = length buf.
Proof. unfold store. destruct (i <? 0); [done | apply length_insert]. Qed.

Lemma store_validBuffer n buf i v :
  validBuffer n buf → validBuffer n (store buf i v).
Proof.
  intros [Hlen Hbytes]. unfold store. destruct (i <? 0); [done|].
  split; [by rewrite length_insert|].
  apply Forall_insert; [exact Hbytes | apply ToUint8Clamp_range].
Qed.

Lemma inpaintWatermark_dimensions random imageData selection options hasSink
    out trace :
  inpaintWatermark random imageData selection options hasSink
    = Returned (out, trace) →
  ImageData.width out = ImageData.width imageData
  ∧ ImageData.height out = ImageData.height imageData.
Proof.
  unfold inpaintWatermark. cbv zeta.
  destruct (degenerate _); [by intros [= <- _]|].
  destruct (length _ =? 0)%nat; [by intros [= <- _]|].
  destruct (stagesBeforeGrain _ _ _ _ _ _) as [s|e]; [|discriminate].
  change (Returned s ≫= ?k) with (k s). cbv beta.
  by intros [= <- _].
Qed.

(** X7. The image [inpaintWatermark] returns has the width and height of the
    input and a buffer of the same length; when the input buffer holds bytes
    (0..255), so does the returned one. *)
Theorem inpaintWatermark_keeps_shape random imageData selection options
    hasSink out trace :
  inpaintWatermark random imageData selection options hasSink
    = Returned (out, trace) →
  ImageData.width out = ImageData.width imageData
  ∧ ImageData.height out = ImageData.height imageData
  ∧ length (ImageData.data out) = length (ImageData.data imageData)
  ∧ (Forall (λ v, 0 ≤ v ≤ 255) (ImageData.data imageData) →
     Forall (λ v, 0 ≤ v ≤ 255) (ImageData.data out)).
Proof.
  intros Hrun.
  destruct (inpaintWatermark_dimensions _ _ _ _ _ _ _ Hrun) as [Hw Hh].
  split; [exact Hw|]. split; [exact Hh|]. split.
  - apply (inpaintWatermark_closed
             (λ buf, length buf = length (ImageData.data imageData))
             (λ buf i v Hbuf, eq_trans (store_length buf i v) Hbuf)
             _ _ _ _ _ _ _ Hrun).
    reflexivity.
  - intros Hbytes.
    apply (inpaintWatermark_closed
             (validBuffer (length (ImageData.data imageData)))
             (store_validBuffer _) _ _ _ _ _ _ _ Hrun).
    by split.
Qed.

Lemma inpaintWatermark_keeps_shape_witness :
  ImageData.width demoOutput.1 = 3
  ∧ ImageData.height demoOutput.1 = 3
  ∧ length (ImageData.data demoOutput.1) = 36%nat
  ∧ (Forall (λ v, 0 ≤ v ≤ 255) (ImageData.data demoImage) →
     Forall (λ v, 0 ≤ v ≤ 255) (ImageData.data demoOutput.1)).
Proof.
  exact (inpaintWatermark_keeps_shape demoRandom demoImage demoSelection
           ProcessingOptions.empty true demoOutput.1 demoOutput.2
           ltac:(vm_compute; reflexivity)).
Defined.

(** *** Progress reports of a whole run *)

Lemma inpaintWatermark_silent random imageData selection options out trace :
  inpaintWatermark random imageData selection options false
    = Returned (out, trace) →
  trace = [].
Proof.
  unfold inpaintWatermark. cbv zeta.
  destruct (degenerate _); [by intros [= _ <-]|].
  destruct (length _ =? 0)%nat; [by intros [= _ <-]|].
  destruct (stagesBeforeGrain _ _ _ _ _ _) as [s|e] eqn:Hstages;
    [|discriminate].
  change (Returned s ≫= ?k) with (k s). cbv beta.
  intros Hrun.
  apply (f_equal (λ r, match r with
                       | Returned (_, t) => t
                       | Raised _ => []
                       end)) in Hrun.
  cbn [reported report] in Hrun. rewrite grainStage_reported in Hrun.
  rewrite <- Hrun. clear Hrun.
  revert Hstages. unfold stagesBeforeGrain. cbv zeta.
  destruct (buildDistMap _) as [distMap maxDist].
  destruct (fillStage _ _ _ _ _ _ _ _ _ _ _) as [s1|e] eqn:Hfill;
    [|discriminate].
  change (Returned s1 ≫= ?k) with (k s1). cbv beta.
  intros [= <-]. cbn [reported report setResult].
  rewrite smoothStage_reported. cbn [report].
  apply fillStage_reported in Hfill. cbn [report reported andb] in Hfill.
  rewrite Hfill. reflexivity.
Qed.

(** X8. A run that passes both guards reports to its sink exactly: 20; then,
    when the last layer maxDist is positive, 20 + layer / maxDist * 50 for
    each layer 0..maxDist; 75; 75 + (pass + 1) / passes * 15 for each
    smoothing pass; 92; 100.  Without a sink nothing is reported. *)
Theorem inpaintWatermark_reports random imageData selection options hasSink
    out trace :
  let opts := ProcessingOptions.spread DEFAULT_OPTIONS options in
  let sel := clampSelection selection (ImageData.width imageData)
               (ImageData.height imageData) in
  let maxDist := (buildDistMap sel).2 in
  let passes := ProcessingOptions.passes opts in
  degenerate sel = false →
  buildTextureBank imageData sel (ProcessingOptions.margin opts) ≠ [] →
  inpaintWatermark random imageData selection options hasSink
    = Returned (out, trace) →
  trace
  = if hasSink then
      [20%float]
      ++ (if 0 <? maxDist
          then (λ layer, (20 + of_Z layer / of_Z maxDist * 50)%float)
                 <$> seqZ 0 (maxDist + 1)
          else [])
      ++ [75%float]
      ++ ((λ pass, (75 + of_Z (pass + 1) / of_Z passes * 15)%float)
            <$> seqZ 0 passes)
      ++ [92%float; 100%float]
    else [].
Proof.
  cbv zeta. intros Hdeg Hbank Hrun. destruct hasSink.
  - by apply (inpaintWatermark_trace _ _ _ _ _ _ Hdeg Hbank Hrun).
  - by apply (inpaintWatermark_silent _ _ _ _ _ _ Hrun).
Qed.

Lemma inpaintWatermark_reports_witness :
  demoOutput.2
  = [20%float] ++ [] ++ [75%float]
    ++ ((λ pass, (75 + of_Z (pass + 1) / of_Z 8 * 15)%float) <$> seqZ 0 8)
    ++ [92%float; 100%float].
Proof.
  exact (inpaintWatermark_reports demoRandom demoImage demoSelection
           ProcessingOptions.empty true demoOutput.1 demoOutput.2
           ltac:(reflexivity) ltac:(vm_compute; discriminate)
           ltac:(vm_compute; reflexivity)).
Defined.

(** *** Pre-fill and smoothing *)

Lemma inImage_negb width height x y :
  (0 <=? x) && (x <? width) && (0 <=? y) && (y <? height)
  = negb (outOfImage width height x y).
Proof.
  unfold outOfImage.
  destruct (Z.leb_spec 0 x), (Z.ltb_spec x width), (Z.leb_spec 0 y),
    (Z.ltb_spec y height), (Z.ltb_spec x 0), (Z.leb_spec width x),
    (Z.ltb_spec y 0), (Z.leb_spec height y); simpl; try reflexivity; lia.
Qed.

(** Three stores of values that do not depend on the buffer. *)
Lemma storeRGB_channel buf idx (vR vG vB : float) c :
  0 ≤ c < 3 →
  load (store (store (store buf idx vR) (idx + 1) vG) (idx + 2) vB) (idx + c)
  = (λ _, ToUint8Clamp (if c =? 0 then vR else if c =? 1 then vG else vB))
      <$> load buf (idx + c).
Proof.
  intros Hc.
  pose proof (rewriteRGB_channel buf idx (λ _, vR) (λ _, vG) (λ _, vB) c Hc)
    as Hch.
  cbv zeta in Hch. rewrite Hch. by repeat destruct (c =? _).
Qed.

(** X9. After step 1 every pixel of the image inside the selection holds, in
    R, G and B, the mean colour of the texture bank (as a byte): no colour of
    the input survives inside the selection at that point. *)
Theorem prefill_paints_mean_colour sel width height avgR avgG avgB buf x y c :
  outOfImage width height x y = false →
  isInsideSelection x y sel = true →
  0 ≤ c < 3 →
  load (prefill sel width height (avgR, avgG, avgB) buf)
    (pixelIndex width x y + c)
  = (λ _, ToUint8Clamp (if c =? 0 then avgR else if c =? 1 then avgG else avgB))
      <$> load buf (pixelIndex width x y + c).
Proof.
  intros Him Hin Hc. unfold prefill.
  rewrite (forZ_rowMajor _ _ _ _
             (λ x y b,
                if (0 <=? x) && (x <? width) && (0 <=? y) && (y <? height)
                then store (store (store b (pixelIndex width x y) avgR)
                              (pixelIndex width x y + 1) avgG)
                       (pixelIndex width x y + 2) avgB
                else b)).
  rewrite (foldl_pointwise _
             (λ b (p : Z * Z),
                if outOfImage width height p.1 p.2 then b
                else store (store (store b (pixelIndex width p.1 p.2) avgR)
                              (pixelIndex width p.1 p.2 + 1) avgG)
                       (pixelIndex width p.1 p.2 + 2) avgB)).
  2:{ intros b [px py]. simpl. rewrite inImage_negb.
      by destruct (outOfImage width height px py). }
  destruct (pixel_rewrite_fold width height
              (λ x y b, store (store (store b (pixelIndex width x y) avgR)
                                 (pixelIndex width x y + 1) avgG)
                          (pixelIndex width x y + 2) avgB)
              (λ _ _ c v,
                 (λ _, ToUint8Clamp
                         (if c =? 0 then avgR
                          else if c =? 1 then avgG else avgB)) <$> v)
              (rowMajor (Selection.y sel)
                 (Selection.y sel + Selection.height sel) (Selection.x sel)
                 (Selection.x sel + Selection.width sel)) buf
              (rowMajor_NoDup _ _ _ _)) as (_ & Hpix).
  - intros x' y' b j Hj. apply rewriteRGB_other.
    + specialize (Hj 0). lia.
    + apply Hj. lia.
    + apply Hj. lia.
  - intros x' y' b c' Hc'. by apply storeRGB_channel.
  - cbv zeta in Hpix.
    assert ((x, y) ∈ rowMajor (Selection.y sel)
                       (Selection.y sel + Selection.height sel)
                       (Selection.x sel)
                       (Selection.x sel + Selection.width sel)) as Hel.
    { apply elem_of_rowMajor. apply isInsideSelection_true in Hin. lia. }
    exact (Hpix (x, y) c Hel Him Hc).
Qed.

Lemma prefill_paints_mean_colour_witness :
  load (prefill demoSelection 3 3 (77%float, 88%float, 99%float)
          (ImageData.data demoImage)) (pixelIndex 3 1 1 + 1)
  = Some 88.
Proof.
  refine (eq_trans
            (prefill_paints_mean_colour demoSelection 3 3 77 88 99
               (ImageData.data demoImage) 1 1 1 _ _ _) _).
  - reflexivity.
  - reflexivity.
  - lia.
  - vm_compute. reflexivity.
Defined.

Lemma boxSums_count width height x y tempData :
  (boxSums width height x y tempData).2
  = Z.of_nat
      (length
         (filter (λ p : Z * Z, outOfImage width height (x + p.1) (y + p.2)
                               = false)
            (rowMajor (-2) 3 (-2) 3))).
Proof.
  unfold boxSums. cbv zeta.
  rewrite (forZ_rowMajor (-2) (2 + 1) (-2) (2 + 1)
             (λ dx dy (acc : float * float * float * Z),
                let '(sumR, sumG, sumB, count) := acc in
                if outOfImage width height (x + dx) (y + dy)
                then (sumR, sumG, sumB, count)
                else
                  ((sumR + toNumber
                             (load tempData (pixelIndex width (x + dx) (y + dy))))%float,
                   (sumG + toNumber
                             (load tempData
                                (pixelIndex width (x + dx) (y + dy) + 1)))%float,
                   (sumB + toNumber
                             (load tempData
                                (pixelIndex width (x + dx) (y + dy) + 2)))%float,
                   count + 1))).
  change (2 + 1) with 3.
  generalize (rowMajor (-2) 3 (-2) 3). intros l.
  assert (∀ acc : float * float * float * Z,
            (foldl
               (λ (s : float * float * float * Z) (p : Z * Z),
                  let '(sumR, sumG, sumB, count) := s in
                  if outOfImage width height (x + p.1) (y + p.2)
                  then (sumR, sumG, sumB, count)
                  else
                    ((sumR + toNumber
                               (load tempData
                                  (pixelIndex width (x + p.1) (y + p.2))))%float,
                     (sumG + toNumber
                               (load tempData
                                  (pixelIndex width (x + p.1) (y + p.2) + 1)))%float,
                     (sumB + toNumber
                               (load tempData
                                  (pixelIndex width (x + p.1) (y + p.2) + 2)))%float,
                     count + 1)) acc l).2
            = acc.2
              + Z.of_nat
                  (length
                     (filter (λ p : Z * Z,
                                outOfImage width height (x + p.1) (y + p.2)
                                = false) l))) as Hgen.
  { induction l as [|p l IH]; intros acc; [simpl; lia|].
    cbn [foldl]. rewrite IH. destruct acc as [[[sumR sumG] sumB] count].
    destruct (outOfImage width height (x + p.1) (y + p.2)) eqn:Hout.
    - rewrite filter_cons_False by congruence. done.
    - rewrite filter_cons_True by done. simpl. lia. }
  rewrite Hgen. simpl. lia.
Qed.

Lemma boxSums_count_bounds width height x y tempData :
  outOfImage width height x y = false →
  1 ≤ (boxSums width height x y tempData).2 ≤ 25.
Proof.
  intros Him. rewrite boxSums_count. split.
  - assert ((0, 0) ∈ filter (λ p : Z * Z,
                               outOfImage width height (x + p.1) (y + p.2)
                               = false) (rowMajor (-2) 3 (-2) 3)) as Hel.
    { apply list_elem_of_filter. simpl. rewrite !Z.add_0_r.
      split; [done|]. apply elem_of_rowMajor. lia. }
    destruct (filter _ _) as [|p l]; [by apply elem_of_nil in Hel|].
    simpl. lia.
  - pose proof (length_filter
                  (λ p : Z * Z, outOfImage width height (x + p.1) (y + p.2)
                                = false) (rowMajor (-2) 3 (-2) 3)) as Hle.
    change (length (rowMajor (-2) 3 (-2) 3)) with 25%nat in Hle. lia.
Qed.

(** X10. A smoothing pass is computed from a snapshot: every pixel of the
    image inside the selection ends the pass with, in each channel, the
    rounded mean of the 5x5 window taken in the buffer the pass started
    from, not in the partly smoothed one; the window holds between 1 and 25
    pixels of the image, so the pixel is always written. *)
Theorem smoothPass_reads_snapshot sel width height buf x y c :
  outOfImage width height x y = false →
  isInsideSelection x y sel = true →
  0 ≤ c < 3 →
  let '(sumR, sumG, sumB, count) := boxSums width height x y buf in
  1 ≤ count ≤ 25
  ∧ load (smoothPass sel width height buf) (pixelIndex width x y + c)
    = (λ _, ToUint8Clamp
              (Math_round
                 ((if c =? 0 then sumR else if c =? 1 then sumG else sumB)
                  / of_Z count)))
        <$> load buf (pixelIndex width x y + c).
Proof.
  intros Him Hin Hc.
  pose proof (boxSums_count_bounds width height x y buf Him) as Hcount.
  destruct (boxSums width height x y buf) as [[[sumR sumG] sumB] count]
    eqn:Hbox.
  simpl in Hcount. split; [exact Hcount|].
  unfold smoothPass. cbv zeta.
  rewrite (forZ_rowMajor _ _ _ _
             (λ x y b,
                if outOfImage width height x y then b
                else
                  let '(sumR, sumG, sumB, count) :=
                    boxSums width height x y buf in
                  if 0 <? count then
                    store
                      (store
                         (store b (pixelIndex width x y)
                            (Math_round (sumR / of_Z count)))
                         (pixelIndex width x y + 1)
                         (Math_round (sumG / of_Z count)))
                      (pixelIndex width x y + 2)
                      (Math_round (sumB / of_Z count))
                  else b)).
  destruct (pixel_rewrite_fold width height
              (λ x y b,
                 let '(sumR, sumG, sumB, count) :=
                   boxSums width height x y buf in
                 if 0 <? count then
                   store
                     (store
                        (store b (pixelIndex width x y)
                           (Math_round (sumR / of_Z count)))
                        (pixelIndex width x y + 1)
                        (Math_round (sumG / of_Z count)))
                     (pixelIndex width x y + 2)
                     (Math_round (sumB / of_Z count))
                 else b)
              (λ x y c v,
                 let '(sumR, sumG, sumB, count) :=
                   boxSums width height x y buf in
                 if 0 <? count then
                   (λ _, ToUint8Clamp
                           (Math_round
                              ((if c =? 0 then sumR
                                else if c =? 1 then sumG else sumB)
                               / of_Z count))) <$> v
                 else v)
              (rowMajor (Selection.y sel)
                 (Selection.y sel + Selection.height sel) (Selection.x sel)
                 (Selection.x sel + Selection.width sel)) buf
              (rowMajor_NoDup _ _ _ _)) as (_ & Hpix).
  - intros x' y' b j Hj.
    destruct (boxSums width height x' y' buf) as [[[sR sG] sB] n].
    destruct (0 <? n); [|done]. apply rewriteRGB_other.
    + specialize (Hj 0). lia.
    + apply Hj. lia.
    + apply Hj. lia.
  - intros x' y' b c' Hc'.
    destruct (boxSums width height x' y' buf) as [[[sR sG] sB] n].
    destruct (0 <? n); [|done].
    rewrite storeRGB_channel by done.
    destruct (load b _); [|done]. simpl. by repeat destruct (c' =? _).
  - cbv zeta in Hpix.
    assert ((x, y) ∈ rowMajor (Selection.y sel)
                       (Selection.y sel + Selection.height sel)
                       (Selection.x sel)
                       (Selection.x sel + Selection.width sel)) as Hel.
    { apply elem_of_rowMajor. apply isInsideSelection_true in Hin. lia. }
    etrans; [exact (Hpix (x, y) c Hel Him Hc)|].
    simpl. rewrite Hbox.
    destruct (Z.ltb_spec 0 count); [done | lia].
Qed.

Lemma smoothPass_reads_snapshot_witness :
  load (smoothPass demoSelection 3 3 (ImageData.data demoImage))
    (pixelIndex 3 1 1 + 0)
  = Some 124.
Proof.
  pose proof (smoothPass_reads_snapshot demoSelection 3 3
                (ImageData.data demoImage) 1 1 0
                ltac:(reflexivity) ltac:(reflexivity) ltac:(lia)) as Hpass.
  destruct (boxSums 3 3 1 1 (ImageData.data demoImage))
    as [[[sumR sumG] sumB] count] eqn:Hbox.
  destruct Hpass as [_ Hpass].
  refine (eq_trans Hpass _).
  vm_compute in Hbox. injection Hbox as <- <- <- <-.
  vm_compute. reflexivity.
Defined.

(** With a pass count of 0 or less the smoothing stage is skipped: the
    buffer, the number of draws and the reports are left as they are. *)
Lemma smoothStage_skipped_without_passes sel width height passes hasSink s :
  passes ≤ 0 → smoothStage sel width height passes hasSink s = s.
Proof.
  intros Hp. unfold smoothStage, forZ. by rewrite seqZ_nil by lia.
Qed.

Lemma smoothStage_skipped_without_passes_witness :
  smoothStage demoSelection 3 3 0 true greyPixel = greyPixel.
Proof.
  apply (smoothStage_skipped_without_passes demoSelection 3 3 0 true
           greyPixel).
  lia.
Defined.

(** *** The feathering search *)

Lemma sqrt_lt_table :
  forallb (λ a, forallb (λ b,
      Bool.eqb (Math_sqrt (of_Z a) <? Math_sqrt (of_Z b))%float (a <? b))
    (seqZ 0 33)) (seqZ 0 33) = true.
Proof. vm_compute. reflexivity. Qed.

Lemma sqrt_lt_infinity_table :
  forallb (λ a, (Math_sqrt (of_Z a) <? infinity)%float) (seqZ 0 33) = true.
Proof. vm_compute. reflexivity. Qed.

(** On the squared distances of a 9x9 window the comparison of the roots is
    the comparison of the squares. *)
Lemma sqrt_lt_small a b :
  0 ≤ a ≤ 32 → 0 ≤ b ≤ 32 →
  (Math_sqrt (of_Z a) <? Math_sqrt (of_Z b))%float = (a <? b).
Proof.
  intros Ha Hb. pose proof sqrt_lt_table as Htab.
  rewrite List.forallb_forall in Htab.
  specialize (Htab a ltac:(apply list_elem_of_In, elem_of_seqZ; lia)).
  rewrite List.forallb_forall in Htab.
  specialize (Htab b ltac:(apply list_elem_of_In, elem_of_seqZ; lia)).
  by apply Bool.eqb_prop in Htab.
Qed.

Lemma sqrt_lt_infinity_small a :
  0 ≤ a ≤ 32 → (Math_sqrt (of_Z a) <? infinity)%float = true.
Proof.
  intros Ha. pose proof sqrt_lt_infinity_table as Htab.
  rewrite List.forallb_forall in Htab.
  exact (Htab a ltac:(apply list_elem_of_In, elem_of_seqZ; lia)).
Qed.

Lemma nearestOutside_as_fold sel width height x y orig :
  nearestOutside sel width height x y orig
  = foldl (λ (acc : float * option Z * option Z * option Z) (p : Z * Z),
             if outOfImage width height (x + p.1) (y + p.2) then acc
             else if isInsideSelection (x + p.1) (y + p.2) sel then acc
             else if (Math_sqrt (of_Z (sqDist p)) <? acc.1.1.1)%float
             then (Math_sqrt (of_Z (sqDist p)),
                   load orig (pixelIndex width (x + p.1) (y + p.2)),
                   load orig (pixelIndex width (x + p.1) (y + p.2) + 1),
                   load orig (pixelIndex width (x + p.1) (y + p.2) + 2))
             else acc)
      (infinity, load orig (pixelIndex width x y),
       load orig (pixelIndex width x y + 1),
       load orig (pixelIndex width x y + 2))
      (rowMajor (-4) 5 (-4) 5).
Proof.
  unfold nearestOutside. cbv zeta.
  rewrite (forZ_rowMajor (-4) (4 + 1) (-4) (4 + 1)
             (λ dx dy (acc : float * option Z * option Z * option Z),
                let '(minDist, nearestR, nearestG, nearestB) := acc in
                if outOfImage width height (x + dx) (y + dy)
                then (minDist, nearestR, nearestG, nearestB)
                else if isInsideSelection (x + dx) (y + dy) sel
                then (minDist, nearestR, nearestG, nearestB)
                else if (Math_sqrt (of_Z (dx * dx + dy * dy)) <? minDist)%float
                then (Math_sqrt (of_Z (dx * dx + dy * dy)),
                      load orig (pixelIndex width (x + dx) (y + dy)),
                      load orig (pixelIndex width (x + dx) (y + dy) + 1),
                      load orig (pixelIndex width (x + dx) (y + dy) + 2))
                else (minDist, nearestR, nearestG, nearestB))).
  apply foldl_pointwise. intros [[[minDist nR] nG] nB] [dx dy]. reflexivity.
Qed.

(** The state of the search after a list of offsets of the window: either no
    offset led to an exterior pixel and the candidate is still the pixel's
    own colour, or the candidate is the first of the nearest exterior pixels
    met. *)
Lemma nearest_fold_invariant sel width height x y orig (l : list (Z * Z)) :
  (∀ p, p ∈ l → -4 ≤ p.1 ≤ 4 ∧ -4 ≤ p.2 ≤ 4) →
  let init := (infinity, load orig (pixelIndex width x y),
               load orig (pixelIndex width x y + 1),
               load orig (pixelIndex width x y + 2)) in
  let run :=
    foldl (λ (acc : float * option Z * option Z * option Z) (p : Z * Z),
             if outOfImage width height (x + p.1) (y + p.2) then acc
             else if isInsideSelection (x + p.1) (y + p.2) sel then acc
             else if (Math_sqrt (of_Z (sqDist p)) <? acc.1.1.1)%float
             then (Math_sqrt (of_Z (sqDist p)),
                   load orig (pixelIndex width (x + p.1) (y + p.2)),
                   load orig (pixelIndex width (x + p.1) (y + p.2) + 1),
                   load orig (pixelIndex width (x + p.1) (y + p.2) + 2))
             else acc) init l in
  (run = init ∧ ∀ p, p ∈ l → ¬ exteriorAt sel width height x y p)
  ∨ (∃ l1 p l2,
       l = l1 ++ p :: l2
       ∧ exteriorAt sel width height x y p
       ∧ run = (Math_sqrt (of_Z (sqDist p)),
                load orig (pixelIndex width (x + p.1) (y + p.2)),
                load orig (pixelIndex width (x + p.1) (y + p.2) + 1),
                load orig (pixelIndex width (x + p.1) (y + p.2) + 2))
       ∧ (∀ q, q ∈ l1 → exteriorAt sel width height x y q →
               sqDist p < sqDist q)
       ∧ (∀ q, q ∈ l2 → exteriorAt sel width height x y q →
               sqDist p ≤ sqDist q)).
Proof.
  intros Hwin init. cbv zeta. revert Hwin.
  induction l as [|q l IH] using rev_ind; intros Hwin.
  - left. split; [done|]. intros p Hp. by apply elem_of_nil in Hp.
  - assert (Hq : 0 ≤ sqDist q ≤ 32).
    { destruct (Hwin q) as [H1 H2]; [apply elem_of_app; right; by left|].
      unfold sqDist. nia. }
    assert (Hl : ∀ p, p ∈ l → 0 ≤ sqDist p ≤ 32).
    { intros p Hp.
      destruct (Hwin p) as [H1 H2]; [apply elem_of_app; by left|].
      unfold sqDist. nia. }
    rewrite foldl_app. cbn [foldl].
    destruct (outOfImage width height (x + q.1) (y + q.2)) eqn:Him.
    { destruct IH as [[Hrun Hnone] | (l1 & p & l2 & -> & Hp & Hrun & H1 & H2)].
      - intros p Hp. apply Hwin, elem_of_app. by left.
      - left. split; [exact Hrun|]. intros p Hp.
        apply elem_of_app in Hp as [Hp | Hp]; [by apply Hnone|].
        apply list_elem_of_singleton in Hp as ->. intros [Hc _]. congruence.
      - right. exists l1, p, (l2 ++ [q]). rewrite <- app_assoc. simpl.
        split; [done|]. split; [done|]. split; [exact Hrun|].
        split; [exact H1|]. intros q' Hq'.
        apply elem_of_app in Hq' as [Hq' | Hq']; [by apply H2|].
        apply list_elem_of_singleton in Hq' as ->. intros [Hc _]. congruence. }
    destruct (isInsideSelection (x + q.1) (y + q.2) sel) eqn:Hin.
    { destruct IH as [[Hrun Hnone] | (l1 & p & l2 & -> & Hp & Hrun & H1 & H2)].
      - intros p Hp. apply Hwin, elem_of_app. by left.
      - left. split; [exact Hrun|]. intros p Hp.
        apply elem_of_app in Hp as [Hp | Hp]; [by apply Hnone|].
        apply list_elem_of_singleton in Hp as ->. intros [_ Hc]. congruence.
      - right. exists l1, p, (l2 ++ [q]). rewrite <- app_assoc. simpl.
        split; [done|]. split; [done|]. split; [exact Hrun|].
        split; [exact H1|]. intros q' Hq'.
        apply elem_of_app in Hq' as [Hq' | Hq']; [by apply H2|].
        apply list_elem_of_singleton in Hq' as ->. intros [_ Hc]. congruence. }
    destruct IH as [[Hrun Hnone] | (l1 & p & l2 & -> & Hp & Hrun & H1 & H2)].
    + intros p Hp. apply Hwin, elem_of_app. by left.
    + rewrite Hrun. cbn [fst]. rewrite sqrt_lt_infinity_small by done.
      right. exists l, q, []. split; [done|]. split; [by split|].
      split; [done|]. split.
      * intros q' Hq' Hext. by destruct (Hnone q' Hq').
      * intros q' Hq'. by apply elem_of_nil in Hq'.
    + rewrite Hrun. cbn [fst].
      rewrite sqrt_lt_small; [|done|].
      2:{ apply Hl. apply elem_of_app. right. by left. }
      destruct (Z.ltb_spec (sqDist q) (sqDist p)) as [Hlt | Hge].
      * right. exists (l1 ++ p :: l2), q, []. split; [done|].
        split; [by split|]. split; [done|]. split.
        -- intros q' Hq' Hext. apply elem_of_app in Hq' as [Hq' | Hq'].
           ++ specialize (H1 q' Hq' Hext). lia.
           ++ apply elem_of_cons in Hq' as [-> | Hq']; [lia|].
              specialize (H2 q' Hq' Hext). lia.
        -- intros q' Hq'. by apply elem_of_nil in Hq'.
      * right. exists l1, p, (l2 ++ [q]). rewrite <- app_assoc. simpl.
        split; [done|]. split; [done|]. split; [done|].
        split; [exact H1|]. intros q' Hq' Hext.
        apply elem_of_app in Hq' as [Hq' | Hq']; [by apply H2|].
        apply list_elem_of_singleton in Hq' as ->. lia.
Qed.

(** X11. When the 9x9 window around a pixel holds a pixel of the image
    outside the selection, the feathering search returns the original colour
    of such a pixel at the least Euclidean distance, and of the first one in
    scan order among those equally near. *)
Theorem nearestOutside_finds_nearest sel width height x y orig :
  (∃ p, (-4 ≤ p.1 ≤ 4 ∧ -4 ≤ p.2 ≤ 4)
        ∧ exteriorAt sel width height x y p) →
  ∃ p,
    (-4 ≤ p.1 ≤ 4 ∧ -4 ≤ p.2 ≤ 4)
    ∧ exteriorAt sel width height x y p
    ∧ nearestOutside sel width height x y orig
      = (Math_sqrt (of_Z (sqDist p)),
         load orig (pixelIndex width (x + p.1) (y + p.2)),
         load orig (pixelIndex width (x + p.1) (y + p.2) + 1),
         load orig (pixelIndex width (x + p.1) (y + p.2) + 2))
    ∧ (∀ q, (-4 ≤ q.1 ≤ 4 ∧ -4 ≤ q.2 ≤ 4) →
            exteriorAt sel width height x y q →
            sqDist p ≤ sqDist q
            ∧ (rowMajorLt q p → sqDist p < sqDist q)).
Proof.
  intros (p0 & Hp0 & Hext0).
  assert (Hmem : ∀ q : Z * Z,
            q ∈ rowMajor (-4) 5 (-4) 5 ↔ -4 ≤ q.1 ≤ 4 ∧ -4 ≤ q.2 ≤ 4).
  { intros [qx qy]. rewrite elem_of_rowMajor. simpl. lia. }
  rewrite nearestOutside_as_fold.
  destruct (nearest_fold_invariant sel width height x y orig
              (rowMajor (-4) 5 (-4) 5))
    as [[_ Hnone] | (l1 & p & l2 & Hsplit & Hp & Hrun & H1 & H2)].
  - intros q Hq. by apply Hmem.
  - destruct (Hnone p0); [by apply Hmem | done].
  - pose proof (rowMajor_sorted (-4) 5 (-4) 5) as Hsorted.
    rewrite Hsplit in Hsorted.
    exists p. split.
    { apply Hmem. rewrite Hsplit. apply elem_of_app. right. by left. }
    split; [exact Hp|]. split; [exact Hrun|].
    intros q Hq Hext. apply Hmem in Hq. rewrite Hsplit in Hq.
    apply elem_of_app in Hq as [Hq | Hq].
    + specialize (H1 q Hq Hext). split; lia.
    + apply elem_of_cons in Hq as [-> | Hq].
      * split; [lia|]. intros Hlt. by destruct (rowMajorLt_asym p p).
      * split; [by apply H2|]. intros Hlt. exfalso.
        apply StronglySorted_app_1_r in Hsorted.
        apply StronglySorted_cons in Hsorted as [Hall _].
        rewrite Forall_forall in Hall.
        exact (rowMajorLt_asym q p Hlt (Hall q Hq)).
Qed.

Lemma nearestOutside_finds_nearest_witness :
  ∃ p,
    (-4 ≤ p.1 ≤ 4 ∧ -4 ≤ p.2 ≤ 4)
    ∧ exteriorAt demoSelection 3 3 1 1 p
    ∧ nearestOutside demoSelection 3 3 1 1 (ImageData.data demoImage)
      = (Math_sqrt (of_Z (sqDist p)),
         load (ImageData.data demoImage) (pixelIndex 3 (1 + p.1) (1 + p.2)),
         load (ImageData.data demoImage) (pixelIndex 3 (1 + p.1) (1 + p.2) + 1),
         load (ImageData.data demoImage) (pixelIndex 3 (1 + p.1) (1 + p.2) + 2))
    ∧ (∀ q, (-4 ≤ q.1 ≤ 4 ∧ -4 ≤ q.2 ≤ 4) →
            exteriorAt demoSelection 3 3 1 1 q →
            sqDist p ≤ sqDist q
            ∧ (rowMajorLt q p → sqDist p < sqDist q)).
Proof.
  apply (nearestOutside_finds_nearest demoSelection 3 3 1 1
           (ImageData.data demoImage)).
  exists (0, -1). split; [simpl; lia|]. split; reflexivity.
Defined.

(** A byte buffer covering the image has a byte at every channel of every
    pixel of the image. *)
Lemma load_validBuffer width height buf x y c :
  validBuffer (Z.to_nat (4 * width * height)) buf →
  outOfImage width height x y = false →
  0 ≤ c < 4 →
  ∃ v, load buf (pixelIndex width x y + c) = Some v ∧ 0 ≤ v ≤ 255.
Proof.
  intros [Hlen Hbytes] Him Hc. apply outOfImage_false in Him.
  assert (0 ≤ pixelIndex width x y + c < 4 * width * height) as Hidx.
  { unfold pixelIndex. nia. }
  rewrite load_lookup by lia.
  destruct (lookup_lt_is_Some_2 buf (Z.to_nat (pixelIndex width x y + c)))
    as [v Hv]; [lia|].
  exists v. split; [exact Hv|].
  rewrite Forall_forall in Hbytes. apply Hbytes.
  by apply list_elem_of_lookup_2 in Hv.
Qed.

Lemma blend_zero_current :
  Forall (λ v, (of_Z v * (of_Z 0 / of_Z 4))%float = 0%float) (seqZ 0 256).
Proof.
  vm_compute seqZ.
  repeat (constructor; [vm_compute; reflexivity|]). constructor.
Qed.

Lemma blend_zero_nearest :
  Forall (λ n, ToUint8Clamp
                 (Math_round (0 + of_Z n * (1 - of_Z 0 / of_Z 4))%float) = n)
    (seqZ 0 256).
Proof.
  vm_compute seqZ.
  repeat (constructor; [vm_compute; reflexivity|]). constructor.
Qed.

(** With blend factor 0 the blend of two bytes is the second byte. *)
Lemma blendChannel_zero v n :
  0 ≤ v ≤ 255 → 0 ≤ n ≤ 255 →
  ToUint8Clamp (blendChannel (Some v) (Some n) (of_Z 0 / of_Z 4)) = n.
Proof.
  intros Hv Hn. unfold blendChannel, toNumber.
  pose proof blend_zero_current as Hcur. rewrite Forall_forall in Hcur.
  rewrite (Hcur v) by (apply elem_of_seqZ; lia).
  pose proof blend_zero_nearest as Hnear. rewrite Forall_forall in Hnear.
  apply Hnear. apply elem_of_seqZ. lia.
Qed.

(** Where the search's candidate comes from: a pixel of the image. *)
Lemma nearestOutside_candidate sel width height x y orig :
  outOfImage width height x y = false →
  ∃ px py,
    outOfImage width height px py = false
    ∧ ((px = x ∧ py = y
        ∧ ∀ p, (-4 ≤ p.1 ≤ 4 ∧ -4 ≤ p.2 ≤ 4) →
               ¬ exteriorAt sel width height x y p)
       ∨ (isInsideSelection px py sel = false
          ∧ -4 ≤ px - x ≤ 4 ∧ -4 ≤ py - y ≤ 4))
    ∧ (nearestOutside sel width height x y orig).1.1.2
      = load orig (pixelIndex width px py)
    ∧ (nearestOutside sel width height x y orig).1.2
      = load orig (pixelIndex width px py + 1)
    ∧ (nearestOutside sel width height x y orig).2
      = load orig (pixelIndex width px py + 2).
Proof.
  intros Him.
  assert (Hmem : ∀ q : Z * Z,
            q ∈ rowMajor (-4) 5 (-4) 5 ↔ -4 ≤ q.1 ≤ 4 ∧ -4 ≤ q.2 ≤ 4).
  { intros [qx qy]. rewrite elem_of_rowMajor. simpl. lia. }
  rewrite nearestOutside_as_fold.
  destruct (nearest_fold_invariant sel width height x y orig
              (rowMajor (-4) 5 (-4) 5))
    as [[Hrun Hnone] | (l1 & p & l2 & Hsplit & [Hpim Hpout] & Hrun & _)].
  - intros q Hq. by apply Hmem.
  - exists x, y. split; [exact Him|]. split.
    + left. split; [done|]. split; [done|]. intros p Hp.
      apply Hnone. by apply Hmem.
    + by rewrite Hrun.
  - exists (x + p.1), (y + p.2). split; [exact Hpim|]. split.
    + right. split; [exact Hpout|].
      assert (p ∈ rowMajor (-4) 5 (-4) 5) as Hp.
      { rewrite Hsplit. apply elem_of_app. right. by left. }
      apply Hmem in Hp. lia.
    + by rewrite Hrun.
Qed.

(** X12. On byte buffers covering the image, a boundary pixel of the
    selection (distance-field value 0) ends the feathering stage as an exact
    copy, in R, G and B, of an original pixel: an exterior pixel of its 9x9
    window, or the pixel's own original colour when the window holds no
    exterior pixel.  The value synthesized for it by the earlier stages is
    discarded. *)
Theorem featherStage_boundary_copies_original sel distMap width height orig
    buf x y :
  validBuffer (Z.to_nat (4 * width * height)) orig →
  validBuffer (Z.to_nat (4 * width * height)) buf →
  outOfImage width height x y = false →
  isInsideSelection x y sel = true →
  load distMap
    ((y - Selection.y sel) * Selection.width sel + (x - Selection.x sel))
    = Some 0 →
  ∃ px py,
    outOfImage width height px py = false
    ∧ ((px = x ∧ py = y
        ∧ ∀ p, (-4 ≤ p.1 ≤ 4 ∧ -4 ≤ p.2 ≤ 4) →
               ¬ exteriorAt sel width height x y p)
       ∨ (isInsideSelection px py sel = false
          ∧ -4 ≤ px - x ≤ 4 ∧ -4 ≤ py - y ≤ 4))
    ∧ ∀ c, 0 ≤ c < 3 →
        load (featherStage sel distMap width height orig buf)
          (pixelIndex width x y + c)
        = load orig (pixelIndex width px py + c).
Proof.
  intros Horig Hbuf Him Hin Hdist.
  destruct (nearestOutside_candidate sel width height x y orig Him)
    as (px & py & Hpim & Hwhere & HR & HG & HB).
  exists px, py. split; [exact Hpim|]. split; [exact Hwhere|].
  intros c Hc.
  rewrite (featherStage_channel _ _ _ _ _ _ _ _ _ Him Hin Hc).
  rewrite (featherPixel_channel _ _ _ _ _ _ _ _ _ Hc). rewrite Hdist.
  change (0 <? 4) with true. cbv iota.
  destruct (nearestOutside sel width height x y orig) as [[[d nR] nG] nB].
  simpl in HR, HG, HB. subst nR nG nB.
  destruct (load_validBuffer width height buf x y c Hbuf Him ltac:(lia))
    as (v & -> & Hv).
  destruct (load_validBuffer width height orig px py c Horig Hpim ltac:(lia))
    as (n & Hn & Hnr).
  simpl. rewrite Hn. f_equal.
  assert (c = 0 ∨ c = 1 ∨ c = 2) as [-> | [-> | ->]] by lia; simpl;
    rewrite ?Z.add_0_r in *; rewrite Hn; by apply blendChannel_zero.
Qed.

Lemma featherStage_boundary_copies_original_witness :
  ∃ px py,
    outOfImage 3 3 px py = false
    ∧ ((px = 1 ∧ py = 1
        ∧ ∀ p, (-4 ≤ p.1 ≤ 4 ∧ -4 ≤ p.2 ≤ 4) →
               ¬ exteriorAt demoSelection 3 3 1 1 p)
       ∨ (isInsideSelection px py demoSelection = false
          ∧ -4 ≤ px - 1 ≤ 4 ∧ -4 ≤ py - 1 ≤ 4))
    ∧ ∀ c, 0 ≤ c < 3 →
        load (featherStage demoSelection (buildDistMap demoSelection).1 3 3
                (ImageData.data demoImage) (replicate 36 90))
          (pixelIndex 3 1 1 + c)
        = load (ImageData.data demoImage) (pixelIndex 3 px py + c).
Proof.
  apply (featherStage_boundary_copies_original demoSelection
           (buildDistMap demoSelection).1 3 3 (ImageData.data demoImage)
           (replicate 36 90) 1 1).
  - split; [reflexivity|]. apply Forall_forall. intros v Hv.
    unfold demoImage in Hv. simpl in Hv.
    repeat (apply elem_of_cons in Hv as [-> | Hv]; [lia|]).
    by apply elem_of_nil in Hv.
  - split; [reflexivity|]. apply Forall_forall. intros v Hv.
    apply elem_of_replicate in Hv as [-> _]. lia.
  - reflexivity.
  - reflexivity.
  - reflexivity.
Defined.

(** *** [processImage] *)

Lemma autoDetect_covers_small_image random imageData options hasSink :
  ImageData.width imageData ≤ 180 →
  ImageData.height imageData ≤ 60 →
  inpaintWatermark random imageData
    (autoDetectWatermark (ImageData.width imageData)
       (ImageData.height imageData)) options hasSink
  = Returned (imageData, []).
Proof.
  intros Hw Hh. apply inpaintWatermark_skips.
  destruct (Z.le_gt_cases (ImageData.width imageData) 0) as [Hw0 | Hw0].
  { left. unfold degenerate, clampSelection, autoDetectWatermark. simpl.
    apply orb_true_iff. lia. }
  destruct (Z.le_gt_cases (ImageData.height imageData) 0) as [Hh0 | Hh0].
  { left. unfold degenerate, clampSelection, autoDetectWatermark. simpl.
    apply orb_true_iff. lia. }
  right.
  replace (clampSelection _ _ _)
    with {| Selection.x := 0; Selection.y := 0;
            Selection.width := ImageData.width imageData;
            Selection.height := ImageData.height imageData |}.
  - apply buildTextureBank_full_image.
  - unfold clampSelection, autoDetectWatermark. simpl. f_equal; lia.
Qed.

(** X13. On an image of at most 180x60 pixels the auto-detected rectangle
    covers the whole image, no texture sample exists, and [processImage]
    resolves to the encoding of the untouched input with no progress
    report, whether auto-detection ran inside [processImage] or the
    rectangle of [autoDetectWatermark] was passed in. *)
Theorem processImage_auto_small_image_unchanged random loadImageData
    imageDataToUrl file loaded selection options hasSink :
  loadImageData file = Fulfilled loaded →
  Loaded.width loaded = ImageData.width (Loaded.imageData loaded) →
  Loaded.height loaded = ImageData.height (Loaded.imageData loaded) →
  Loaded.width loaded ≤ 180 →
  Loaded.height loaded ≤ 60 →
  (selection = None ∧ ProcessingOptions.autoDetect' options ≠ Some false)
  ∨ selection
    = Some (autoDetectWatermark (Loaded.width loaded) (Loaded.height loaded)) →
  processImage random loadImageData imageDataToUrl file selection options
    hasSink
  = match imageDataToUrl (Loaded.imageData loaded) with
    | Fulfilled url => Fulfilled (url, [])
    | Rejected t => Rejected t
    end.
Proof.
  intros Hload Hw Hh Hw180 Hh60 Hsel. unfold processImage. rewrite Hload.
  assert (finalSelection selection options (Loaded.width loaded)
            (Loaded.height loaded)
          = Some (autoDetectWatermark (Loaded.width loaded)
                    (Loaded.height loaded))) as ->.
  { unfold finalSelection. destruct Hsel as [[-> Hauto] | ->]; [|done].
    destruct (ProcessingOptions.autoDetect' options) as [[|]|]; done. }
  rewrite Hw, Hh.
  rewrite autoDetect_covers_small_image by lia.
  by destruct (imageDataToUrl (Loaded.imageData loaded)).
Qed.

Lemma processImage_auto_small_image_unchanged_witness :
  processImage demoRandom
    (λ _, Fulfilled (Loaded.mk demoImage 3 3))
    (λ _, Fulfilled "data:image/png;base64,AAAA")
    (File.mk "tiny.png" "image/png") None ProcessingOptions.empty true
  = Fulfilled ("data:image/png;base64,AAAA", []).
Proof.
  apply (processImage_auto_small_image_unchanged demoRandom
           (λ _, Fulfilled (Loaded.mk demoImage 3 3))
           (λ _, Fulfilled "data:image/png;base64,AAAA")
           (File.mk "tiny.png" "image/png") (Loaded.mk demoImage 3 3) None
           ProcessingOptions.empty true).
  - reflexivity.
  - reflexivity.
  - reflexivity.
  - simpl; lia.
  - simpl; lia.
  - left. split; [reflexivity | discriminate].
Defined.

(** X14. A rectangle given by the caller is never replaced by auto-detection,
    and when its width or height is 0 or less (a click without a drag)
    [processImage] resolves to the encoding of the untouched input: the call
    succeeds although nothing was removed. *)
Theorem processImage_empty_rectangle_unchanged random loadImageData
    imageDataToUrl file loaded sel options hasSink :
  loadImageData file = Fulfilled loaded →
  Selection.width sel ≤ 0 ∨ Selection.height sel ≤ 0 →
  finalSelection (Some sel) options (Loaded.width loaded)
    (Loaded.height loaded) = Some sel
  ∧ processImage random loadImageData imageDataToUrl file (Some sel) options
      hasSink
    = match imageDataToUrl (Loaded.imageData loaded) with
      | Fulfilled url => Fulfilled (url, [])
      | Rejected t => Rejected t
      end.
Proof.
  intros Hload Hempty. split; [reflexivity|].
  unfold processImage. rewrite Hload. cbn [finalSelection].
  rewrite inpaintWatermark_skips.
  - by destruct (imageDataToUrl (Loaded.imageData loaded)).
  - left. unfold degenerate, clampSelection. simpl. apply orb_true_iff. lia.
Qed.

Lemma processImage_empty_rectangle_unchanged_witness :
  finalSelection
    (Some {| Selection.x := 1; Selection.y := 1;
             Selection.width := 0; Selection.height := 2 |})
    ProcessingOptions.empty 3 3
  = Some {| Selection.x := 1; Selection.y := 1;
            Selection.width := 0; Selection.height := 2 |}
  ∧ processImage demoRandom
      (λ _, Fulfilled (Loaded.mk demoImage 3 3))
      (λ _, Fulfilled "data:image/png;base64,AAAA")
      (File.mk "tiny.png" "image/png")
      (Some {| Selection.x := 1; Selection.y := 1;
               Selection.width := 0; Selection.height := 2 |})
      ProcessingOptions.empty true
    = Fulfilled ("data:image/png;base64,AAAA", []).
Proof.
  apply (processImage_empty_rectangle_unchanged demoRandom
           (λ _, Fulfilled (Loaded.mk demoImage 3 3))
           (λ _, Fulfilled "data:image/png;base64,AAAA")
           (File.mk "tiny.png" "image/png") (Loaded.mk demoImage 3 3)
           {| Selection.x := 1; Selection.y := 1;
              Selection.width := 0; Selection.height := 2 |}
           ProcessingOptions.empty true).
  - reflexivity.
  - left. simpl. lia.
Defined.

(** X15. When [processImage] resolves after auto-detection on an image of at
    least 1x1 pixels, the image it encoded has the size of the input, the
    alpha of the input at every pixel, and the R, G, B of the input at every
    pixel outside the auto-detected rectangle. *)
Theorem processImage_auto_changes_only_detected_box random loadImageData
    imageDataToUrl file loaded options hasSink url trace :
  loadImageData file = Fulfilled loaded →
  Loaded.width loaded = ImageData.width (Loaded.imageData loaded) →
  Loaded.height loaded = ImageData.height (Loaded.imageData loaded) →
  1 ≤ Loaded.width loaded →
  1 ≤ Loaded.height loaded →
  ProcessingOptions.autoDetect' options ≠ Some false →
  processImage random loadImageData imageDataToUrl file None options hasSink
    = Fulfilled (url, trace) →
  ∃ processed,
    imageDataToUrl processed = Fulfilled url
    ∧ ImageData.width processed = Loaded.width loaded
    ∧ ImageData.height processed = Loaded.height loaded
    ∧ ∀ px py c,
        0 ≤ px < Loaded.width loaded →
        0 ≤ py < Loaded.height loaded →
        c = 3
        ∨ (0 ≤ c < 3
           ∧ isInsideSelection px py
               (autoDetectWatermark (Loaded.width loaded)
                  (Loaded.height loaded)) = false) →
        load (ImageData.data processed)
          (pixelIndex (Loaded.width loaded) px py + c)
        = load (ImageData.data (Loaded.imageData loaded))
            (pixelIndex (Loaded.width loaded) px py + c).
Proof.
  intros Hload Hw Hh Hw1 Hh1 Hauto. unfold processImage. rewrite Hload.
  assert (finalSelection None options (Loaded.width loaded)
            (Loaded.height loaded)
          = Some (autoDetectWatermark (Loaded.width loaded)
                    (Loaded.height loaded))) as ->.
  { unfold finalSelection.
    destruct (ProcessingOptions.autoDetect' options) as [[|]|]; done. }
  destruct (inpaintWatermark random (Loaded.imageData loaded) _ options hasSink)
    as [[processed trace']|[]] eqn:Hrun; [|discriminate].
  destruct (imageDataToUrl processed) as [url'|t] eqn:Hurl; [|discriminate].
  intros [= -> ->]. exists processed. split; [exact Hurl|].
  destruct (inpaintWatermark_dimensions _ _ _ _ _ _ _ Hrun) as [Hpw Hph].
  split; [congruence|]. split; [congruence|].
  intros px py c Hpx Hpy Hc.
  pose proof (inpaintWatermark_sameOutside _ _ _ _ _ _ _ Hrun) as Hsame.
  rewrite <- Hw, <- Hh in Hsame.
  rewrite (clampSelection_fixpoint _ _ _
             (autoDetectWatermark_withinImage _ _ Hw1 Hh1)) in Hsame.
  pose proof (pixelIndex_nonneg _ px py Hpx ltac:(lia)) as Hidx.
  rewrite !load_lookup by lia. apply Hsame.
  intros (x & y & c' & Him & Hin & Hc' & Heq).
  apply outOfImage_false in Him as [Hx Hy].
  apply Z2Nat.inj in Heq;
    [|lia | pose proof (pixelIndex_nonneg _ x y Hx ltac:(lia)); lia].
  apply pixelIndex_inj in Heq as (-> & -> & ->); [|lia..].
  destruct Hc as [-> | [_ Hout]]; [lia | congruence].
Qed.

Lemma processImage_auto_changes_only_detected_box_witness :
  ∃ processed,
    (λ _ : ImageData.t, Fulfilled "data:image/png;base64,AAAA") processed
    = Fulfilled "data:image/png;base64,AAAA"
    ∧ ImageData.width processed = 181
    ∧ ImageData.height processed = 1
    ∧ ∀ px py c,
        0 ≤ px < 181 → 0 ≤ py < 1 →
        c = 3
        ∨ (0 ≤ c < 3
           ∧ isInsideSelection px py (autoDetectWatermark 181 1) = false) →
        load (ImageData.data processed) (pixelIndex 181 px py + c)
        = load (ImageData.data wideImage) (pixelIndex 181 px py + c).
Proof.
  apply (processImage_auto_changes_only_detected_box demoRandom
           (λ _, Fulfilled (Loaded.mk wideImage 181 1))
           (λ _, Fulfilled "data:image/png;base64,AAAA")
           (File.mk "wide.png" "image/png") (Loaded.mk wideImage 181 1)
           ProcessingOptions.empty false "data:image/png;base64,AAAA" []).
  - reflexivity.
  - reflexivity.
  - reflexivity.
  - simpl; lia.
  - simpl; lia.
  - discriminate.
  - vm_compute. reflexivity.
Defined.

(** *** The image card *)

(** X16. While a drag is in progress the rectangle the card hands over lies
    in [0, originalWidth] x [0, originalHeight] with width and height of at
    least 0; when both are positive it satisfies the invariant of the engine,
    so the clamping step leaves it unchanged, and when one is 0 the engine
    treats it as degenerate. *)
Theorem handleMouseMove_stays_in_image start coords originalWidth
    originalHeight :
  0 ≤ originalWidth → 0 ≤ originalHeight →
  ∃ sel,
    ImageCard.handleMouseMove true (Some start) coords originalWidth
      originalHeight = Some sel
    ∧ 0 ≤ Selection.x sel ∧ 0 ≤ Selection.y sel
    ∧ 0 ≤ Selection.width sel ∧ 0 ≤ Selection.height sel
    ∧ Selection.x sel + Selection.width sel ≤ originalWidth
    ∧ Selection.y sel + Selection.height sel ≤ originalHeight
    ∧ (0 < Selection.width sel → 0 < Selection.height sel →
       withinImage sel originalWidth originalHeight
       ∧ clampSelection sel originalWidth originalHeight = sel)
    ∧ (Selection.width sel = 0 ∨ Selection.height sel = 0 →
       degenerate (clampSelection sel originalWidth originalHeight) = true).
Proof.
  intros HW HH. eexists. split; [reflexivity|]. simpl.
  repeat (split; [lia|]). split.
  - intros Hw Hh.
    assert (withinImage
              {| Selection.x :=
                   Z.min (Z.max 0 (Z.min start.1 originalWidth))
                     (Z.max 0 (Z.min coords.1 originalWidth));
                 Selection.y :=
                   Z.min (Z.max 0 (Z.min start.2 originalHeight))
                     (Z.max 0 (Z.min coords.2 originalHeight));
                 Selection.width :=
                   Z.abs (Z.max 0 (Z.min coords.1 originalWidth)
                          - Z.max 0 (Z.min start.1 originalWidth));
                 Selection.height :=
                   Z.abs (Z.max 0 (Z.min coords.2 originalHeight)
                          - Z.max 0 (Z.min start.2 originalHeight)) |}
              originalWidth originalHeight) as Hin.
    { unfold withinImage. simpl. lia. }
    split; [exact Hin | by apply clampSelection_fixpoint].
  - intros Hzero. unfold degenerate, clampSelection. simpl.
    apply orb_true_iff. lia.
Qed.

Lemma handleMouseMove_stays_in_image_witness :
  ∃ sel,
    ImageCard.handleMouseMove true (Some (350, 250)) (-20, 290) 400 300
    = Some sel
    ∧ 0 ≤ Selection.x sel ∧ 0 ≤ Selection.y sel
    ∧ 0 ≤ Selection.width sel ∧ 0 ≤ Selection.height sel
    ∧ Selection.x sel + Selection.width sel ≤ 400
    ∧ Selection.y sel + Selection.height sel ≤ 300
    ∧ (0 < Selection.width sel → 0 < Selection.height sel →
       withinImage sel 400 300 ∧ clampSelection sel 400 300 = sel)
    ∧ (Selection.width sel = 0 ∨ Selection.height sel = 0 →
       degenerate (clampSelection sel 400 300) = true).
Proof.
  apply (handleMouseMove_stays_in_image (350, 250) (-20, 290) 400 300); lia.
Defined.

(** X17. The rectangle of a drag does not depend on its direction: dragging
    from A to B gives the rectangle of dragging from B to A. *)
Theorem handleMouseMove_symmetric a b originalWidth originalHeight :
  ImageCard.handleMouseMove true (Some a) b originalWidth originalHeight
  = ImageCard.handleMouseMove true (Some b) a originalWidth originalHeight.
Proof.
  unfold ImageCard.handleMouseMove. simpl. f_equal. f_equal; lia.
Qed.

(** *** The queue of the page *)

Lemma filter_map_length {A : Type} (f : A → A) (keep keep' : A → bool) l :
  (∀ a, keep' (f a) = keep a) →
  length (List.filter keep' (f <$> l)) = length (List.filter keep l).
Proof.
  intros Hk. induction l as [|a l IH]; [done|].
  cbn [fmap list_fmap List.filter]. rewrite Hk.
  destruct (keep a); simpl; by rewrite IH.
Qed.

(** X18. "Auto-detect All" keeps the queue's length, order, ids and
    statuses; it leaves every image that is not pending or already has a
    selection untouched and gives every other one the auto-detected
    rectangle of its size; afterwards no pending image lacks a selection,
    the images "Process All" takes are all the pending ones, and a second
    click changes nothing. *)
Theorem handleAutoDetectAll_selects_all_pending prev :
  Forall2
    (λ before after,
       ProcessedImage.id after = ProcessedImage.id before
       ∧ ProcessedImage.status after = ProcessedImage.status before
       ∧ (if ProcessedImage.isPending before
             && negb (ProcessedImage.hasSelection before)
          then ProcessedImage.selection after
               = Some (autoDetectWatermark
                         (ProcessedImage.originalWidth before)
                         (ProcessedImage.originalHeight before))
          else after = before))
    prev (Page.handleAutoDetectAll prev)
  ∧ BulkActions.pendingWithoutSelection (Page.handleAutoDetectAll prev) = 0%nat
  ∧ length (Page.pendingImages (Page.handleAutoDetectAll prev))
    = ProcessingQueue.pendingCount prev
  ∧ Page.handleAutoDetectAll (Page.handleAutoDetectAll prev)
    = Page.handleAutoDetectAll prev.
Proof.
  unfold Page.handleAutoDetectAll. split; [|split; [|split]].
  - apply Forall2_fmap_r, Forall_Forall2_diag, Forall_forall.
    intros img _. unfold compose. cbv beta.
    destruct (ProcessedImage.isPending img
              && negb (ProcessedImage.hasSelection img)); done.
  - unfold BulkActions.pendingWithoutSelection.
    rewrite (filter_map_length _ (λ _, false)).
    + by induction prev.
    + intros img. unfold ProcessedImage.isPending, ProcessedImage.hasSelection.
      destruct img as [? ? ? ? [] ? ? [s|] ? ?]; reflexivity.
  - unfold Page.pendingImages, ProcessingQueue.pendingCount,
      ProcessingQueue.countStatus.
    apply filter_map_length. intros img.
    unfold ProcessedImage.isPending, ProcessedImage.hasSelection.
    destruct img as [? ? ? ? [] ? ? [s|] ? ?]; reflexivity.
  - rewrite <- list_fmap_compose. apply list_fmap_ext. intros _ img _. simpl.
    unfold ProcessedImage.isPending, ProcessedImage.hasSelection.
    destruct img as [? ? ? ? [] ? ? [s|] ? ?]; reflexivity.
Qed.

(** X19. The counters shown above the queue add up: every image is counted
    in exactly one of pending, processing, completed and failed, and the
    pending ones split into those with and those without a selection. *)
Theorem queue_counters_partition images :
  (ProcessingQueue.pendingCount images + ProcessingQueue.processingCount images
   + ProcessingQueue.completedCount images + ProcessingQueue.errorCount images
   = length images)%nat
  ∧ (BulkActions.pendingWithSelection images
     + BulkActions.pendingWithoutSelection images
     = ProcessingQueue.pendingCount images)%nat.
Proof.
  unfold ProcessingQueue.pendingCount, ProcessingQueue.processingCount,
    ProcessingQueue.completedCount, ProcessingQueue.errorCount,
    ProcessingQueue.countStatus, BulkActions.pendingWithSelection,
    BulkActions.pendingWithoutSelection.
  split.
  - induction images as [|img images IH]; [done|].
    cbn [List.filter length].
    destruct (ProcessedImage.status img); simpl; lia.
  - induction images as [|img images IH]; [done|].
    cbn [List.filter length].
    unfold ProcessedImage.isPending, ProcessedImage.hasSelection in *.
    destruct (ProcessedImage.status img), (ProcessedImage.selection img);
      simpl in *; lia.
Qed.

(** *** What [processImage] settles to *)



(** *** Feathering away from the boundary *)

(** X21. The feathering stage changes only the band of width 4 along the
    boundary of the selection: a pixel of the image whose distance to the
    nearest edge of the selection is 4 or more keeps, in R, G and B, the
    value the smoothing left. *)
Theorem featherStage_keeps_deep_interior sel width height orig buf x y c :
  outOfImage width height x y = false →
  4 ≤ x - Selection.x sel →
  4 ≤ Selection.width sel - 1 - (x - Selection.x sel) →
  4 ≤ y - Selection.y sel →
  4 ≤ Selection.height sel - 1 - (y - Selection.y sel) →
  0 ≤ c < 3 →
  load (featherStage sel (buildDistMap sel).1 width height orig buf)
    (pixelIndex width x y + c)
  = load buf (pixelIndex width x y + c).
Proof.
  intros Him Hl Hr Ht Hb Hc.
  assert (isInsideSelection x y sel = true) as Hin
    by (apply isInsideSelection_true; lia).
  rewrite (featherStage_channel _ _ _ _ _ _ _ _ _ Him Hin Hc).
  rewrite (featherPixel_channel _ _ _ _ _ _ _ _ _ Hc).
  rewrite buildDistMap_lookup by lia.
  destruct (_ <? 4) eqn:Hlt; [|done].
  apply Z.ltb_lt in Hlt. lia.
Qed.

Lemma featherStage_keeps_deep_interior_witness :
  load (featherStage
          {| Selection.x := 0; Selection.y := 0;
             Selection.width := 9; Selection.height := 9 |}
          (buildDistMap
             {| Selection.x := 0; Selection.y := 0;
                Selection.width := 9; Selection.height := 9 |}).1
          10 9 (replicate 360 200) (replicate 360 90))
    (pixelIndex 10 4 4 + 1)
  = load (replicate 360 90) (pixelIndex 10 4 4 + 1).
Proof.
  apply (featherStage_keeps_deep_interior
           {| Selection.x := 0; Selection.y := 0;
              Selection.width := 9; Selection.height := 9 |}
           10 9 (replicate 360 200) (replicate 360 90) 4 4 1).
  - reflexivity.
  - simpl; lia.
  - simpl; lia.
  - simpl; lia.
  - simpl; lia.
  - lia.
Defined.

(** *** The route of the remote back ends *)

Lemma eqb_string_true (a b : string) : String.eqb a b = true ↔ a = b.
Proof. apply String.eqb_eq. Qed.

(** X22. The route answers 200 exactly when the form holds both files, the
    provider configured is 'replicate' or 'clipdrop', the token of that
    provider is set, and the requests to it succeed; the body then carries
    the URL they returned. *)
Theorem POST_succeeds_iff env formData replicateRequests clipDropRequest url :
  Route.POST env formData replicateRequests clipDropRequest
  = Some {| Route.status := 200; Route.body := Route.UrlBody url |}
  ↔ ∃ image mask,
      formData = Fulfilled (Some image, Some mask)
      ∧ ((Route.INPAINTING_PROVIDER env = Some "replicate"
          ∧ Route.unset (Route.REPLICATE_API_TOKEN env) = false
          ∧ replicateRequests image mask = Some (Fulfilled url))
         ∨ (Route.INPAINTING_PROVIDER env = Some "clipdrop"
            ∧ Route.unset (Route.CLIPDROP_API_KEY env) = false
            ∧ clipDropRequest image mask = Fulfilled url)).
Proof.
  unfold Route.POST, Route.processWithReplicate, Route.processWithClipDrop.
  cbv zeta. split.
  - destruct formData as [[[image|] [mask|]]|]; try discriminate.
    intros H. exists image, mask. split; [done|].
    destruct (Route.INPAINTING_PROVIDER env) as [p|]; [|discriminate].
    cbn [Route.unset from_option id] in H.
    destruct (String.eqb p "") eqn:Hempty; [cbn in H; discriminate|].
    destruct (String.eqb p "replicate") eqn:Hrep.
    + apply eqb_string_true in Hrep as ->. left.
      destruct (Route.unset (Route.REPLICATE_API_TOKEN env));
        [discriminate|].
      destruct (replicateRequests image mask) as [[u|]|]; try discriminate.
      by injection H as ->.
    + destruct (String.eqb p "clipdrop") eqn:Hclip; [|discriminate].
      apply eqb_string_true in Hclip as ->. right.
      destruct (Route.unset (Route.CLIPDROP_API_KEY env)); [discriminate|].
      destruct (clipDropRequest image mask) as [u|]; try discriminate.
      by injection H as ->.
  - intros (image & mask & -> & [(-> & -> & ->) | (-> & -> & ->)]); reflexivity.
Qed.

(** X23. When no remote provider is configured, or the token of the
    configured one is missing, the route sends its answer without a request
    to a back end, and the answer is an error: 400 when a file is missing,
    500 when the form cannot be read or the token is missing (the message
    about the token is replaced by 'Processing failed'), 501 when the
    provider is unset or unknown. *)
Theorem POST_without_backend env formData replicateRequests clipDropRequest :
  (Route.INPAINTING_PROVIDER env ≠ Some "replicate"
   ∧ Route.INPAINTING_PROVIDER env ≠ Some "clipdrop")
  ∨ (Route.INPAINTING_PROVIDER env = Some "replicate"
     ∧ Route.unset (Route.REPLICATE_API_TOKEN env) = true)
  ∨ (Route.INPAINTING_PROVIDER env = Some "clipdrop"
     ∧ Route.unset (Route.CLIPDROP_API_KEY env) = true) →
  Route.POST env formData replicateRequests clipDropRequest
  = Some
      match formData with
      | Rejected _ =>
          {| Route.status := 500;
             Route.body := Route.ErrorBody "Processing failed" |}
      | Fulfilled (Some _, Some _) =>
          if Route.unset (Route.INPAINTING_PROVIDER env)
          then {| Route.status := 501;
                  Route.body :=
                    Route.ErrorBody
                      "No AI provider configured. Using client-side processing." |}
          else if decide (Route.INPAINTING_PROVIDER env = Some "replicate"
                          ∨ Route.INPAINTING_PROVIDER env = Some "clipdrop")
          then {| Route.status := 500;
                  Route.body := Route.ErrorBody "Processing failed" |}
          else {| Route.status := 501;
                  Route.body :=
                    Route.ErrorBody
                      "No AI provider configured. Using client-side processing." |}
      | Fulfilled _ =>
          {| Route.status := 400;
             Route.body := Route.ErrorBody "Image and mask are required" |}
      end.
Proof.
  intros Hcase.
  unfold Route.POST, Route.processWithReplicate, Route.processWithClipDrop.
  cbv zeta.
  destruct formData as [[[image|] [mask|]]|]; try reflexivity.
  destruct Hcase as [[Hr Hc] | [[-> ->] | [-> ->]]]; [|reflexivity..].
  destruct (Route.INPAINTING_PROVIDER env) as [p|]; [|reflexivity].
  cbn [Route.unset from_option id].
  destruct (String.eqb p "") eqn:Hempty; [reflexivity|].
  destruct (String.eqb p "replicate") eqn:Hrep.
  { apply eqb_string_true in Hrep as ->. done. }
  destruct (String.eqb p "clipdrop") eqn:Hclip.
  { apply eqb_string_true in Hclip as ->. done. }
  destruct (decide _) as [[[= ->] | [= ->]] | _]; done.
Qed.

Lemma POST_without_backend_witness :
  Route.POST
    {| Route.INPAINTING_PROVIDER := Some "replicate";
       Route.REPLICATE_API_TOKEN := None;
       Route.CLIPDROP_API_KEY := Some "key" |}
    (Fulfilled (Some (File.mk "a.png" "image/png"),
                Some (File.mk "mask.png" "image/png")))
    (λ _ _, Some (Fulfilled "https://replicate.delivery/out.png"))
    (λ _ _, Fulfilled "data:image/png;base64,AAAA")
  = Some {| Route.status := 500;
            Route.body := Route.ErrorBody "Processing failed" |}.
Proof.
  apply (POST_without_backend
           {| Route.INPAINTING_PROVIDER := Some "replicate";
              Route.REPLICATE_API_TOKEN := None;
              Route.CLIPDROP_API_KEY := Some "key" |}
           (Fulfilled (Some (File.mk "a.png" "image/png"),
                       Some (File.mk "mask.png" "image/png")))
           (λ _ _, Some (Fulfilled "https://replicate.delivery/out.png"))
           (λ _ _, Fulfilled "data:image/png;base64,AAAA")).
  right. left. split; reflexivity.
Defined.

(** *** The name of the downloaded file *)

Lemma extensionChars_dot a b :
  ImageCard.extensionChars (a +:+ String "."%char b) = false.
Proof.
  induction a as [|c a IH]; [reflexivity|].
  simpl. rewrite IH. apply andb_false_r.
Qed.

Lemma matchesExtension_inv s :
  ImageCard.matchesExtension s = true →
  ∃ ext, s = String "."%char ext ∧ ext ≠ EmptyString
         ∧ ImageCard.extensionChars ext = true.
Proof.
  destruct s as [|c [|d rest]]; [done..|].
  unfold ImageCard.matchesExtension. intros [Hc Hext]%andb_true_iff.
  apply Ascii.eqb_eq in Hc as ->. by exists (String d rest).
Qed.

(** X24. The name of the downloaded file.  When the name ends in a dot
    followed by one character or more, none of them a dot or a slash, that
    last extension alone is replaced: "base.ext" becomes "base-cleaned.png",
    whatever dots and slashes the base holds.  A name with no such ending
    (no dot, a dot at the very end, a slash after the last dot) is kept
    whole and "-cleaned.png" is appended. *)
Theorem downloadFilename_replaces_last_extension name :
  (∀ base ext,
     name = base +:+ String "."%char ext →
     ext ≠ EmptyString →
     ImageCard.extensionChars ext = true →
     ImageCard.downloadFilename name = base +:+ "-cleaned.png")
  ∧ ((∀ base ext,
        name = base +:+ String "."%char ext →
        ext = EmptyString ∨ ImageCard.extensionChars ext = false) →
     ImageCard.downloadFilename name = name +:+ "-cleaned.png").
Proof.
  unfold ImageCard.downloadFilename. split.
  - intros base ext -> Hne Hext. f_equal.
    induction base as [|c base IH].
    + destruct ext as [|d ext]; [done|].
      change (ImageCard.replaceExtension (EmptyString +:+ String "."%char (String d ext)))
        with (if ImageCard.extensionChars (String d ext) then EmptyString
              else String "."%char
                     (ImageCard.replaceExtension (String d ext))).
      by rewrite Hext.
    + change (String c base +:+ String "."%char ext)
        with (String c (base +:+ String "."%char ext)).
      cbn [ImageCard.replaceExtension]. rewrite IH.
      destruct (ImageCard.matchesExtension _) eqn:Hm; [|done].
      apply matchesExtension_inv in Hm as (ext' & [= -> <-] & _ & Hchars).
      by rewrite extensionChars_dot in Hchars.
  - intros Hnone. f_equal.
    induction name as [|c name IH]; [done|].
    cbn [ImageCard.replaceExtension].
    destruct (ImageCard.matchesExtension _) eqn:Hm.
    + apply matchesExtension_inv in Hm as (ext & [= -> ->] & Hne & Hchars).
      destruct (Hnone EmptyString ext eq_refl); congruence.
    + f_equal. apply IH. intros base ext ->.
      apply (Hnone (String c base) ext). reflexivity.
Qed.

Lemma downloadFilename_replaces_last_extension_witness :
  ImageCard.downloadFilename "shots/v1.2/photo.final.jpg"
  = "shots/v1.2/photo.final-cleaned.png"
  ∧ ImageCard.downloadFilename "v1." = "v1.-cleaned.png".
Proof.
  split.
  - apply (proj1 (downloadFilename_replaces_last_extension
                    "shots/v1.2/photo.final.jpg")
             "shots/v1.2/photo.final" "jpg").
    + reflexivity.
    + discriminate.
    + reflexivity.
  - apply (proj2 (downloadFilename_replaces_last_extension "v1.")).
    intros base ext Hname.
    destruct base as [|c0 [|c1 [|c2 [|c3 base]]]]; simpl in Hname;
      try discriminate.
    left. by injection Hname as _ _ <-.
Defined.

(** *** The weighted mean of the fill *)

Lemma inside_test x y sel :
  (0 <=? x - Selection.x sel) && (x - Selection.x sel <? Selection.width sel)
  && (0 <=? y - Selection.y sel) && (y - Selection.y sel <? Selection.height sel)
  = isInsideSelection x y sel.
Proof.
  unfold isInsideSelection.
  destruct (Z.leb_spec 0 (x - Selection.x sel)),
    (Z.ltb_spec (x - Selection.x sel) (Selection.width sel)),
    (Z.leb_spec 0 (y - Selection.y sel)),
    (Z.ltb_spec (y - Selection.y sel) (Selection.height sel)),
    (Z.leb_spec (Selection.x sel) x),
    (Z.ltb_spec x (Selection.x sel + Selection.width sel)),
    (Z.leb_spec (Selection.y sel) y),
    (Z.ltb_spec y (Selection.y sel + Selection.height sel));
    simpl; try reflexivity; lia.
Qed.

Lemma inImage_test width height x y :
  negb ((0 <=? x) && (x <? width) && (0 <=? y) && (y <? height))
  = outOfImage width height x y.
Proof.
  unfold outOfImage.
  destruct (Z.leb_spec 0 x), (Z.ltb_spec x width), (Z.leb_spec 0 y),
    (Z.ltb_spec y height), (Z.ltb_spec x 0), (Z.leb_spec width x),
    (Z.ltb_spec y 0), (Z.leb_spec height y); simpl; try reflexivity; lia.
Qed.

Lemma gatherNeighbors_contributions sel width height sampleRadius layer x y
    orig res :
  gatherNeighbors sel (buildDistMap sel).1 width height sampleRadius layer x y
    orig res
  = foldl (contribution sel width height sampleRadius layer x y orig res)
      (0%float, 0%float, 0%float, 0%float)
      (rowMajor (- sampleRadius) (sampleRadius + 1) (- sampleRadius)
         (sampleRadius + 1)).
Proof.
  unfold gatherNeighbors.
  rewrite (forZ_rowMajor _ _ _ _
             (λ dx dy acc,
                match neighborSource sel (buildDistMap sel).1 width height
                        sampleRadius layer x y dx dy with
                | None => acc
                | Some src =>
                    let d := Math_sqrt (of_Z (dx * dx + dy * dy)) in
                    let weight := (1 / (1 + d * 0x1.3333333333333p-2))%float in
                    let idx := pixelIndex width (x + dx) (y + dy) in
                    let sourceData :=
                      match src with
                      | FromOriginal => orig
                      | FromResult => res
                      end in
                    addWeighted acc (load sourceData idx)
                      (load sourceData (idx + 1)) (load sourceData (idx + 2))
                      weight
                end)).
  apply foldl_pointwise. intros acc [dx dy]. cbn [fst snd].
  unfold contribution, neighborSource. cbv zeta. cbn [fst snd].
  rewrite inImage_test, inside_test.
  destruct (outOfImage width height (x + dx) (y + dy)); [done|].
  cbn [orb].
  destruct (of_Z sampleRadius <? Math_sqrt (of_Z (dx * dx + dy * dy)))%float;
    [done|].
  destruct (Math_sqrt (of_Z (dx * dx + dy * dy)) =? 0)%float; [done|].
  cbn [orb].
  destruct (isInsideSelection (x + dx) (y + dy) sel) eqn:Hin; cbn [negb andb].
  - apply isInsideSelection_true in Hin.
    rewrite buildDistMap_lookup by lia.
    destruct (layer <=? _); [done|].
    destruct acc as [[[sumR sumG] sumB] totalWeight]. reflexivity.
  - destruct acc as [[[sumR sumG] sumB] totalWeight]. reflexivity.
Qed.

(** The sums depend on the result buffer only at pixels of lower layers, and
    on the original only outside the selection. *)
Lemma gatherNeighbors_causal sel width height sampleRadius layer x y
    orig orig' res res' :
  (∀ qx qy c,
     outOfImage width height qx qy = false →
     isInsideSelection qx qy sel = false →
     0 ≤ c < 3 →
     load orig' (pixelIndex width qx qy + c)
     = load orig (pixelIndex width qx qy + c)) →
  (∀ qx qy c,
     outOfImage width height qx qy = false →
     isInsideSelection qx qy sel = true →
     Z.min (Z.min (Z.min (qx - Selection.x sel)
                     (Selection.width sel - 1 - (qx - Selection.x sel)))
              (qy - Selection.y sel))
       (Selection.height sel - 1 - (qy - Selection.y sel)) < layer →
     0 ≤ c < 3 →
     load res' (pixelIndex width qx qy + c)
     = load res (pixelIndex width qx qy + c)) →
  gatherNeighbors sel (buildDistMap sel).1 width height sampleRadius layer x y
    orig' res'
  = gatherNeighbors sel (buildDistMap sel).1 width height sampleRadius layer
      x y orig res.
Proof.
  intros Horig Hres. rewrite !gatherNeighbors_contributions.
  apply foldl_pointwise. intros acc [dx dy].
  unfold contribution. cbv zeta. cbn [fst snd].
  rewrite inImage_test, inside_test.
  destruct (outOfImage width height (x + dx) (y + dy)) eqn:Him; [done|].
  cbn [orb].
  destruct (of_Z sampleRadius <? Math_sqrt (of_Z (dx * dx + dy * dy)))%float;
    [done|].
  destruct (Math_sqrt (of_Z (dx * dx + dy * dy)) =? 0)%float; [done|].
  cbn [orb].
  destruct (isInsideSelection (x + dx) (y + dy) sel) eqn:Hin; cbn [andb].
  - destruct (Z.leb_spec layer
                (Z.min (Z.min (Z.min (x + dx - Selection.x sel)
                                 (Selection.width sel - 1
                                  - (x + dx - Selection.x sel)))
                          (y + dy - Selection.y sel))
                   (Selection.height sel - 1 - (y + dy - Selection.y sel))))
      as [|Hlt]; [done|].
    destruct acc as [[[sumR sumG] sumB] totalWeight].
    change ((y + dy) * width + (x + dx)) with ((y + dy) * width + (x + dx)).
    pose proof (Hres (x + dx) (y + dy) 0 Him Hin Hlt ltac:(lia)) as H0.
    pose proof (Hres (x + dx) (y + dy) 1 Him Hin Hlt ltac:(lia)) as H1.
    pose proof (Hres (x + dx) (y + dy) 2 Him Hin Hlt ltac:(lia)) as H2.
    unfold pixelIndex in H0, H1, H2. rewrite Z.add_0_r in H0.
    by rewrite H0, H1, H2.
  - destruct acc as [[[sumR sumG] sumB] totalWeight].
    pose proof (Horig (x + dx) (y + dy) 0 Him Hin ltac:(lia)) as H0.
    pose proof (Horig (x + dx) (y + dy) 1 Him Hin ltac:(lia)) as H1.
    pose proof (Horig (x + dx) (y + dy) 2 Him Hin ltac:(lia)) as H2.
    unfold pixelIndex in H0, H1, H2. rewrite Z.add_0_r in H0.
    by rewrite H0, H1, H2.
Qed.

(** The two texture samples of one pixel, when none is [undefined]. *)
Lemma injectTexture_samples random bank acc drawn acc' drawn' :
  injectTexture random bank acc drawn = Returned (acc', drawn') →
  ∃ sample1 sample2,
    bankAt bank
      (Math_floor (random drawn * of_Z (Z.of_nat (length bank))))
    = Some sample1
    ∧ bankAt bank
        (Math_floor (random (S drawn) * of_Z (Z.of_nat (length bank))))
      = Some sample2
    ∧ drawn' = S (S drawn)
    ∧ acc'
      = addWeighted
          (addWeighted acc (TextureSample.r sample1) (TextureSample.g sample1)
             (TextureSample.b sample1) 0x1.999999999999ap-4)
          (TextureSample.r sample2) (TextureSample.g sample2)
          (TextureSample.b sample2) 0x1.999999999999ap-4.
Proof.
  unfold injectTexture, forZM. cbv zeta.
  change (seqZ 0 (2 - 0)) with [0; 1]. cbn [foldl].
  change (Returned (acc, drawn) ≫= ?k) with (k (acc, drawn)). cbv beta iota.
  destruct (bankAt bank (Math_floor (random drawn * _))) as [sample1|];
    [|discriminate].
  change (Returned ?a ≫= ?k) with (k a). cbv beta iota.
  destruct (bankAt bank (Math_floor (random (S drawn) * _))) as [sample2|];
    [|discriminate].
  intros [= <- <-]. by exists sample1, sample2.
Qed.

(** What [fillPixel] writes: the weighted mean of the neighbour sums and the
    two texture samples. *)
Lemma fillPixel_mean random sel distMap width height margin layer x y orig
    bank s s' :
  fillPixel random sel distMap width height margin layer x y orig bank s
    = Returned s' →
  ∃ sample1 sample2,
    bankAt bank
      (Math_floor (random (draws s) * of_Z (Z.of_nat (length bank))))
    = Some sample1
    ∧ bankAt bank
        (Math_floor (random (S (draws s)) * of_Z (Z.of_nat (length bank))))
      = Some sample2
    ∧ draws s' = S (S (draws s))
    ∧ let '(nR, nG, nB, nW) :=
        gatherNeighbors sel distMap width height (Z.min 10 margin) layer x y
          orig (resultData s) in
      let w := 0x1.999999999999ap-4%float in
      let totalWeight := (nW + w + w)%float in
      ∀ c, 0 ≤ c < 3 →
        let sum :=
          if c =? 0
          then (nR + toNumber (TextureSample.r sample1) * w
                + toNumber (TextureSample.r sample2) * w)%float
          else if c =? 1
          then (nG + toNumber (TextureSample.g sample1) * w
                + toNumber (TextureSample.g sample2) * w)%float
          else (nB + toNumber (TextureSample.b sample1) * w
                + toNumber (TextureSample.b sample2) * w)%float in
        load (resultData s') (pixelIndex width x y + c)
        = if (0 <? totalWeight)%float
          then (λ _, ToUint8Clamp (Math_round (sum / totalWeight)))
                 <$> load (resultData s) (pixelIndex width x y + c)
          else load (resultData s) (pixelIndex width x y + c).
Proof.
  unfold fillPixel. cbv zeta.
  destruct (injectTexture random bank _ (draws s)) as [[acc drawn]|e] eqn:Hinj;
    [|discriminate].
  change (Returned (acc, drawn) ≫= ?k) with (k (acc, drawn)). cbv beta iota.
  destruct (injectTexture_samples _ _ _ _ _ _ Hinj)
    as (sample1 & sample2 & H1 & H2 & -> & ->).
  intros Hrun.
  exists sample1, sample2. split; [exact H1|]. split; [exact H2|].
  destruct (gatherNeighbors _ _ _ _ _ _ _ _ _ _) as [[[nR nG] nB] nW].
  cbn [addWeighted] in Hrun |- *.
  destruct (0 <? nW + 0x1.999999999999ap-4 + 0x1.999999999999ap-4)%float;
    injection Hrun as <-; (split; [reflexivity|]); intros c Hc;
    cbn [resultData setResult]; [|done].
  rewrite storeRGB_channel by done.
  destruct (load (resultData s) (pixelIndex width x y + c)); [|done].
  cbn [fmap option_fmap option_map]. by repeat destruct (c =? _).
Qed.

Lemma foldlM_raised {S A : Type} (body : A → S → outcome S) e (l : list A) :
  foldl (λ m a, m ≫= body a) (Raised e) l = Raised e.
Proof. induction l as [|a l IH]; simpl; [done | exact IH]. Qed.

Lemma foldlM_app {S A : Type} (body : A → S → outcome S) m (l1 l2 : list A) :
  foldl (λ m a, m ≫= body a) m (l1 ++ l2)
  = foldl (λ m a, m ≫= body a) (foldl (λ m a, m ≫= body a) m l1) l2.
Proof. apply foldl_app. Qed.

Lemma forZM_rowMajor {S : Type} y0 y1 x0 x1 (body : Z → Z → S → outcome S) s :
  forZM y0 y1 (λ y, forZM x0 x1 (λ x, body x y)) s
  = foldl (λ m p, m ≫= body p.1 p.2) (Returned s) (rowMajor y0 y1 x0 x1).
Proof.
  unfold forZM at 1, rowMajor. generalize (Returned s). clear s.
  induction (seqZ y0 (y1 - y0)) as [|y ys IH]; intros m; [done|].
  rewrite bind_cons, foldl_app. cbn [foldl]. rewrite IH. f_equal.
  destruct m as [s|e].
  - change (Returned s ≫= ?k) with (k s). cbv beta. unfold forZM.
    generalize (Returned s). clear. generalize (seqZ x0 (x1 - x0)).
    intros xs. induction xs as [|x xs IH]; intros m; [done|].
    rewrite bind_cons, foldl_app. cbn [foldl]. apply IH.
  - change (Raised e ≫= ?k) with (@Raised S e).
    symmetry. apply (foldlM_raised (λ p, body p.1 p.2)).
Qed.

(** One layer over a list of distinct pixels of the selection, given by
    their local coordinates: a pixel of the layer is handed to [fillPixel]
    in a state that differs from the state the layer started in only at
    other pixels of the layer. *)
Lemma fillLayer_fold random sel width height margin orig bank layer
    (l : list (Z * Z)) :
  let body := λ (lx ly : Z) (s : State),
    match load (buildDistMap sel).1 (ly * Selection.width sel + lx) with
    | None => Returned s
    | Some dist =>
        if negb (dist =? layer) then Returned s
        else
          let x := Selection.x sel + lx in
          let y := Selection.y sel + ly in
          if outOfImage width height x y then Returned s
          else fillPixel random sel (buildDistMap sel).1 width height margin
                 layer x y orig bank s
    end in
  let ofLayer := λ p : Z * Z,
    edgeDistance sel (Selection.x sel + p.1) (Selection.y sel + p.2) = layer
    ∧ outOfImage width height (Selection.x sel + p.1) (Selection.y sel + p.2)
      = false in
  NoDup l →
  (∀ p, p ∈ l → 0 ≤ p.1 < Selection.width sel
                ∧ 0 ≤ p.2 < Selection.height sel) →
  ∀ s s',
    foldl (λ m p, m ≫= body p.1 p.2) (Returned s) l = Returned s' →
    (∀ j,
       (∀ q c, q ∈ l → ofLayer q → 0 ≤ c < 3 →
               j ≠ pixelIndex width (Selection.x sel + q.1)
                     (Selection.y sel + q.2) + c) →
       load (resultData s') j = load (resultData s) j)
    ∧ (draws s ≤ draws s')%nat
    ∧ ∀ p, p ∈ l → ofLayer p →
        ∃ s1 s2,
          fillPixel random sel (buildDistMap sel).1 width height margin layer
            (Selection.x sel + p.1) (Selection.y sel + p.2) orig bank s1
          = Returned s2
          ∧ (draws s ≤ draws s1)%nat ∧ (draws s2 ≤ draws s')%nat
          ∧ (∀ j,
               (∀ q c, q ∈ l → q ≠ p → ofLayer q → 0 ≤ c < 3 →
                       j ≠ pixelIndex width (Selection.x sel + q.1)
                             (Selection.y sel + q.2) + c) →
               load (resultData s1) j = load (resultData s) j)
          ∧ ∀ c, 0 ≤ c < 3 →
              load (resultData s')
                (pixelIndex width (Selection.x sel + p.1)
                   (Selection.y sel + p.2) + c)
              = load (resultData s2)
                  (pixelIndex width (Selection.x sel + p.1)
                     (Selection.y sel + p.2) + c).
Proof.
  intros body ofLayer Hnd. induction Hnd as [|q l Hq Hnd IH];
    intros Hin s s'; cbn [foldl].
  { intros [= <-]. split; [done|]. split; [done|].
    intros p Hp. by apply elem_of_nil in Hp. }
  change (Returned s ≫= ?k) with (k s). cbv beta.
  destruct (body q.1 q.2 s) as [sq|e] eqn:Hbody;
    [|by rewrite (foldlM_raised (λ p, body p.1 p.2))].
  intros Hrun.
  destruct (IH (λ p Hp, Hin p (list_elem_of_further _ _ _ Hp)) sq s' Hrun)
    as (IHframe & IHdraws & IHpix).
  destruct (Hin q (list_elem_of_here _ _)) as [Hqx Hqy].
  (* what the head does *)
  assert (Hhead : (ofLayer q
                   ∧ fillPixel random sel (buildDistMap sel).1 width height
                       margin layer (Selection.x sel + q.1)
                       (Selection.y sel + q.2) orig bank s = Returned sq)
                  ∨ (¬ ofLayer q ∧ sq = s)).
  { unfold body in Hbody. rewrite buildDistMap_lookup in Hbody by lia.
    unfold ofLayer, edgeDistance.
    replace (Selection.x sel + q.1 - Selection.x sel) with q.1 by lia.
    replace (Selection.y sel + q.2 - Selection.y sel) with q.2 by lia.
    destruct (Z.eqb_spec
                (Z.min (Z.min (Z.min q.1 (Selection.width sel - 1 - q.1)) q.2)
                   (Selection.height sel - 1 - q.2)) layer) as [Heq|Hne];
      cbn [negb] in Hbody.
    - destruct (outOfImage width height (Selection.x sel + q.1)
                  (Selection.y sel + q.2)) eqn:Him.
      + right. injection Hbody as <-. split; [|done]. intros [_ ?]. done.
      + left. done.
    - right. injection Hbody as <-. split; [|done]. intros [? _]. done. }
  assert (Hdistinct : ∀ (a b : Z * Z) c c',
            a ≠ b →
            0 ≤ a.1 ∧ 0 ≤ a.2 → 0 ≤ b.1 ∧ 0 ≤ b.2 →
            outOfImage width height (Selection.x sel + a.1)
              (Selection.y sel + a.2) = false →
            outOfImage width height (Selection.x sel + b.1)
              (Selection.y sel + b.2) = false →
            0 ≤ c < 3 → 0 ≤ c' < 3 →
            pixelIndex width (Selection.x sel + a.1) (Selection.y sel + a.2) + c
            ≠ pixelIndex width (Selection.x sel + b.1)
                (Selection.y sel + b.2) + c').
  { intros [ax ay] [bx b_y] c c' Hne _ _ Ha Hb Hc Hc' Heq.
    apply outOfImage_false in Ha, Hb. cbn [fst snd] in *.
    apply pixelIndex_inj in Heq as (Hx & Hy & _); [|lia..].
    apply Hne. f_equal; lia. }
  assert (Hsq_frame : ∀ j,
            (ofLayer q → ∀ c, 0 ≤ c < 3 →
               j ≠ pixelIndex width (Selection.x sel + q.1)
                     (Selection.y sel + q.2) + c) →
            load (resultData sq) j = load (resultData s) j).
  { intros j Hj. destruct Hhead as [[Hof Hfill] | [_ ->]]; [|done].
    apply (fillPixel_other _ _ _ _ _ _ _ _ _ _ _ _ _ _ Hfill).
    intros c Hc. by apply Hj. }
  assert (Hsq_draws : (draws s ≤ draws sq)%nat).
  { destruct Hhead as [[Hof Hfill] | [_ ->]]; [|done].
    destruct (fillPixel_mean _ _ _ _ _ _ _ _ _ _ _ _ _ Hfill)
      as (? & ? & _ & _ & -> & _). lia. }
  split; [|split].
  - intros j Hj. rewrite IHframe.
    + apply Hsq_frame. intros Hof c Hc. apply (Hj q c); [by left | done..].
    + intros r c Hr Hof Hc. apply Hj; [by right | done..].
  - lia.
  - intros p Hp Hof. apply elem_of_cons in Hp as [-> | Hp].
    + destruct Hhead as [[_ Hfill] | [Hnot _]]; [|done].
      exists s, sq. split; [exact Hfill|]. split; [lia|]. split; [lia|].
      split; [done|].
      intros c Hc. apply IHframe. intros r c' Hr [_ Hrim] Hc'.
      destruct Hof as [_ Hqim].
      destruct (Hin r (list_elem_of_further _ _ _ Hr)) as [Hrx Hry].
      apply Hdistinct; [|lia..|done|done|done|done].
      intros ->. done.
    + destruct (IHpix p Hp Hof) as (s1 & s2 & Hfill & Hd1 & Hd2 & Hfr & Hch).
      exists s1, s2. split; [exact Hfill|]. split; [lia|]. split; [lia|].
      split; [|exact Hch].
      intros j Hj. rewrite Hfr.
      * apply Hsq_frame. intros Hofq c Hc.
        apply (Hj q c); [by left | | done | done]. intros ->. done.
      * intros r c Hr Hne Hofr Hc. apply Hj; [by right | done..].
Qed.

(** C5. In the fill, with the distance map the code builds.  The sums a
    pixel at layer L gathers are those of [contribution] over its
    (2 R + 1) x (2 R + 1) window in scan order: a neighbour adds its colour
    only if it is in the image, within the sample radius and not the pixel
    itself, and either outside the selection, read from the original, or
    inside it at a distance to the nearest edge below L, read from the
    result buffer; every neighbour at distance L or more adds nothing.  A
    layer leaves the pixels of the other layers as they are, and a pixel of
    layer L ends the layer with the byte of the weighted mean of the sums
    gathered over the buffer as it was when the layer started and of two
    samples of the bank: what other pixels of the layer wrote meanwhile is
    not read.  From the start of layer L to the end of the fill no pixel at a
    distance below L is written: what is read from the result buffer is
    final. *)
Theorem fill_neighbors_causal sel width height :
  let distMap := (buildDistMap sel).1 in
  (∀ sampleRadius layer x y orig res,
     gatherNeighbors sel distMap width height sampleRadius layer x y orig res
     = foldl (contribution sel width height sampleRadius layer x y orig res)
         (0%float, 0%float, 0%float, 0%float)
         (rowMajor (- sampleRadius) (sampleRadius + 1) (- sampleRadius)
            (sampleRadius + 1)))
  ∧ (∀ random maxDist margin orig bank hasSink layer s s',
       fillLayer random sel distMap maxDist width height margin orig bank
         hasSink layer s = Returned s' →
       ∀ x y,
         outOfImage width height x y = false →
         isInsideSelection x y sel = true →
         (edgeDistance sel x y ≠ layer →
          ∀ c, 0 ≤ c < 3 →
            load (resultData s') ((y * width + x) * 4 + c)
            = load (resultData s) ((y * width + x) * 4 + c))
         ∧ (edgeDistance sel x y = layer →
            ∃ (k : nat) i1 i2 sample1 sample2,
              (draws s ≤ k)%nat ∧ (k + 2 ≤ draws s')%nat
              ∧ Math_floor (random k * of_Z (Z.of_nat (length bank)))
                = Some i1
              ∧ 0 ≤ i1 ∧ bank !! Z.to_nat i1 = Some sample1
              ∧ Math_floor (random (S k) * of_Z (Z.of_nat (length bank)))
                = Some i2
              ∧ 0 ≤ i2 ∧ bank !! Z.to_nat i2 = Some sample2
              ∧ let '(nR, nG, nB, nW) :=
                  gatherNeighbors sel distMap width height (Z.min 10 margin)
                    layer x y orig (resultData s) in
                let w := 0x1.999999999999ap-4%float in
                let totalWeight := (nW + w + w)%float in
                ∀ c, 0 ≤ c < 3 →
                  let sum :=
                    if c =? 0
                    then (nR + toNumber (TextureSample.r sample1) * w
                          + toNumber (TextureSample.r sample2) * w)%float
                    else if c =? 1
                    then (nG + toNumber (TextureSample.g sample1) * w
                          + toNumber (TextureSample.g sample2) * w)%float
                    else (nB + toNumber (TextureSample.b sample1) * w
                          + toNumber (TextureSample.b sample2) * w)%float in
                  load (resultData s') ((y * width + x) * 4 + c)
                  = if (0 <? totalWeight)%float
                    then (λ _, ToUint8Clamp (Math_round (sum / totalWeight)))
                           <$> load (resultData s) ((y * width + x) * 4 + c)
                    else load (resultData s) ((y * width + x) * 4 + c)))
  ∧ (∀ random maxDist margin orig bank hasSink layer s s' x y c,
       forZM layer (maxDist + 1)
         (fillLayer random sel distMap maxDist width height margin orig bank
            hasSink) s = Returned s' →
       outOfImage width height x y = false →
       isInsideSelection x y sel = true →
       edgeDistance sel x y < layer →
       0 ≤ c < 3 →
       load (resultData s') ((y * width + x) * 4 + c)
       = load (resultData s) ((y * width + x) * 4 + c)).
Proof.
  cbv zeta. split; [|split].
  - intros. apply gatherNeighbors_contributions.
  - intros random maxDist margin orig bank hasSink layer s s' Hrun x y Him Hin.
    pose proof Hin as Hbox. apply isInsideSelection_true in Hbox.
    change ((y * width + x) * 4) with (pixelIndex width x y).
    split.
    { intros Hne c Hc.
      apply (fillLayer_keeps_other_layers _ _ _ _ _ _ _ _ _ _ _ _ _ _ _ _
               Hrun Him); [|done].
      rewrite buildDistMap_lookup by lia. unfold edgeDistance in Hne.
      intros [= Heq]. done. }
    intros Hlayer.
    unfold fillLayer in Hrun.
    rewrite (forZM_rowMajor 0 (Selection.height sel) 0 (Selection.width sel)
               (λ lx ly s,
                  match load (buildDistMap sel).1
                          (ly * Selection.width sel + lx) with
                  | None => Returned s
                  | Some dist =>
                      if negb (dist =? layer) then Returned s
                      else
                        let x := Selection.x sel + lx in
                        let y := Selection.y sel + ly in
                        if outOfImage width height x y then Returned s
                        else fillPixel random sel (buildDistMap sel).1 width
                               height margin layer x y orig bank s
                  end)) in Hrun.
    match type of Hrun with
    | ?loop ≫= _ = _ => destruct loop as [s0|e] eqn:Hloop; [|discriminate]
    end.
    change (Returned s0 ≫= ?k) with (k s0) in Hrun. cbv beta in Hrun.
    assert (Hs' : resultData s' = resultData s0 ∧ draws s' = draws s0).
    { injection Hrun as <-. by destruct (hasSink && (0 <? maxDist)). }
    destruct Hs' as [-> Hdraws']. clear Hrun.
    assert (Hbounds : ∀ p : Z * Z,
              p ∈ rowMajor 0 (Selection.height sel) 0 (Selection.width sel) →
              0 ≤ p.1 < Selection.width sel ∧ 0 ≤ p.2 < Selection.height sel).
    { intros [px py] Hp. apply elem_of_rowMajor in Hp. cbn [fst snd]. lia. }
    destruct (fillLayer_fold random sel width height margin orig bank layer
                (rowMajor 0 (Selection.height sel) 0 (Selection.width sel))
                (rowMajor_NoDup _ _ _ _) Hbounds s s0 Hloop)
      as (_ & _ & Hpix).
    destruct (Hpix (x - Selection.x sel, y - Selection.y sel))
      as (s1 & s2 & Hfill & Hd1 & Hd2 & Hframe & Hch).
    { apply elem_of_rowMajor. lia. }
    { cbn [fst snd].
      replace (Selection.x sel + (x - Selection.x sel)) with x by lia.
      replace (Selection.y sel + (y - Selection.y sel)) with y by lia.
      done. }
    cbn [fst snd] in Hfill, Hframe, Hch.
    replace (Selection.x sel + (x - Selection.x sel)) with x in * by lia.
    replace (Selection.y sel + (y - Selection.y sel)) with y in * by lia.
    (* bytes of other pixels that [s1] shares with [s] *)
    assert (Hshared : ∀ qx qy c,
              outOfImage width height qx qy = false →
              (qx, qy) = (x, y) ∨ edgeDistance sel qx qy ≠ layer →
              0 ≤ c < 3 →
              load (resultData s1) (pixelIndex width qx qy + c)
              = load (resultData s) (pixelIndex width qx qy + c)).
    { intros qx qy c Hqim Hq Hc. apply Hframe.
      intros [rx ry] c' Hr Hne [Hredge Hrim] Hc' Heq. cbn [fst snd] in *.
      apply outOfImage_false in Hqim, Hrim.
      apply pixelIndex_inj in Heq as (Hx & Hy & _); [|lia..].
      subst qx qy. destruct Hq as [[= Hx Hy] | Hq]; [|done].
      apply Hne. f_equal; lia. }
    destruct (fillPixel_mean _ _ _ _ _ _ _ _ _ _ _ _ _ Hfill)
      as (sample1 & sample2 & Hb1 & Hb2 & Hd & Hmean).
    unfold bankAt in Hb1, Hb2.
    destruct (Math_floor (random (draws s1) * _)) as [i1|] eqn:Hi1;
      [|discriminate].
    destruct (Math_floor (random (S (draws s1)) * _)) as [i2|] eqn:Hi2;
      [|discriminate].
    destruct (Z.ltb_spec i1 0); [discriminate|].
    destruct (Z.ltb_spec i2 0); [discriminate|].
    exists (draws s1), i1, i2, sample1, sample2.
    split; [lia|]. split; [lia|].
    do 6 (split; [done|]).
    rewrite (gatherNeighbors_causal sel width height (Z.min 10 margin) layer
               x y orig orig (resultData s) (resultData s1)) in Hmean.
    2: done.
    2:{ intros qx qy c Hqim Hqin Hqlt Hc. apply Hshared; [done | | done].
        right. unfold edgeDistance. lia. }
    destruct (gatherNeighbors _ _ _ _ _ _ _ _ _ _) as [[[nR nG] nB] nW].
    cbv zeta in Hmean |- *. intros c Hc.
    rewrite (Hch c Hc), (Hmean c Hc), (Hshared x y c Him (or_introl eq_refl) Hc).
    done.
  - intros random maxDist margin orig bank hasSink layer s s' x y c Hrun Him
      Hin Hlt Hc.
    apply isInsideSelection_true in Hin.
    apply (fill_tail_keeps_lower_layers _ _ _ _ _ _ _ _ _ _ _ _ _ _ _ _ _
             Hrun Him
             (buildDistMap_lookup sel (x - Selection.x sel)
                (y - Selection.y sel) ltac:(lia) ltac:(lia)));
      [|done].
    unfold edgeDistance in Hlt. lia.
Qed.

Lemma fill_neighbors_causal_witness :
  ∃ (k : nat) i1 i2 sample1 sample2,
    (draws rampLayer0 ≤ k)%nat ∧ (k + 2 ≤ draws rampLayer1)%nat
    ∧ Math_floor
        (demoRandom k
         * of_Z (Z.of_nat
                   (length (buildTextureBank rampImage gridSelection 50))))
      = Some i1
    ∧ 0 ≤ i1
    ∧ buildTextureBank rampImage gridSelection 50 !! Z.to_nat i1
      = Some sample1
    ∧ Math_floor
        (demoRandom (S k)
         * of_Z (Z.of_nat
                   (length (buildTextureBank rampImage gridSelection 50))))
      = Some i2
    ∧ 0 ≤ i2
    ∧ buildTextureBank rampImage gridSelection 50 !! Z.to_nat i2
      = Some sample2
    ∧ let '(nR, nG, nB, nW) :=
        gatherNeighbors gridSelection (buildDistMap gridSelection).1 5 5
          (Z.min 10 50) 1 2 2 (ImageData.data rampImage)
          (resultData rampLayer0) in
      let w := 0x1.999999999999ap-4%float in
      let totalWeight := (nW + w + w)%float in
      ∀ c, 0 ≤ c < 3 →
        let sum :=
          if c =? 0
          then (nR + toNumber (TextureSample.r sample1) * w
                + toNumber (TextureSample.r sample2) * w)%float
          else if c =? 1
          then (nG + toNumber (TextureSample.g sample1) * w
                + toNumber (TextureSample.g sample2) * w)%float
          else (nB + toNumber (TextureSample.b sample1) * w
                + toNumber (TextureSample.b sample2) * w)%float in
        load (resultData rampLayer1) ((2 * 5 + 2) * 4 + c)
        = if (0 <? totalWeight)%float
          then (λ _, ToUint8Clamp (Math_round (sum / totalWeight)))
                 <$> load (resultData rampLayer0) ((2 * 5 + 2) * 4 + c)
          else load (resultData rampLayer0) ((2 * 5 + 2) * 4 + c).
Proof.
  apply (proj2 (proj1 (proj2 (fill_neighbors_causal gridSelection 5 5))
                  demoRandom 1 50 (ImageData.data rampImage)
                  (buildTextureBank rampImage gridSelection 50) false 1
                  rampLayer0 rampLayer1 ltac:(vm_compute; reflexivity) 2 2
                  ltac:(reflexivity) ltac:(reflexivity))).
  reflexivity.
Defined.
